(** * mysqld_exporter: the metric-derivation core

    A shallow embedding of [collector/collector.go] ([parseStatus],
    [ParseGTID]), [collector/slave_status.go] and the master-status scraper,
    together with the parts of the Go standard library they call
    ([strings], [strconv], [time], [regexp], [unicode/utf8]) and the checks
    that the Prometheus client makes when a sample is built.

    Go strings are byte strings: they are modelled by [string], whose
    characters ([ascii]) are the 256 byte values.  [int] is taken to be 64 bits
    wide ([strconv.IntSize = 64]). *)

From Stdlib Require Import ZArith List String Ascii Bool Lia Arith.
From Stdlib Require Import Floats.SpecFloat.
From Stdlib Require Import DecimalString.
Import ListNotations.

Open Scope string_scope.
Open Scope Z_scope.

(** ** Outcomes of Go code that may panic *)

Inductive run (A : Type) : Type :=
| Return (a : A)
| Panic.
Arguments Return {A} a.
Arguments Panic {A}.

(** ** Package [strings] *)

Module strings.

Definition code (c : ascii) : Z := Z.of_nat (nat_of_ascii c).

(** [strings.Split(s, sep)] for a one-byte separator: the pieces between
    the occurrences of [sep]; never empty. *)
Fixpoint Split (s : string) (sep : ascii) : list string :=
  match s with
  | EmptyString => [EmptyString]
  | String c r =>
      if Ascii.eqb c sep then EmptyString :: Split r sep
      else match Split r sep with
           | h :: t => String c h :: t
           | [] => [String c EmptyString]
           end
  end.

(** [asciiSpace]: tab, newline, vertical tab, form feed, carriage return,
    space. *)
Definition asciiSpace (c : ascii) : bool :=
  let n := code c in
  ((9 <=? n) && (n <=? 13)) || (n =? 32).

(** [unicode.IsSpace] beyond [asciiSpace], on UTF-8 encodings: the two-byte
    runes U+0085 and U+00A0, and the three-byte runes U+1680,
    U+2000..U+200A, U+2028, U+2029, U+202F, U+205F and U+3000. *)
Definition space2 (c1 c2 : ascii) : bool :=
  (code c1 =? 194) && ((code c2 =? 133) || (code c2 =? 160)).

Definition space3 (c1 c2 c3 : ascii) : bool :=
  let a := code c1 in
  let b := code c2 in
  let d := code c3 in
  ((a =? 225) && (b =? 154) && (d =? 128)) ||
  ((a =? 226) && (b =? 128) &&
     (((128 <=? d) && (d <=? 138)) || (d =? 168) || (d =? 169) || (d =? 175))) ||
  ((a =? 226) && (b =? 129) && (d =? 159)) ||
  ((a =? 227) && (b =? 128) && (d =? 128)).

(** [TrimLeftFunc(s, unicode.IsSpace)]: white-space runes are dropped from
    the front, up to the first rune that is none. *)
Fixpoint TrimLeftSpace (s : string) : string :=
  match s with
  | EmptyString => s
  | String c1 r1 =>
      if asciiSpace c1 then TrimLeftSpace r1
      else
        match r1 with
        | EmptyString => s
        | String c2 r2 =>
            if space2 c1 c2 then TrimLeftSpace r2
            else
              match r2 with
              | EmptyString => s
              | String c3 r3 =>
                  if space3 c1 c2 c3 then TrimLeftSpace r3 else s
              end
        end
  end.

(** The same on the reversed string: [r] holds the bytes last to first, so
    a rune's encoding is read backwards. *)
Fixpoint trimRev (r : string) : string :=
  match r with
  | EmptyString => r
  | String c1 r1 =>
      if asciiSpace c1 then trimRev r1
      else
        match r1 with
        | EmptyString => r
        | String c2 r2 =>
            if space2 c2 c1 then trimRev r2
            else
              match r2 with
              | EmptyString => r
              | String c3 r3 =>
                  if space3 c3 c2 c1 then trimRev r3 else r
              end
        end
  end.

Fixpoint rev_append (s acc : string) : string :=
  match s with
  | EmptyString => acc
  | String c r => rev_append r (String c acc)
  end.

Definition rev (s : string) : string := rev_append s EmptyString.

(** [TrimRightFunc(s, unicode.IsSpace)]. *)
Definition TrimRightSpace (s : string) : string := rev (trimRev (rev s)).

(** [strings.TrimSpace]: its ASCII fast path and its Unicode path both come
    to trimming on the left, then on the right. *)
Definition TrimSpace (s : string) : string :=
  TrimRightSpace (TrimLeftSpace s).

Definition lower (c : ascii) : ascii :=
  let n := code c in
  if (65 <=? n) && (n <=? 90) then ascii_of_nat (nat_of_ascii c + 32)%nat else c.

Fixpoint mapBytes (f : ascii -> ascii) (s : string) : string :=
  match s with
  | EmptyString => EmptyString
  | String c r => String (f c) (mapBytes f r)
  end.

Fixpoint allBytes (p : ascii -> bool) (s : string) : bool :=
  match s with
  | EmptyString => true
  | String c r => p c && allBytes p r
  end.

Definition isASCII (c : ascii) : bool := code c <? 128.

End strings.

(** ** The type [float64] *)

(** IEEE 754 binary64 values, as the Standard Library specifies them: zeros,
    infinities, NaN and the finite [(-1)^s * m * 2^e] with a canonical
    mantissa.  Conversions round to nearest, ties to even. *)
Module float64.

Definition t : Type := spec_float.

Definition prec : Z := 53.
Definition emax : Z := 1024.

(** The float nearest to [n]: the conversion [float64(n)] of an integer. *)
Definition ofInt (n : Z) : t := binary_normalize prec emax n 0 false.

(** The float nearest to [(-1)^neg * p / q]. *)
Definition ofRatio (neg : bool) (p q : positive) : t :=
  SFdiv prec emax (S754_finite neg p 0) (S754_finite false q 0).

(** The float nearest to [(-1)^neg * m * base^e], for [m >= 0]. *)
Definition ofScaled (neg : bool) (m : Z) (base : Z) (e : Z) : t :=
  match m with
  | Zpos p =>
      if 0 <=? e then
        ofRatio neg (Pos.mul p (Z.to_pos (base ^ e))) 1
      else ofRatio neg p (Z.to_pos (base ^ (- e)))
  | _ => S754_zero neg
  end.

Definition isInf (x : t) : bool :=
  match x with S754_infinity _ => true | _ => false end.

Definition zero : t := S754_zero false.

End float64.

(** ** Package [strconv] *)

Module strconv.

Inductive ErrKind := ErrSyntax | ErrRange.

(** [*strconv.NumError]. *)
Record NumError := { Func : string; Num : string; Err : ErrKind }.

Definition isDigit (c : ascii) : bool :=
  (48 <=? strings.code c) && (strings.code c <=? 57).

Definition digitVal (c : ascii) : Z := strings.code c - 48.

Definition maxUint64 : Z := 2 ^ 64 - 1.

(** The digit loop of [ParseUint(s, 10, 64)] on the accumulator [n]; the
    unsigned 64-bit additions wrap around.  [inl] is the error kind. *)
Fixpoint parseUintLoop (s : string) (n : Z) : ErrKind + Z :=
  match s with
  | EmptyString => inr n
  | String c r =>
      if isDigit c then
        if maxUint64 / 10 + 1 <=? n then inl ErrRange
        else
          let n10 := n * 10 in
          let n1 := (n10 + digitVal c) mod 2 ^ 64 in
          if (n1 <? n10) || (maxUint64 <? n1) then inl ErrRange
          else parseUintLoop r n1
      else inl ErrSyntax
  end.

(** [ParseUint(s, 10, 0)]: the value and the error kind, if any. *)
Definition ParseUint (s : string) : Z * option ErrKind :=
  match s with
  | EmptyString => (0, Some ErrSyntax)
  | _ =>
      match parseUintLoop s 0 with
      | inl ErrSyntax => (0, Some ErrSyntax)
      | inl ErrRange => (maxUint64, Some ErrRange)
      | inr n => (n, None)
      end
  end.

Definition numError (fn num : string) (k : ErrKind) : NumError :=
  {| Func := fn; Num := num; Err := k |}.

(** [strconv.ParseInt(s, 10, 0)] with 64-bit [int]. *)
Definition ParseInt (s0 : string) : Z * option NumError :=
  match s0 with
  | EmptyString => (0, Some (numError "ParseInt" s0 ErrSyntax))
  | String c r =>
      let neg := Ascii.eqb c "-" in
      let s := if Ascii.eqb c "+" || neg then r else s0 in
      let '(un, err) := ParseUint s in
      match err with
      | Some ErrSyntax => (0, Some (numError "ParseInt" s0 ErrSyntax))
      | _ =>
          let cutoff := 2 ^ 63 in
          if negb neg && (cutoff <=? un) then
            (cutoff - 1, Some (numError "ParseInt" s0 ErrRange))
          else if neg && (cutoff <? un) then
            (- cutoff, Some (numError "ParseInt" s0 ErrRange))
          else (if neg then - un else un, None)
      end
  end.

(** *** [ParseFloat] *)

(** [lower(c)] of [strconv]: the byte with bit 5 set. *)
Definition lowerBit (c : ascii) : Z := Z.lor (strings.code c) 32.

Definition isHexLetter (c : ascii) : bool :=
  (97 <=? lowerBit c) && (lowerBit c <=? 102).

(** [commonPrefixLenIgnoreCase(s, prefix)], for a lower-case [prefix]. *)
Fixpoint commonPrefixLenIgnoreCase (s prefix : string) : nat :=
  match s, prefix with
  | String c r, String p q =>
      if Ascii.eqb (strings.lower c) p
      then S (commonPrefixLenIgnoreCase r q) else O
  | _, _ => O
  end.

(** [special(s)]: the value and the number of bytes read, when [s] begins
    with an infinity or a NaN. *)
Definition special (s : string) : option (float64.t * nat) :=
  let inf (sign : bool) (nsign : nat) (r : string) :=
    let n := commonPrefixLenIgnoreCase r "infinity" in
    let n := if (3 <? n)%nat && (n <? 8)%nat then 3%nat else n in
    if (n =? 3)%nat || (n =? 8)%nat
    then Some (S754_infinity sign, (nsign + n)%nat) else None in
  match s with
  | EmptyString => None
  | String c r =>
      if Ascii.eqb c "+" then inf false 1%nat r
      else if Ascii.eqb c "-" then inf true 1%nat r
      else if Ascii.eqb c "i" || Ascii.eqb c "I" then inf false 0%nat s
      else if Ascii.eqb c "n" || Ascii.eqb c "N" then
        if (commonPrefixLenIgnoreCase s "nan" =? 3)%nat
        then Some (S754_nan, 3%nat) else None
      else None
  end.

(** What the digit loop of [readFloat] has seen: [digits] is the number
    written by all the digits read, [frac] how many of them follow the
    point.  (Go keeps the first 19 digits, a truncation flag and the place of
    the point, and converts from the full text when the flag matters: it
    returns the correctly rounded value of the same number.) *)
Record mantissa := {
  sawdot : bool;
  sawdigits : bool;
  underscores : bool;
  digits : Z;
  frac : Z
}.

Definition addDigit (base d : Z) (m : mantissa) : mantissa :=
  {| sawdot := sawdot m; sawdigits := true; underscores := underscores m;
     digits := digits m * base + d;
     frac := if sawdot m then frac m + 1 else frac m |}.

Fixpoint digitLoop (hex : bool) (s : string) (m : mantissa) : mantissa * string :=
  match s with
  | EmptyString => (m, s)
  | String c r =>
      if Ascii.eqb c "_" then
        digitLoop hex r {| sawdot := sawdot m; sawdigits := sawdigits m;
                           underscores := true; digits := digits m; frac := frac m |}
      else if Ascii.eqb c "." then
        if sawdot m then (m, s)
        else digitLoop hex r {| sawdot := true; sawdigits := sawdigits m;
                                underscores := underscores m;
                                digits := digits m; frac := frac m |}
      else if isDigit c then
        digitLoop hex r (addDigit (if hex then 16 else 10) (digitVal c) m)
      else if hex && isHexLetter c then
        digitLoop hex r (addDigit 16 (lowerBit c - 97 + 10) m)
      else (m, s)
  end.

(** The digits of the exponent: [e] stops growing at 10000. *)
Fixpoint expLoop (s : string) (e : Z) (us : bool) : Z * bool * string :=
  match s with
  | EmptyString => (e, us, s)
  | String c r =>
      if Ascii.eqb c "_" then expLoop r e true
      else if isDigit c then
        expLoop r (if e <? 10000 then e * 10 + digitVal c else e) us
      else (e, us, s)
  end.

(** The optional exponent of [readFloat]: the signed exponent, whether an
    underscore was read, and the rest; [None] when the text is malformed. *)
Definition exponent (hex : bool) (s : string) : option (Z * bool * string) :=
  match s with
  | String c r =>
      if lowerBit c =? (if hex then 112 else 101) then
        match r with
        | EmptyString => None
        | String c2 r2 =>
            let '(esign, r') :=
              if Ascii.eqb c2 "+" then (1, r2)
              else if Ascii.eqb c2 "-" then (-1, r2) else (1, r) in
            match r' with
            | EmptyString => None
            | String d _ =>
                if isDigit d then
                  let '(e, us, rest) := expLoop r' 0 false in
                  Some (e * esign, us, rest)
                else None
            end
        end
      else if hex then None else Some (0, false, s)
  | EmptyString => if hex then None else Some (0, false, s)
  end.

(** [underscoreOK(s)]: [saw] is the kind of the last byte read, [0] a
    digit, [1] an underscore, [2] anything else, [3] nothing yet. *)
Fixpoint underscoreLoop (hex : bool) (s : string) (saw : nat) : bool :=
  match s with
  | EmptyString => negb (saw =? 1)%nat
  | String c r =>
      if isDigit c || (hex && isHexLetter c) then underscoreLoop hex r 0
      else if Ascii.eqb c "_" then
        if (saw =? 0)%nat then underscoreLoop hex r 1 else false
      else if (saw =? 1)%nat then false
      else underscoreLoop hex r 2
  end.

Definition underscoreOK (s : string) : bool :=
  let s :=
    match s with
    | String c r => if Ascii.eqb c "-" || Ascii.eqb c "+" then r else s
    | _ => s
    end in
  match s with
  | String c1 (String c2 r) =>
      if Ascii.eqb c1 "0" &&
         ((lowerBit c2 =? 98) || (lowerBit c2 =? 111) || (lowerBit c2 =? 120))
      then underscoreLoop (lowerBit c2 =? 120) r 0
      else underscoreLoop false s 3
  | _ => underscoreLoop false s 3
  end.

(** [readFloat(s)] when it reads the whole of [s]: the sign, whether the
    number is hexadecimal, the number written by its digits and its
    exponent, of ten or of two. *)
Definition readFloat (s : string) : option (bool * bool * Z * Z) :=
  match s with
  | EmptyString => None
  | String c r =>
      let neg := Ascii.eqb c "-" in
      let s1 := if Ascii.eqb c "+" || neg then r else s in
      let '(hex, s2) :=
        match s1 with
        | String c1 (String c2 (String c3 r3)) =>
            if Ascii.eqb c1 "0" && (lowerBit c2 =? 120)
            then (true, String c3 r3) else (false, s1)
        | _ => (false, s1)
        end in
      let '(m, s3) :=
        digitLoop hex s2 {| sawdot := false; sawdigits := false;
                            underscores := false; digits := 0; frac := 0 |} in
      if negb (sawdigits m) then None
      else
        match exponent hex s3 with
        | None => None
        | Some (e, us, rest) =>
            if (underscores m || us) && negb (underscoreOK s) then None
            else
              match rest with
              | EmptyString =>
                  Some (neg, hex, digits m,
                        (if hex then e - 4 * frac m else e - frac m))
              | _ => None
              end
        end
  end.

(** [strconv.ParseFloat(s, 64)]: the value, and the error kind if any.  A
    value too large for [float64] is an infinity with [ErrRange]. *)
Definition ParseFloat (s : string) : float64.t * option NumError :=
  match special s with
  | Some (v, n) =>
      if (n =? String.length s)%nat then (v, None)
      else (float64.zero, Some (numError "ParseFloat" s ErrSyntax))
  | None =>
      match readFloat s with
      | None => (float64.zero, Some (numError "ParseFloat" s ErrSyntax))
      | Some (neg, hex, m, e) =>
          let v := float64.ofScaled neg m (if hex then 2 else 10) e in
          (v, if float64.isInf v
              then Some (numError "ParseFloat" s ErrRange) else None)
      end
  end.

End strconv.

(** ** Values of a result row *)

(** A [driver.Value] of a row: [NULL], bytes or text, or an integer. *)
Inductive Value :=
| VNull
| VBytes (s : string)
| VInt (n : Z).

(** ** Errors and early returns *)

(** The [error] values of the modelled code.  The [Errorf] constructors stand
    for the messages built by [fmt.Errorf]:
    - [ErrGtidTooLittle item]: "can not parse gtid: %s, transaction item is too little";
    - [ErrGtidCutByDash item]: "can not part gtid: %s, cut by '-' more than 2 item";
    - [ErrParseInt64 text cause]: "parse %s to int64 failed with err: %+v";
    - [ErrSplitNotEnough text]: "split %s by `.` item not enough";
    - [ErrInvalidColumns n]: "invalid number of columns: %q";
    - [ErrScanArity cols dests]: "sql: expected %d destination arguments in
      Scan, not %d";
    - [ErrScanColumn i v]: "sql: Scan error on column index %d, ...", the
      value [v] cannot be stored in the destination;
    - [ErrSql msg]: any other error of [database/sql] or of the driver. *)
Inductive error :=
| ErrNum (e : strconv.NumError)
| ErrGtidTooLittle (item : string)
| ErrGtidCutByDash (item : string)
| ErrParseInt64 (text : string) (cause : strconv.NumError)
| ErrSplitNotEnough (text : string)
| ErrInvalidColumns (n : nat)
| ErrScanArity (cols dests : nat)
| ErrScanColumn (i : nat) (v : Value)
| ErrSql (msg : string).

(** A computation inside a Go function body: it goes on with a value, leaves
    the function by [return ..., err], or panics. *)
Inductive go (A : Type) : Type :=
| Val (a : A)
| Raise (e : error)
| Crash.
Arguments Val {A} a.
Arguments Raise {A} e.
Arguments Crash {A}.

Definition andThen {A B : Type} (m : go A) (k : A -> go B) : go B :=
  match m with
  | Val a => k a
  | Raise e => Raise e
  | Crash => Crash
  end.

Notation "'do' x <- m ; k" := (andThen m (fun x => k))
  (at level 10, x name, m at level 100, k at level 200).

(** [xs[i]] on a Go slice: an index out of range panics. *)
Definition at_index {A : Type} (xs : list A) (i : nat) : go A :=
  match nth_error xs i with
  | Some x => Val x
  | None => Crash
  end.

(** ** [collector.go]: the transaction-set parser *)

Record TransactionDetail := { Start : Z; End : Z }.

Record GlobalTransactionIdentifier := {
  ServerId : string;
  FirstTransaction : Z;
  LastTransaction : Z;
  Transactions : list TransactionDetail
}.

(** The body of the loop [for i := 1; i < len(ss); i++] at [ss[i] = part]:
    [t] and [g] are the variables it updates. *)
Definition rangeBody (item part : string)
    (st : TransactionDetail * GlobalTransactionIdentifier)
  : go (TransactionDetail * GlobalTransactionIdentifier) :=
  let '(t, g) := st in
  let sss := strings.Split part "-" in
  if (2 <? List.length sss)%nat then Raise (ErrGtidCutByDash item)
  else
    do s0 <- at_index sss 0;
    match strconv.ParseInt s0 with
    | (_, Some err) => Raise (ErrParseInt64 s0 err)
    | (start, None) =>
        let t := {| Start := start; End := End t |} in
        do t <- (if (List.length sss =? 1)%nat
                 then Val {| Start := Start t; End := Start t |}
                 else
                   do s1 <- at_index sss 1;
                   match strconv.ParseInt s1 with
                   | (_, Some err) => Raise (ErrParseInt64 s0 err)
                   | (e, None) => Val {| Start := Start t; End := e |}
                   end);
        Val (t, {| ServerId := ServerId g;
                   FirstTransaction := FirstTransaction g;
                   LastTransaction := End t;
                   Transactions := (Transactions g ++ [t])%list |})
    end.

Fixpoint rangeLoop (item : string) (parts : list string)
    (st : TransactionDetail * GlobalTransactionIdentifier)
  : go (TransactionDetail * GlobalTransactionIdentifier) :=
  match parts with
  | [] => Val st
  | part :: rest => do st' <- rangeBody item part st; rangeLoop item rest st'
  end.

(** The body of the loop [for _, item := range gtidItems]. *)
Definition itemBody (item0 : string) (res : list GlobalTransactionIdentifier)
  : go (list GlobalTransactionIdentifier) :=
  let item := strings.TrimSpace item0 in
  let g := {| ServerId := ""; FirstTransaction := 0; LastTransaction := 0;
              Transactions := [] |} in
  let ss := strings.Split item ":" in
  if (List.length ss <? 2)%nat then Raise (ErrGtidTooLittle item)
  else
    do sid <- at_index ss 0;
    let g := {| ServerId := sid; FirstTransaction := 0; LastTransaction := 0;
                Transactions := [] |} in
    let t := {| Start := 0; End := 0 |} in
    do st <- rangeLoop item (skipn 1 ss) (t, g);
    let g := snd st in
    do first <- at_index (Transactions g) 0;
    Val (res ++ [ {| ServerId := ServerId g;
                     FirstTransaction := Start first;
                     LastTransaction := LastTransaction g;
                     Transactions := Transactions g |} ])%list.

Fixpoint itemLoop (items : list string) (res : list GlobalTransactionIdentifier)
  : go (list GlobalTransactionIdentifier) :=
  match items with
  | [] => Val res
  | item :: rest => do res' <- itemBody item res; itemLoop rest res'
  end.

(** [ParseGTID]: the two results of the Go function, a [nil] slice being the
    empty list. *)
Definition ParseGTID (s : string)
  : run (list GlobalTransactionIdentifier * option error) :=
  match itemLoop (strings.Split s ",") [] with
  | Val res => Return (res, None)
  | Raise e => Return ([], Some e)
  | Crash => Panic
  end.

Definition td (a b : Z) : TransactionDetail := {| Start := a; End := b |}.


(** ** Package [time]: parsing a layout *)

Module time.

Definition isDigit := strconv.isDigit.
Definition digitVal := strconv.digitVal.

(** [getnum(s, fixed)]: a number of one or two digits, of two when [fixed]. *)
Definition getnum (s : string) (fixed : bool) : option (Z * string) :=
  match s with
  | String c1 r1 =>
      if isDigit c1 then
        match r1 with
        | String c2 r2 =>
            if isDigit c2 then Some (digitVal c1 * 10 + digitVal c2, r2)
            else if fixed then None else Some (digitVal c1, r1)
        | EmptyString => if fixed then None else Some (digitVal c1, r1)
        end
      else None
  | EmptyString => None
  end.

Fixpoint cutspace (s : string) : string :=
  match s with
  | String c r => if Ascii.eqb c " " then cutspace r else s
  | EmptyString => s
  end.

(** [skip(value, prefix)] for a one-byte [prefix]: a space of the layout
    stands for any run of spaces of the value, any other byte for itself. *)
Definition skip (value : string) (prefix : ascii) : option string :=
  if Ascii.eqb prefix " " then
    match value with
    | String c _ => if Ascii.eqb c " " then Some (cutspace value) else None
    | EmptyString => Some value
    end
  else
    match value with
    | String c r => if Ascii.eqb c prefix then Some r else None
    | EmptyString => None
    end.

(** The chunk [2006]: four digits. *)
Definition longYear (value : string) : option (Z * string) :=
  match value with
  | String c1 (String c2 (String c3 (String c4 r))) =>
      if isDigit c1 && isDigit c2 && isDigit c3 && isDigit c4 then
        Some (((digitVal c1 * 10 + digitVal c2) * 10 + digitVal c3) * 10
              + digitVal c4, r)
      else None
  | _ => None
  end.

(** A fraction of a second in the value that the layout does not mention:
    a period (or, from Go 1.17 on, a comma) followed by digits, which is read
    and does not count in the seconds since the epoch. *)
Fixpoint dropDigits (s : string) : string :=
  match s with
  | String c r => if isDigit c then dropDigits r else s
  | EmptyString => s
  end.

Definition fraction (value : string) : string :=
  match value with
  | String c1 (String c2 r) =>
      if (Ascii.eqb c1 "." || Ascii.eqb c1 ",") && isDigit c2
      then dropDigits r else value
  | _ => value
  end.

Definition isLeap (year : Z) : bool :=
  (year mod 4 =? 0) && (negb (year mod 100 =? 0) || (year mod 400 =? 0)).

Definition daysBefore : list Z :=
  [0; 31; 59; 90; 120; 151; 181; 212; 243; 273; 304; 334; 365].

Definition daysIn (month year : Z) : Z :=
  if (month =? 2) && isLeap year then 29
  else nth (Z.to_nat month) daysBefore 0 - nth (Z.to_nat (month - 1)) daysBefore 0.

Definition absoluteZeroYear : Z := -292277022399.
Definition secondsPerDay : Z := 86400.
Definition unixToInternal : Z :=
  (1969 * 365 + 1969 / 4 - 1969 / 100 + 1969 / 400) * secondsPerDay.
Definition absoluteToInternal : Z := -9223371966579724800.

(** [daysSinceEpoch(year)]: the days from the absolute epoch to the start
    of [year], by cycles of 400, 100 and 4 years. *)
Definition daysSinceEpoch (year : Z) : Z :=
  let y := year - absoluteZeroYear in
  let n := y / 400 in
  let y := y - 400 * n in
  let d := 146097 * n in
  let n := y / 100 in
  let y := y - 100 * n in
  let d := d + 36524 * n in
  let n := y / 4 in
  let y := y - 4 * n in
  let d := d + 1461 * n in
  d + 365 * y.

Definition int64 (x : Z) : Z := (x + 2 ^ 63) mod 2 ^ 64 - 2 ^ 63.

(** [Date(year, month, day, hour, min, sec, 0, UTC).Unix()], for fields in
    range; the conversion of the unsigned count of seconds to [int64] and
    the addition wrap around. *)
Definition unixDate (year month day hour min sec : Z) : Z :=
  let d := daysSinceEpoch year in
  let d := d + nth (Z.to_nat (month - 1)) daysBefore 0 in
  let d := if isLeap year && (3 <=? month) then d + 1 else d in
  let d := d + (day - 1) in
  let abs := (d * secondsPerDay + (hour * 3600 + min * 60 + sec)) mod 2 ^ 64 in
  int64 (int64 abs + (absoluteToInternal + - unixToInternal)).

Definition guard (b : bool) : option unit := if b then Some tt else None.

Notation "'let?' x := m 'in' k" :=
  (match m with Some x => k | None => None end)
  (at level 10, x pattern, m at level 100, k at level 200).

(** [time.Parse("2006-01-02 15:04:05", value)]: the seconds since the Unix
    epoch of the time read, in UTC; [None] for an error. *)
Definition Parse_2006_01_02_15_04_05 (value : string) : option Z :=
  let? (year, value) := longYear value in
  let? value := skip value "-" in
  let? (month, value) := getnum value true in
  let? _ := guard ((0 <? month) && (month <=? 12)) in
  let? value := skip value "-" in
  let? (day, value) := getnum value true in
  let? value := skip value " " in
  let? (hour, value) := getnum value false in
  let? _ := guard (hour <? 24) in
  let? value := skip value ":" in
  let? (min, value) := getnum value true in
  let? _ := guard (min <? 60) in
  let? value := skip value ":" in
  let? (sec, value) := getnum value true in
  let? _ := guard (sec <? 60) in
  let value := fraction value in
  match value with
  | EmptyString =>
      let? _ := guard ((1 <=? day) && (day <=? daysIn month year)) in
      Some (unixDate year month day hour min sec)
  | _ => None
  end.

Definition shortMonthNames : list string :=
  ["Jan"; "Feb"; "Mar"; "Apr"; "May"; "Jun";
   "Jul"; "Aug"; "Sep"; "Oct"; "Nov"; "Dec"].

(** [match(s1, s2)] on the bytes the two strings share: equal up to the
    case of letters. *)
Definition matchByte (c1 c2 : ascii) : bool :=
  Ascii.eqb c1 c2 ||
  (let a := Z.lor (strings.code c1) 32 in
   let b := Z.lor (strings.code c2) 32 in
   (a =? b) && (97 <=? a) && (a <=? 122)).

(** [s] begins with [v] up to case: the rest of [s]. *)
Fixpoint matchPrefix (s v : string) : option string :=
  match v with
  | EmptyString => Some s
  | String cv rv =>
      match s with
      | String cs rs => if matchByte cs cv then matchPrefix rs rv else None
      | EmptyString => None
      end
  end.

(** [lookup(tab, val)]: the index of the first name [val] begins with. *)
Fixpoint lookup (tab : list string) (val : string) (i : nat) : option (nat * string) :=
  match tab with
  | [] => None
  | v :: tab' =>
      match matchPrefix val v with
      | Some rest => Some (i, rest)
      | None => lookup tab' val (S i)
      end
  end.

Section Layout_Jan.

(** What [time.Parse] does with the layout ["Jan 02 15:04:05 2006 MST"]
    once the month name is read: the remaining chunks, and the offset of
    the zone abbreviation, which it looks up in the time zone data of the
    host. *)
Variable afterMonth : nat -> string -> option Z.

(** [time.Parse("Jan 02 15:04:05 2006 MST", value)]. *)
Definition Parse_Jan_02_15_04_05_2006_MST (value : string) : option Z :=
  let? (month, value) := lookup shortMonthNames value 0 in
  afterMonth month value.

End Layout_Jan.

End time.

(** ** Package [regexp]: the expression [logRE] *)

Module regexp.

Inductive class := AnyButNewline | Byte (c : ascii) | Digit.

Definition inClass (k : class) (c : ascii) : bool :=
  match k with
  | AnyButNewline => negb (strings.code c =? 10)
  | Byte b => Ascii.eqb c b
  | Digit => strconv.isDigit c
  end.

(** One class, once or one or more times. *)
Inductive item := One (k : class) | Plus (k : class).

(** [s], up to its end, is matched by the sequence [items]. *)
Fixpoint matchToEnd (s : string) (items : list item) : bool :=
  match s with
  | EmptyString => match items with [] => true | _ => false end
  | String c r =>
      match items with
      | [] => false
      | One k :: rest => inClass k c && matchToEnd r rest
      | Plus k :: rest =>
          inClass k c && (matchToEnd r (Plus k :: rest) || matchToEnd r rest)
      end
  end.

(** [re.Find(s)] for an expression that ends in [$]: the match starts
    at the leftmost place it can and reaches the end of [s]; [None] is the
    [nil] of Go. *)
Fixpoint Find (items : list item) (s : string) : option string :=
  if matchToEnd s items then Some s
  else match s with
       | EmptyString => None
       | String _ r => Find items r
       end.

End regexp.

(** [logRE = regexp.MustCompile(`.+\.(\d+)$`)]. *)
Definition logRE : list regexp.item :=
  [regexp.Plus regexp.AnyButNewline; regexp.One (regexp.Byte ".");
   regexp.Plus regexp.Digit].

(** ** [collector.go]: the status normalizer *)

Section ParseStatus.

(** [strings.Map(unicode.ToLower, s)], which [strings.ToLower] calls on a
    string with a byte outside ASCII: it depends on the Unicode tables. *)
Variable unicodeToLower : string -> string.

Variable afterMonth : nat -> string -> option Z.

Definition ToLower (s : string) : string :=
  if strings.allBytes strings.isASCII s
  then strings.mapBytes strings.lower s
  else unicodeToLower s.

Definition oneOf (s : string) (l : list string) : bool :=
  existsb (String.eqb s) l.

Definition isNil {A : Type} (e : option A) : bool :=
  match e with None => true | Some _ => false end.

Definition parseStatus (data : string) : float64.t * bool :=
  let dataString := ToLower data in
  if oneOf dataString ["yes"; "on"] then (float64.ofInt 1, true)
  else if oneOf dataString ["no"; "off"; "disabled"] then (float64.ofInt 0, true)
  else if oneOf dataString ["connecting"] then (float64.ofInt 0, true)
  else if oneOf dataString ["primary"] then (float64.ofInt 1, true)
  else if oneOf dataString ["non-primary"; "disconnected"] then (float64.ofInt 0, true)
  else
    match time.Parse_Jan_02_15_04_05_2006_MST afterMonth data with
    | Some ts => (float64.ofInt ts, true)
    | None =>
        match time.Parse_2006_01_02_15_04_05 data with
        | Some ts => (float64.ofInt ts, true)
        | None =>
            match regexp.Find logRE data with
            | Some logNum =>
                let '(value, err) := strconv.ParseFloat logNum in
                (value, isNil err)
            | None =>
                let '(value, err) := strconv.ParseFloat data in
                (value, isNil err)
            end
        end
    end.

End ParseStatus.

(** [parsePrivilege]. *)
Definition parsePrivilege (data : string) : float64.t * bool :=
  if String.eqb data "Y" then (float64.ofInt 1, true)
  else if String.eqb data "N" then (float64.ofInt 0, true)
  else (float64.ofInt (-1), false).

(** ** Package [unicode/utf8] *)

Module utf8.

Definition inRange (lo hi : Z) (c : ascii) : bool :=
  (lo <=? strings.code c) && (strings.code c <=? hi).

(** The table [first] with [acceptRanges]: for a leading byte, the number
    of bytes of the encoding and the range of its second byte; [None] for a
    byte that starts no encoding. *)
Definition first (c : ascii) : option (nat * Z * Z) :=
  let n := strings.code c in
  if n <? 128 then Some (1%nat, 0, 0)
  else if n <? 194 then None
  else if n <? 224 then Some (2%nat, 128, 191)
  else if n =? 224 then Some (3%nat, 160, 191)
  else if n =? 237 then Some (3%nat, 128, 159)
  else if n <? 240 then Some (3%nat, 128, 191)
  else if n =? 240 then Some (4%nat, 144, 191)
  else if n <? 244 then Some (4%nat, 128, 191)
  else if n =? 244 then Some (4%nat, 128, 143)
  else None.

(** [utf8.ValidString(s)]. *)
Fixpoint ValidString (s : string) : bool :=
  match s with
  | EmptyString => true
  | String c1 r1 =>
      match first c1 with
      | None => false
      | Some (size, lo, hi) =>
          if (size =? 1)%nat then ValidString r1
          else
            match r1 with
            | EmptyString => false
            | String c2 r2 =>
                if negb (inRange lo hi c2) then false
                else if (size =? 2)%nat then ValidString r2
                else
                  match r2 with
                  | EmptyString => false
                  | String c3 r3 =>
                      if negb (inRange 128 191 c3) then false
                      else if (size =? 3)%nat then ValidString r3
                      else
                        match r3 with
                        | EmptyString => false
                        | String c4 r4 =>
                            if negb (inRange 128 191 c4) then false
                            else ValidString r4
                        end
                  end
            end
      end
  end.

End utf8.

(** ** Package [github.com/prometheus/common/model]: names *)

Module model.

(** The bytes of a name: a letter, an underscore, a colon in a metric name,
    a digit after the first byte.  (The Go loops range over runes; a byte
    outside ASCII gives a rune that is none of these.) *)
Definition nameByte (colon atStart : bool) (c : ascii) : bool :=
  let n := strings.code c in
  ((97 <=? n) && (n <=? 122)) || ((65 <=? n) && (n <=? 90)) || (n =? 95) ||
  (colon && (n =? 58)) || ((48 <=? n) && (n <=? 57) && negb atStart).

Fixpoint nameBytes (colon atStart : bool) (s : string) : bool :=
  match s with
  | EmptyString => true
  | String c r => nameByte colon atStart c && nameBytes colon false r
  end.

(** [model.IsValidMetricName]. *)
Definition IsValidMetricName (n : string) : bool :=
  match n with
  | EmptyString => false
  | _ => nameBytes true true n
  end.

(** [model.LabelName.IsValid]. *)
Definition LabelName_IsValid (ln : string) : bool :=
  match ln with
  | EmptyString => false
  | _ => nameBytes false true ln
  end.

End model.

(** ** The two collaborators: query executor and sample sink *)

(** [*sql.Rows]: the column names (or the error of [Columns()]) and the rows
    that [Next()] delivers before it returns false. *)
Record Rows := {
  Columns : error + list string;
  Data : list (list Value)
}.

(** [db.QueryContext(ctx, query)], as a function of the query texts already
    executed during the call and of the text: an error, or the rows. *)
Definition DB : Type := list string -> string -> error + Rows.

(** The destinations of [Scan]. *)
Definition scanRawBytes (v : Value) : string :=
  match v with
  | VNull => ""
  | VBytes s => s
  | VInt n => NilZero.string_of_int (Z.to_int n)
  end.

Definition scanString (i : nat) (v : Value) : go string :=
  match v with
  | VNull => Raise (ErrScanColumn i v)
  | VBytes s => Val s
  | VInt n => Val (NilZero.string_of_int (Z.to_int n))
  end.

Definition scanInt64 (i : nat) (v : Value) : go Z :=
  match v with
  | VNull => Raise (ErrScanColumn i v)
  | VBytes s =>
      match strconv.ParseInt s with
      | (n, None) => Val n
      | (_, Some _) => Raise (ErrScanColumn i v)
      end
  | VInt n => Val n
  end.

Inductive ValueType := CounterValue | GaugeValue | UntypedValue.

(** The error that [NewDesc] records in the descriptor. *)
Inductive DescError := InvalidMetricName | InvalidLabelName | DuplicateLabelNames.

(** [*prometheus.Desc]. *)
Record Desc := {
  fqName : string;
  help : string;
  variableLabels : list string;
  descErr : option DescError
}.

(** A sample sent on the channel [ch]. *)
Record Metric := {
  desc : Desc;
  valueType : ValueType;
  value : float64.t;
  labelValues : list string
}.

Definition isEmpty (s : string) : bool :=
  match s with EmptyString => true | _ => false end.

(** [prometheus.BuildFQName]. *)
Definition BuildFQName (namespace subsystem name : string) : string :=
  if isEmpty name then ""
  else if negb (isEmpty namespace) && negb (isEmpty subsystem)
  then namespace ++ "_" ++ subsystem ++ "_" ++ name
  else if negb (isEmpty namespace) then namespace ++ "_" ++ name
  else if negb (isEmpty subsystem) then subsystem ++ "_" ++ name
  else name.

(** [checkLabelName]: a valid label name that does not begin with [__]. *)
Definition checkLabelName (l : string) : bool :=
  model.LabelName_IsValid l &&
  negb (match l with
        | String c1 (String c2 _) => Ascii.eqb c1 "_" && Ascii.eqb c2 "_"
        | _ => false
        end).

(** No name stands twice in [l]. *)
Fixpoint distinct (l : list string) : bool :=
  match l with
  | [] => true
  | x :: rest => negb (existsb (String.eqb x) rest) && distinct rest
  end.

(** [prometheus.NewDesc(fqName, help, variableLabels, nil)]: the descriptor
    keeps the error of a name that is no metric name, of a label name that is
    none, or of a label name given twice. *)
Definition NewDesc (fq hlp : string) (labels : list string) : Desc :=
  {| fqName := fq; help := hlp; variableLabels := labels;
     descErr :=
       if negb (model.IsValidMetricName fq) then Some InvalidMetricName
       else if negb (forallb checkLabelName labels) then Some InvalidLabelName
       else if negb (distinct labels) then Some DuplicateLabelNames
       else None |}.

(** [validateLabelValues(vals, expectedNumberOfValues)] is [nil]. *)
Definition validateLabelValues (vals : list string) (expected : nat) : bool :=
  (List.length vals =? expected)%nat && forallb utf8.ValidString vals.

(** The sample that [NewConstMetric] builds once its checks have passed. *)
Definition constMetric (d : Desc) (vt : ValueType) (v : float64.t)
    (labels : list string) : Metric :=
  {| desc := d; valueType := vt; value := v; labelValues := labels |}.

(** [prometheus.NewConstMetric]: [None] is its error, that of the descriptor
    or that of the label values. *)
Definition NewConstMetric (d : Desc) (vt : ValueType) (v : float64.t)
    (labels : list string) : option Metric :=
  match descErr d with
  | Some _ => None
  | None =>
      if validateLabelValues labels (List.length (variableLabels d))
      then Some (constMetric d vt v labels) else None
  end.

(** [prometheus.MustNewConstMetric]: it panics on the error of
    [NewConstMetric]. *)
Definition MustNewConstMetric (d : Desc) (vt : ValueType) (v : float64.t)
    (labels : list string) : run Metric :=
  match NewConstMetric d vt v labels with
  | Some m => Return m
  | None => Panic
  end.

Definition namespace : string := "mysql".

(** How a piece of a scraper ends. *)
Inductive status :=
| Done
| Failed (e : error)
| Panicked.

(** What a call of [Scrape] does: the query texts it executes, the samples it
    sends, and how it returns. *)
Record Scraped := {
  executed : list string;
  sent : list Metric;
  returned : status
}.

(** [ch <- prometheus.MustNewConstMetric(...)]: the sample is sent unless
    building it panics. *)
Definition send (m : run Metric) : list Metric * status :=
  match m with
  | Return x => ([x], Done)
  | Panic => ([], Panicked)
  end.

(** One piece of a scraper after another: the second runs when the first
    ends without an error or a panic. *)
Definition andNext (a b : list Metric * status) : list Metric * status :=
  match a with
  | (ms, Done) => let '(ms', st) := b in ((ms ++ ms')%list, st)
  | (ms, st) => (ms, st)
  end.

(** ** [slave_status.go] *)

Definition slaveStatus : string := "slave_status".

Definition slaveStatusQueries : list string :=
  ["SHOW ALL SLAVES STATUS"; "SHOW SLAVE STATUS"].
Definition slaveStatusQuerySuffixes : list string :=
  [" NONBLOCKING"; " NOLOCK"; ""].

Fixpoint columnIndexFrom (slaveCols : list string) (colName : string) (idx : Z) : Z :=
  match slaveCols with
  | [] => -1
  | c :: rest =>
      if String.eqb c colName then idx else columnIndexFrom rest colName (idx + 1)
  end.

Definition columnIndex (slaveCols : list string) (colName : string) : Z :=
  columnIndexFrom slaveCols colName 0.

Definition columnValue (scanArgs : list string) (slaveCols : list string)
    (colName : string) : go string :=
  let columnIndex := columnIndex slaveCols colName in
  if columnIndex =? -1 then Val ""
  else at_index scanArgs (Z.to_nat columnIndex).

(** The variables [slaveStatusRows] and [err] of [Scrape], with the query
    texts executed so far. *)
Record QueryState := {
  texts : list string;
  slaveStatusRows : option Rows;
  err : option error
}.

Definition QueryContext (db : DB) (query : string) (st : QueryState) : QueryState :=
  match db (texts st) query with
  | inl e => {| texts := (texts st ++ [query])%list;
                slaveStatusRows := None; err := Some e |}
  | inr rows => {| texts := (texts st ++ [query])%list;
                   slaveStatusRows := Some rows; err := None |}
  end.

Section SlaveStatus.

Variable unicodeToLower : string -> string.
Variable afterMonth : nat -> string -> option Z.
Variable db : DB.

(** [for _, suffix := range slaveStatusQuerySuffixes]. *)
Fixpoint suffixLoop (query : string) (suffixes : list string) (st : QueryState)
  : QueryState :=
  match suffixes with
  | [] => st
  | suffix :: rest =>
      let st := QueryContext db (query ++ suffix) st in
      match err st with
      | None => st
      | Some _ => suffixLoop query rest st
      end
  end.

(** [for _, query := range slaveStatusQueries]. *)
Fixpoint queryLoop (queries : list string) (st : QueryState) : QueryState :=
  match queries with
  | [] => st
  | query :: rest =>
      let st := QueryContext db query st in
      match err st with
      | Some _ => queryLoop rest (suffixLoop query slaveStatusQuerySuffixes st)
      | None => st
      end
  end.

(** The label values of a row, in the order the samples carry them. *)
Record RowLabels := {
  masterHost : string;
  masterUUID : string;
  channelName : string;
  connectionName : string
}.

Definition rowLabelValues (l : RowLabels) : list string :=
  [masterHost l; masterUUID l; channelName l; connectionName l].

Definition rowLabelNames : list string :=
  ["master_host"; "master_uuid"; "channel_name"; "connection_name"].

(** The body of [for _, item := range GTIDs]: two samples. *)
Definition gtidMetrics (l : RowLabels) (col : string)
    (item : GlobalTransactionIdentifier) : list Metric * status :=
  andNext
    (send (MustNewConstMetric
             (NewDesc
                (BuildFQName namespace slaveStatus
                   (ToLower unicodeToLower col ++ "_start"))
                "Executed GTID from SHOW SLAVE STATUS."
                (rowLabelNames ++ ["executed_server_id"; "partition"])%list)
             GaugeValue (float64.ofInt (FirstTransaction item))
             (rowLabelValues l ++ [ServerId item; ""])%list))
    (send (MustNewConstMetric
             (NewDesc
                (BuildFQName namespace slaveStatus
                   (ToLower unicodeToLower col ++ "_end"))
                "Executed GTID from SHOW SLAVE STATUS."
                (rowLabelNames ++ ["executed_server_id"; "partition"])%list)
             GaugeValue (float64.ofInt (LastTransaction item))
             (rowLabelValues l ++ [ServerId item; ""])%list)).

(** [for _, item := range GTIDs]. *)
Fixpoint gtidLoop (l : RowLabels) (col : string)
    (items : list GlobalTransactionIdentifier) : list Metric * status :=
  match items with
  | [] => ([], Done)
  | item :: rest => andNext (gtidMetrics l col item) (gtidLoop l col rest)
  end.

(** The body of [for i, col := range slaveCols], on the bytes [raw] of
    [scanArgs[i]]: the samples sent and how the body ends. *)
Definition slaveColumn (l : RowLabels) (col raw : string) : list Metric * status :=
  if String.eqb col "Executed_Gtid_Set" then
    match ParseGTID raw with
    | Panic => ([], Panicked)
    | Return (_, Some e) => ([], Failed e)
    | Return (GTIDs, None) => gtidLoop l col GTIDs
    end
  else if String.eqb col "Master_Log_File" || String.eqb col "Relay_Master_Log_File" then
    let ss := strings.Split raw "." in
    if (List.length ss <? 2)%nat then ([], Failed (ErrSplitNotEnough raw))
    else
      match nth_error ss 1 with
      | None => ([], Panicked)
      | Some s1 =>
          match strconv.ParseFloat s1 with
          | (_, Some e) => ([], Failed (ErrNum e))
          | (value, None) =>
              send (MustNewConstMetric
                      (NewDesc
                         (BuildFQName namespace slaveStatus
                            (ToLower unicodeToLower col ++ "_num"))
                         "Receive master log file num from SHOW SLAVE STATUS."
                         rowLabelNames)
                      UntypedValue value (rowLabelValues l))
          end
      end
  else
    match parseStatus unicodeToLower afterMonth raw with
    | (value, true) =>
        send (MustNewConstMetric
                (NewDesc
                   (BuildFQName namespace slaveStatus (ToLower unicodeToLower col))
                   "Generic metric from SHOW SLAVE STATUS."
                   rowLabelNames)
                UntypedValue value (rowLabelValues l))
    | (_, false) => ([], Done)
    end.

(** [for i, col := range slaveCols], from index [i] on [cols]. *)
Fixpoint columnLoop (l : RowLabels) (scanArgs : list string) (i : nat)
    (cols : list string) : list Metric * status :=
  match cols with
  | [] => ([], Done)
  | col :: rest =>
      match nth_error scanArgs i with
      | None => ([], Panicked)
      | Some raw =>
          match slaveColumn l col raw with
          | (ms, Done) =>
              let '(ms', st) := columnLoop l scanArgs (S i) rest in
              ((ms ++ ms')%list, st)
          | (ms, st) => (ms, st)
          end
      end
  end.

(** The body of [for slaveStatusRows.Next()] on one row. *)
Definition slaveRow (slaveCols : list string) (row : list Value)
  : list Metric * status :=
  if negb (List.length slaveCols =? List.length row)%nat
  then ([], Failed (ErrScanArity (List.length row) (List.length slaveCols)))
  else
    let scanArgs := map scanRawBytes row in
    match columnValue scanArgs slaveCols "Master_UUID",
          columnValue scanArgs slaveCols "Master_Host",
          columnValue scanArgs slaveCols "Channel_Name",
          columnValue scanArgs slaveCols "Connection_name" with
    | Val uuid, Val host, Val channel, Val connection =>
        columnLoop {| masterHost := host; masterUUID := uuid;
                      channelName := channel; connectionName := connection |}
                   scanArgs 0 slaveCols
    | _, _, _, _ => ([], Panicked)
    end.

Fixpoint slaveRows (slaveCols : list string) (rows : list (list Value))
  : list Metric * status :=
  match rows with
  | [] => ([], Done)
  | row :: rest =>
      match slaveRow slaveCols row with
      | (ms, Done) =>
          let '(ms', st) := slaveRows slaveCols rest in
          ((ms ++ ms')%list, st)
      | (ms, st) => (ms, st)
      end
  end.

(** [ScrapeSlaveStatus.Scrape]. *)
Definition ScrapeSlaveStatus : Scraped :=
  let st := queryLoop slaveStatusQueries
              {| texts := []; slaveStatusRows := None; err := None |} in
  match err st with
  | Some e => {| executed := texts st; sent := []; returned := Failed e |}
  | None =>
      match slaveStatusRows st with
      | None => {| executed := texts st; sent := []; returned := Panicked |}
      | Some rows =>
          match Columns rows with
          | inl e => {| executed := texts st; sent := []; returned := Failed e |}
          | inr slaveCols =>
              let '(ms, r) := slaveRows slaveCols (Data rows) in
              {| executed := texts st; sent := ms; returned := r |}
          end
      end
  end.

End SlaveStatus.

(** ** The master-status scraper *)

Definition master : string := "master_status".
Definition masterStatusQueries : string := "SHOW MASTER STATUS".

Definition masterBinlogPos : Desc :=
  NewDesc (BuildFQName namespace master "binlog_pos")
    "Combined size of all registered binlog files." [].
Definition masterBinlogFileNum : Desc :=
  NewDesc (BuildFQName namespace master "binlog_file_num")
    "Number of now use binlog files." [].
Definition masterExecutedGtidStart : Desc :=
  NewDesc (BuildFQName namespace master "executed_gtid_start")
    "Number of now use binlog files." ["executed_server_id"; "partition"].
Definition masterExecutedGtidEnd : Desc :=
  NewDesc (BuildFQName namespace master "executed_gtid_end")
    "Number of now use binlog files." ["executed_server_id"; "partition"].

(** The variables that [Scan] fills. *)
Record MasterVars := {
  filename : string;
  position : Z;
  binlogDoDb : string;
  binlogIgnoreDb : string;
  executedGTidSet : string
}.

(** [masterStatusRow.Scan(&filename, &position, &binlogDoDb,
    &binlogIgnoreDb[, &executedGTidSet])] with [n] destinations. *)
Definition masterScan (n : nat) (row : list Value) (v : MasterVars) : go MasterVars :=
  if negb (List.length row =? n)%nat then Raise (ErrScanArity (List.length row) n)
  else
    match row with
    | a :: b :: c :: d :: rest =>
        do f <- scanString 0 a;
        do p <- scanInt64 1 b;
        do dd <- scanString 2 c;
        do ig <- scanString 3 d;
        match rest with
        | [] => Val {| filename := f; position := p; binlogDoDb := dd;
                       binlogIgnoreDb := ig; executedGTidSet := executedGTidSet v |}
        | e :: _ =>
            do g <- scanString 4 e;
            Val {| filename := f; position := p; binlogDoDb := dd;
                   binlogIgnoreDb := ig; executedGTidSet := g |}
        end
    | _ => Raise (ErrScanArity (List.length row) n)
    end.

(** [for masterStatusRow.Next()]. *)
Fixpoint masterRows (columnCount : nat) (rows : list (list Value)) (v : MasterVars)
  : go MasterVars :=
  match rows with
  | [] => Val v
  | row :: rest =>
      do v' <- (if (columnCount =? 4)%nat then masterScan 4 row v
                else if (columnCount =? 5)%nat then masterScan 5 row v
                else Raise (ErrInvalidColumns columnCount));
      masterRows columnCount rest v'
  end.

(** The body of [for _, item := range GTIDs]: two samples. *)
Definition masterGtidMetrics (item : GlobalTransactionIdentifier)
  : list Metric * status :=
  andNext
    (send (MustNewConstMetric masterExecutedGtidStart GaugeValue
             (float64.ofInt (FirstTransaction item)) [ServerId item; ""]))
    (send (MustNewConstMetric masterExecutedGtidEnd GaugeValue
             (float64.ofInt (LastTransaction item)) [ServerId item; ""])).

(** [for _, item := range GTIDs]. *)
Fixpoint masterGtidLoop (items : list GlobalTransactionIdentifier)
  : list Metric * status :=
  match items with
  | [] => ([], Done)
  | item :: rest => andNext (masterGtidMetrics item) (masterGtidLoop rest)
  end.

(** The part of [Scrape] after the rows are read: the file, then the
    transaction set. *)
Definition masterFile (v : MasterVars) : list Metric * status :=
  if negb (isEmpty (filename v)) then
    let ss := strings.Split (filename v) "." in
    if (List.length ss <? 2)%nat then ([], Failed (ErrSplitNotEnough (filename v)))
    else
      match nth_error ss 1 with
      | None => ([], Panicked)
      | Some s1 =>
          match strconv.ParseFloat s1 with
          | (_, Some e) => ([], Failed (ErrNum e))
          | (value, None) =>
              andNext
                (send (MustNewConstMetric masterBinlogFileNum GaugeValue value []))
                (send (MustNewConstMetric masterBinlogPos GaugeValue
                         (float64.ofInt (position v)) []))
          end
      end
  else ([], Done).

Definition masterGtid (v : MasterVars) : list Metric * status :=
  if negb (isEmpty (executedGTidSet v)) then
    match ParseGTID (executedGTidSet v) with
    | Panic => ([], Panicked)
    | Return (_, Some e) => ([], Failed e)
    | Return (GTIDs, None) => masterGtidLoop GTIDs
    end
  else ([], Done).

(** [ScrapeMasterStatus.Scrape]. *)
Definition ScrapeMasterStatus (db : DB) : Scraped :=
  let q := [masterStatusQueries] in
  match db [] masterStatusQueries with
  | inl e => {| executed := q; sent := []; returned := Failed e |}
  | inr masterStatusRow =>
      match Columns masterStatusRow with
      | inl e => {| executed := q; sent := []; returned := Failed e |}
      | inr columns =>
          let columnCount := List.length columns in
          match masterRows columnCount (Data masterStatusRow)
                  {| filename := ""; position := 0; binlogDoDb := "";
                     binlogIgnoreDb := ""; executedGTidSet := "" |} with
          | Crash => {| executed := q; sent := []; returned := Panicked |}
          | Raise e => {| executed := q; sent := []; returned := Failed e |}
          | Val v =>
              match masterFile v with
              | (ms, Done) =>
                  let '(ms', st) := masterGtid v in
                  {| executed := q; sent := (ms ++ ms')%list; returned := st |}
              | (ms, st) => {| executed := q; sent := ms; returned := st |}
              end
          end
      end
  end.

(** * Vocabulary of the properties *)

(** ** Texts *)

(** The byte [c] occurs in [s]. *)
Fixpoint occurs (c : ascii) (s : string) : bool :=
  match s with
  | EmptyString => false
  | String d r => Ascii.eqb d c || occurs c r
  end.


(** ** Numerals *)

(** The number a run of decimal digits writes. *)
Fixpoint numeralFrom (s : string) (acc : Z) : Z :=
  match s with
  | EmptyString => acc
  | String c r => numeralFrom r (acc * 10 + strconv.digitVal c)
  end.

Definition numeral (s : string) : Z := numeralFrom s 0.

(** [s] is a numeral: one decimal digit or more. *)
Definition isNumeral (s : string) : bool :=
  negb (isEmpty s) && strings.allBytes strconv.isDigit s.

(** [s] is a numeral, or one preceded by a sign. *)
Definition isSignedNumeral (s : string) : bool :=
  match s with
  | EmptyString => false
  | String c r => if Ascii.eqb c "+" || Ascii.eqb c "-" then isNumeral r else isNumeral s
  end.

(** ** The transaction-set parser as a function of the text *)

Fixpoint traverse {A B : Type} (f : A -> option B) (l : list A) : option (list B) :=
  match l with
  | [] => Some []
  | a :: r =>
      match f a, traverse f r with
      | Some b, Some bs => Some (b :: bs)
      | _, _ => None
      end
  end.

(** The range that a part between two colons writes. *)
Definition rangeOf (part : string) : option TransactionDetail :=
  match strings.Split part "-" with
  | [a] =>
      match strconv.ParseInt a with
      | (n, None) => Some (td n n)
      | _ => None
      end
  | [a; b] =>
      match strconv.ParseInt a, strconv.ParseInt b with
      | (n, None), (m, None) => Some (td n m)
      | _, _ => None
      end
  | _ => None
  end.

(** The set that an item between two commas writes. *)
Definition setOf (item0 : string) : option GlobalTransactionIdentifier :=
  match strings.Split (strings.TrimSpace item0) ":" with
  | sid :: part :: parts =>
      match traverse rangeOf (part :: parts) with
      | Some ds =>
          Some {| ServerId := sid;
                  FirstTransaction := Start (hd (td 0 0) ds);
                  LastTransaction := End (last ds (td 0 0));
                  Transactions := ds |}
      | None => None
      end
  | _ => None
  end.


(** The update of [g] at the end of the range loop's body. *)
Definition push (g : GlobalTransactionIdentifier) (d : TransactionDetail)
  : GlobalTransactionIdentifier :=
  {| ServerId := ServerId g; FirstTransaction := FirstTransaction g;
     LastTransaction := End d; Transactions := (Transactions g ++ [d])%list |}.


(** ** Ill-formed and ascending transaction-set texts *)

(** [s] ends with the byte [c]. *)
Fixpoint endsWith (c : ascii) (s : string) : bool :=
  match s with
  | EmptyString => false
  | String d EmptyString => Ascii.eqb d c
  | String _ r => endsWith c r
  end.

(** The parts of an item that follow its server id. *)
Definition rangeParts (item : string) : list string :=
  skipn 1 (strings.Split item ":").

(** A range with more than two parts between dashes, or with a part that is
    no number. *)
Definition badRange (part : string) : bool :=
  (2 <? List.length (strings.Split part "-"))%nat ||
  existsb (fun x => negb (isSignedNumeral x)) (strings.Split part "-").

(** A malformed token: no colon, nothing after the last colon, or a bad
    range. *)
Definition malformed (token : string) : bool :=
  let item := strings.TrimSpace token in
  negb (occurs ":" item) || endsWith ":" item || existsb badRange (rangeParts item).

(** A range [N-M] of the text with [N <= M]; a range [N] always ascends. *)
Definition rangeAscends (part : string) : bool :=
  match strings.Split part "-" with
  | [a; b] => fst (strconv.ParseInt a) <=? fst (strconv.ParseInt b)
  | _ => true
  end.

(** Every range of the text ascends. *)
Definition ascending (s : string) : bool :=
  forallb (fun token => forallb rangeAscends (rangeParts (strings.TrimSpace token)))
          (strings.Split s ",").

Definition ordered (d : TransactionDetail) : Prop := Start d <= End d.


(** ** Well-formed transaction-set texts *)

(** The text of a range: a numeral [N], or two, [N-M]. *)
Record RangeText := { lower : string; upper : option string }.

(** The text of a set: its server id and its ranges, between runs of white
    space [before] and [after], each given rune by rune. *)
Record SetText := {
  before : list string;
  server : string;
  rangeTexts : list RangeText;
  after : list string
}.

Definition writeRange (r : RangeText) : string :=
  match upper r with
  | None => lower r
  | Some m => lower r ++ String "-" m
  end.

Fixpoint writeRanges (rs : list RangeText) : string :=
  match rs with
  | [] => ""
  | r :: rest => String ":" (writeRange r ++ writeRanges rest)
  end.

Fixpoint glue (ws : list string) : string :=
  match ws with
  | [] => ""
  | w :: rest => w ++ glue rest
  end.

Definition writeSet (t : SetText) : string :=
  glue (before t) ++ (server t ++ writeRanges (rangeTexts t)) ++ glue (after t).

(** The sets, separated by commas. *)
Fixpoint writeSets (ts : list SetText) : string :=
  match ts with
  | [] => ""
  | [t] => writeSet t
  | t :: rest => writeSet t ++ String "," (writeSets rest)
  end.

(** The UTF-8 encoding of one white-space rune. *)
Definition isSpaceRune (w : string) : bool :=
  match w with
  | String c1 EmptyString => strings.asciiSpace c1
  | String c1 (String c2 EmptyString) => strings.space2 c1 c2
  | String c1 (String c2 (String c3 EmptyString)) => strings.space3 c1 c2 c3
  | _ => false
  end.

Definition grammarRange (r : RangeText) : bool :=
  isNumeral (lower r) &&
  match upper r with None => true | Some m => isNumeral m end.

(** A server id holds no comma and no colon and does not begin with white
    space. *)
Definition grammarServer (sid : string) : bool :=
  negb (occurs "," sid) && negb (occurs ":" sid) &&
  String.eqb (strings.TrimLeftSpace sid) sid.

(** A token [serverId:range(:range)*], with white space around it. *)
Definition grammarSet (t : SetText) : bool :=
  forallb isSpaceRune (before t) && forallb isSpaceRune (after t) &&
  grammarServer (server t) &&
  negb (Nat.eqb (List.length (rangeTexts t)) 0) &&
  forallb grammarRange (rangeTexts t).

(** The numerals of a set are below [2^63]: they fit [int64]. *)
Definition fitsRange (r : RangeText) : bool :=
  (numeral (lower r) <? 2 ^ 63) &&
  match upper r with None => true | Some m => numeral m <? 2 ^ 63 end.

Definition fitsSet (t : SetText) : bool := forallb fitsRange (rangeTexts t).

(** The range and the set that a text stands for. *)
Definition rangeMeaning (r : RangeText) : TransactionDetail :=
  td (numeral (lower r))
     (match upper r with None => numeral (lower r) | Some m => numeral m end).

Definition setMeaning (t : SetText) : GlobalTransactionIdentifier :=
  let ds := map rangeMeaning (rangeTexts t) in
  {| ServerId := server t;
     FirstTransaction := Start (hd (td 0 0) ds);
     LastTransaction := End (last ds (td 0 0));
     Transactions := ds |}.


(** The text of the specification's example, token by token: the second
    token follows a space. *)
Definition exampleSets : list SetText :=
  [ {| before := []; server := "A";
       rangeTexts := [ {| lower := "1"; upper := Some "3" |} ]; after := [] |};
    {| before := [" "]; server := "B";
       rangeTexts := [ {| lower := "1"; upper := Some "19" |} ]; after := [] |} ].

(** A token whose numeral is [2^63]. *)
Definition largeSets : list SetText :=
  [ {| before := []; server := "SERVERID";
       rangeTexts := [ {| lower := "9223372036854775808"; upper := None |} ];
       after := [] |} ].


(** [s] ends with a decimal digit. *)
Definition endsInDigit (s : string) : Prop :=
  exists x d, s = x ++ String d "" /\ strconv.isDigit d = true.


(** ** Keywords and timestamps *)

(** [data] is [k] up to the case of its ASCII letters. *)
Definition foldsTo (data k : string) : Prop :=
  strings.mapBytes strings.lower data = k.

Definition keywordsOne : list string := ["yes"; "on"; "primary"].
Definition keywordsZero : list string :=
  ["no"; "off"; "disabled"; "connecting"; "non-primary"; "disconnected"].

(** The decimal digit [k]. *)
Definition digit (k : Z) : ascii := ascii_of_nat (48 + Z.to_nat k).

Definition pad2 (n : Z) (rest : string) : string :=
  String (digit (n / 10)) (String (digit (n mod 10)) rest).

Definition pad4 (n : Z) (rest : string) : string :=
  String (digit (n / 1000)) (String (digit (n / 100 mod 10)) (pad2 (n mod 100) rest)).

(** The text ["YYYY-MM-DD HH:MM:SS"] of a date and a time of day. *)
Definition timestampText (Y M D h m s : Z) : string :=
  pad4 Y (String "-" (pad2 M (String "-" (pad2 D (String " "
    (pad2 h (String ":" (pad2 m (String ":" (pad2 s "")))))))))).

(** The proleptic Gregorian calendar. *)
Definition leapYear (y : Z) : bool :=
  (y mod 4 =? 0) && (negb (y mod 100 =? 0) || (y mod 400 =? 0)).

Definition monthLength (y m : Z) : Z :=
  if m =? 2 then (if leapYear y then 29 else 28)
  else if (m =? 4) || (m =? 6) || (m =? 9) || (m =? 11) then 30
  else 31.

(** The days from the first of January of year 1 to that of year [y]. *)
Definition daysBeforeYear (y : Z) : Z :=
  365 * (y - 1) + (y - 1) / 4 - (y - 1) / 100 + (y - 1) / 400.

(** The days of year [y] before its month [m]. *)
Definition daysBeforeMonth (y m : Z) : Z :=
  fold_right Z.add 0 (map (monthLength y) (map Z.of_nat (seq 1 (Z.to_nat (m - 1))))).

(** The seconds from 1970-01-01 00:00:00 UTC to the given time, UTC. *)
Definition epochSeconds (Y M D h m s : Z) : Z :=
  (daysBeforeYear Y - daysBeforeYear 1970 + daysBeforeMonth Y M + (D - 1)) * 86400
  + h * 3600 + m * 60 + s.

Definition validTimestamp (Y M D h m s : Z) : Prop :=
  0 <= Y <= 9999 /\ 1 <= M <= 12 /\ 1 <= D <= monthLength Y M /\
  0 <= h < 24 /\ 0 <= m < 60 /\ 0 <= s < 60.


(** ** Executors used as examples *)

Definition rowsOf (cols : list string) (rows : list (list Value)) : Rows :=
  {| Columns := inr cols; Data := rows |}.

(** An executor that knows one query text only. *)
Definition answers (query : string) (rows : Rows) : DB :=
  fun _ q => if String.eqb q query then inr rows else inl (ErrSql "syntax error").

(** The row of the specification's end-to-end example, the position given as
    a number or as text. *)
Definition masterColumns : list string :=
  ["File"; "Position"; "Binlog_Do_DB"; "Binlog_Ignore_DB"; "Executed_Gtid_Set"].

Definition masterExample (pos : Value) : Rows :=
  rowsOf masterColumns
    [[VBytes "binlog.000006"; pos; VBytes ""; VBytes ""; VBytes "SID:1-261530"]].

Definition masterExampleSent : list Metric :=
  [ constMetric masterBinlogFileNum GaugeValue (float64.ofInt 6) [];
    constMetric masterBinlogPos GaugeValue (float64.ofInt 49066) [];
    constMetric masterExecutedGtidStart GaugeValue (float64.ofInt 1) ["SID"; ""];
    constMetric masterExecutedGtidEnd GaugeValue (float64.ofInt 261530)
      ["SID"; ""] ].

(** A MariaDB-like server on which the first execution fails for a passing
    reason: ["SHOW ALL SLAVES STATUS"] fails once and then succeeds, the two
    suffixed texts are syntax errors, and ["SHOW SLAVE STATUS"] succeeds. *)
Definition allSlavesRows : Rows :=
  rowsOf ["Connection_name"; "Seconds_Behind_Master"] [[VBytes "east"; VBytes "7"]].

Definition slaveRowsOnly : Rows :=
  rowsOf ["Seconds_Behind_Master"] [[VBytes "9"]].

Definition retryingServer : DB :=
  fun done q =>
    if String.eqb q "SHOW ALL SLAVES STATUS" then
      if existsb (String.eqb "SHOW ALL SLAVES STATUS") done
      then inr allSlavesRows else inl (ErrSql "connection reset")
    else if String.eqb q "SHOW SLAVE STATUS" then inr slaveRowsOnly
    else inl (ErrSql "syntax error").

Definition genericSample (col : string) (v : float64.t) (labels : list string) : Metric :=
  constMetric
    (NewDesc (BuildFQName namespace slaveStatus col)
       "Generic metric from SHOW SLAVE STATUS."
       ["master_host"; "master_uuid"; "channel_name"; "connection_name"])
    UntypedValue v labels.


(** ** Labels of a row *)

(** The value of the first column called [name], or the empty string when
    no column is. *)
Fixpoint labelOf (cols vals : list string) (name : string) : string :=
  match cols, vals with
  | c :: cols', v :: vals' =>
      if String.eqb c name then v else labelOf cols' vals' name
  | _, _ => ""
  end.

(** A sample without its four row labels. *)
Definition unlabelled (m : Metric) : Desc * ValueType * float64.t * list string :=
  (desc m, valueType m, value m, skipn 4 (labelValues m)).


(** ** The log-file columns *)

Definition logFileColumns : list string := ["Master_Log_File"; "Relay_Master_Log_File"].

(** The sample of a log-file column of the slave-status scraper. *)
Definition logFileSample (labels : list string) (col : string) (v : float64.t) : Metric :=
  constMetric
    (NewDesc
       (BuildFQName namespace slaveStatus (strings.mapBytes strings.lower col ++ "_num"))
       "Receive master log file num from SHOW SLAVE STATUS."
       ["master_host"; "master_uuid"; "channel_name"; "connection_name"])
    UntypedValue v labels.

(** The two samples that the master-status scraper sends for its file. *)
Definition masterFileSamples (v : float64.t) (pos : Z) : list Metric :=
  [ constMetric masterBinlogFileNum GaugeValue v [];
    constMetric masterBinlogPos GaugeValue (float64.ofInt pos) [] ].

(** The two samples that the master-status scraper sends for an item of
    the transaction set. *)
Definition masterGtidSamples (item : GlobalTransactionIdentifier) : list Metric :=
  [ constMetric masterExecutedGtidStart GaugeValue
      (float64.ofInt (FirstTransaction item)) [ServerId item; ""];
    constMetric masterExecutedGtidEnd GaugeValue
      (float64.ofInt (LastTransaction item)) [ServerId item; ""] ].

(** ** Label values and names that the client library accepts *)

(** The four label values of a row are valid UTF-8. *)
Definition validLabels (l : RowLabels) : bool :=
  forallb utf8.ValidString (rowLabelValues l).

(** The labels that the slave-status scraper reads from [row]. *)
Definition labelsOfRow (slaveCols : list string) (row : list Value) : RowLabels :=
  {| masterHost := labelOf slaveCols (map scanRawBytes row) "Master_Host";
     masterUUID := labelOf slaveCols (map scanRawBytes row) "Master_UUID";
     channelName := labelOf slaveCols (map scanRawBytes row) "Channel_Name";
     connectionName := labelOf slaveCols (map scanRawBytes row) "Connection_name" |}.

Definition noVars : MasterVars :=
  {| filename := ""; position := 0; binlogDoDb := ""; binlogIgnoreDb := "";
     executedGTidSet := "" |}.

Definition queryStart : QueryState :=
  {| texts := []; slaveStatusRows := None; err := None |}.

(** A master whose file name is empty, and rows whose log file has three
    segments. *)
Definition emptyFileMaster : Rows :=
  rowsOf ["File"; "Position"; "Binlog_Do_DB"; "Binlog_Ignore_DB"]
    [[VBytes ""; VBytes "4"; VBytes ""; VBytes ""]].

Definition threeSegments : Rows :=
  rowsOf ["Master_Log_File"] [[VBytes "bin.5.old"]].

Definition noDotMaster : Rows :=
  rowsOf masterColumns
    [[VBytes "binlog"; VBytes "4"; VBytes ""; VBytes ""; VBytes "SID:1-5"]].


(** ** The query fallback *)

(** The error held by [err] is the one of the last execution. *)
Definition lastFailed (db : DB) (st : QueryState) : Prop :=
  exists e pre q, err st = Some e /\ texts st = (pre ++ [q])%list /\ db pre q = inl e.

(** The texts that the two loops execute when no execution succeeds. *)
Definition allTexts : list string :=
  flat_map (fun q => q :: map (append q) slaveStatusQuerySuffixes) slaveStatusQueries.


(** ** What the query loops leave behind *)

(** The variables [slaveStatusRows] and [err] hold the outcome of the last
    execution. *)
Definition lastRun (db : DB) (st : QueryState) : Prop :=
  exists pre q,
    texts st = (pre ++ [q])%list /\
    match db pre q with
    | inl e => err st = Some e /\ slaveStatusRows st = None
    | inr rows => err st = None /\ slaveStatusRows st = Some rows
    end.

(** The texts executed are the first query text, then texts of the list
    [allTexts], at most eight in all. *)
Definition boundedTexts (l : list string) : Prop :=
  hd "" l = "SHOW ALL SLAVES STATUS" /\ (List.length l <= 8)%nat /\
  forall q, In q l -> In q allTexts.

(** [Scrape] once the rows are chosen: the columns are read and the rows
    visited. *)
Definition scrapeRows (unicodeToLower : string -> string)
    (afterMonth : nat -> string -> option Z) (done : list string) (rows : Rows)
  : Scraped :=
  match Columns rows with
  | inl e => {| executed := done; sent := []; returned := Failed e |}
  | inr slaveCols =>
      {| executed := done;
         sent := fst (slaveRows unicodeToLower afterMonth slaveCols (Data rows));
         returned := snd (slaveRows unicodeToLower afterMonth slaveCols (Data rows)) |}
  end.

(** The three columns that the slave-status scraper treats on their own. *)
Definition isSpecial (col : string) : bool :=
  String.eqb col "Executed_Gtid_Set" || String.eqb col "Master_Log_File" ||
  String.eqb col "Relay_Master_Log_File".

(** The sample of the column [col] has a name that is a metric name. *)
Definition validColumn (unicodeToLower : string -> string) (col : string) : bool :=
  model.IsValidMetricName
    (BuildFQName namespace slaveStatus (ToLower unicodeToLower col)).

(** A MySQL-like server: it knows ["SHOW SLAVE STATUS"] only. *)
Definition mysqlServer (rows : Rows) : DB := answers "SHOW SLAVE STATUS" rows.

(** * Properties *)

(** ** Splitting *)

Lemma Split_not_nil : forall s sep, strings.Split s sep <> [].
Proof.
  induction s as [|c r IH]; intros sep; simpl; [discriminate|].
  destruct (Ascii.eqb c sep); [discriminate|].
  destruct (strings.Split r sep); discriminate.
Qed.

Lemma Split_length_pos : forall s sep, (1 <= List.length (strings.Split s sep))%nat.
Proof.
  intros s sep. pose proof (Split_not_nil s sep).
  destruct (strings.Split s sep); [congruence | simpl; lia].
Qed.

Lemma Split_absent : forall s sep, occurs sep s = false -> strings.Split s sep = [s].
Proof.
  induction s as [|c r IH]; intros sep H; simpl in *; [reflexivity|].
  apply orb_false_iff in H. destruct H as [H1 H2].
  rewrite H1, (IH _ H2). reflexivity.
Qed.

Lemma Split_app : forall a b sep, occurs sep a = false ->
  strings.Split (a ++ String sep b) sep = a :: strings.Split b sep.
Proof.
  induction a as [|c r IH]; intros b sep H; simpl in *.
  - rewrite Ascii.eqb_refl. reflexivity.
  - apply orb_false_iff in H. destruct H as [H1 H2].
    rewrite H1, (IH _ _ H2). reflexivity.
Qed.

Lemma occurs_app : forall c a b, occurs c (a ++ b) = occurs c a || occurs c b.
Proof.
  induction a as [|d r IH]; intros b; simpl; [reflexivity|].
  rewrite IH, orb_assoc. reflexivity.
Qed.

(** A piece of a split holds no separator. *)
Lemma Split_pieces : forall s sep p, In p (strings.Split s sep) -> occurs sep p = false.
Proof.
  induction s as [|c r IH]; intros sep p H; simpl in H.
  - destruct H as [<-|[]]. reflexivity.
  - destruct (Ascii.eqb c sep) eqn:E.
    + destruct H as [<-|H]; [reflexivity | eauto].
    + pose proof (IH sep) as IH'.
      destruct (strings.Split r sep) as [|h t].
      * destruct H as [<-|[]]. simpl. rewrite E. reflexivity.
      * destruct H as [<-|H].
        -- simpl. rewrite E. apply IH'. left; reflexivity.
        -- apply IH'. right; assumption.
Qed.

(** ** Numerals and [ParseInt] *)

Lemma digitVal_range : forall c, strconv.isDigit c = true -> 0 <= strconv.digitVal c <= 9.
Proof.
  intros c H. unfold strconv.isDigit, strconv.digitVal in *.
  apply andb_true_iff in H. destruct H as [H1 H2].
  apply Z.leb_le in H1. apply Z.leb_le in H2. lia.
Qed.

Lemma numeralFrom_ge : forall s acc,
  strings.allBytes strconv.isDigit s = true -> 0 <= acc -> acc <= numeralFrom s acc.
Proof.
  induction s as [|c r IH]; intros acc Hd Ha; simpl in *; [lia|].
  apply andb_true_iff in Hd. destruct Hd as [Hc Hr].
  pose proof (digitVal_range c Hc).
  specialize (IH (acc * 10 + strconv.digitVal c) Hr). lia.
Qed.

Lemma parseUintLoop_numeral : forall s acc,
  strings.allBytes strconv.isDigit s = true -> 0 <= acc ->
  numeralFrom s acc < 2 ^ 63 ->
  strconv.parseUintLoop s acc = inr (numeralFrom s acc).
Proof.
  induction s as [|c r IH]; intros acc Hd Ha Hb; simpl in *; [reflexivity|].
  apply andb_true_iff in Hd. destruct Hd as [Hc Hr]. rewrite Hc.
  pose proof (digitVal_range c Hc) as Hv.
  assert (Hle : acc * 10 + strconv.digitVal c <= numeralFrom r (acc * 10 + strconv.digitVal c))
    by (apply numeralFrom_ge; [assumption | lia]).
  assert (H63 : 2 ^ 63 = 9223372036854775808) by reflexivity.
  assert (H64 : 2 ^ 64 = 18446744073709551616) by reflexivity.
  unfold strconv.maxUint64. rewrite H64.
  replace ((18446744073709551616 - 1) / 10 + 1) with 1844674407370955162 by reflexivity.
  destruct (1844674407370955162 <=? acc) eqn:E1; [apply Z.leb_le in E1; lia|].
  rewrite Z.mod_small by lia.
  destruct (acc * 10 + strconv.digitVal c <? acc * 10) eqn:E2; [apply Z.ltb_lt in E2; lia|].
  destruct (18446744073709551616 - 1 <? acc * 10 + strconv.digitVal c) eqn:E3;
    [apply Z.ltb_lt in E3; lia|].
  simpl. apply IH; [assumption | lia | assumption].
Qed.

Lemma parseUintLoop_not_digits : forall s acc,
  strings.allBytes strconv.isDigit s = false ->
  exists k, strconv.parseUintLoop s acc = inl k.
Proof.
  induction s as [|c r IH]; intros acc Hd; simpl in *; [discriminate|].
  destruct (strconv.isDigit c) eqn:Hc; simpl in Hd.
  - destruct (_ <=? acc); [eexists; reflexivity|].
    destruct (_ || _); [eexists; reflexivity|]. apply IH. assumption.
  - eexists; reflexivity.
Qed.

Lemma isDigit_not_sign : forall c, strconv.isDigit c = true ->
  Ascii.eqb c "+" = false /\ Ascii.eqb c "-" = false.
Proof.
  intros c H. split; apply Ascii.eqb_neq; intros ->; discriminate H.
Qed.

(** [ParseInt] reads a numeral below [2^63] as the number it writes. *)
Lemma ParseInt_numeral : forall s,
  isNumeral s = true -> numeral s < 2 ^ 63 ->
  strconv.ParseInt s = (numeral s, None).
Proof.
  intros s Hn Hb. unfold isNumeral in Hn. apply andb_true_iff in Hn.
  destruct Hn as [Hne Hd]. destruct s as [|c r]; [discriminate|].
  assert (Hc : strconv.isDigit c = true)
    by (simpl in Hd; apply andb_true_iff in Hd; tauto).
  destruct (isDigit_not_sign c Hc) as [Hp Hm].
  unfold strconv.ParseInt. rewrite Hp, Hm. simpl orb. cbv iota.
  unfold strconv.ParseUint.
  rewrite (parseUintLoop_numeral (String c r) 0 Hd (Z.le_refl 0) Hb).
  fold (numeral (String c r)).
  destruct (2 ^ 63 <=? numeral (String c r)) eqn:E; [apply Z.leb_le in E; lia|].
  reflexivity.
Qed.

Lemma ParseUint_not_numeral : forall s,
  isNumeral s = false ->
  exists v k, strconv.ParseUint s = (v, Some k) /\
              (k = strconv.ErrRange -> v = strconv.maxUint64).
Proof.
  intros s H. unfold strconv.ParseUint. destruct s as [|c r].
  - exists 0, strconv.ErrSyntax. split; [reflexivity | discriminate].
  - unfold isNumeral in H. simpl isEmpty in H. simpl negb in H. rewrite andb_true_l in H.
    destruct (parseUintLoop_not_digits _ 0 H) as [k Hk]. rewrite Hk.
    destruct k; eexists; eexists; (split; [reflexivity|]); congruence.
Qed.

(** [ParseInt] rejects whatever is not a numeral with an optional sign. *)
Lemma ParseInt_not_numeral : forall s,
  isSignedNumeral s = false -> exists v e, strconv.ParseInt s = (v, Some e).
Proof.
  intros s H. destruct s as [|c r]; [eexists; eexists; reflexivity|].
  unfold isSignedNumeral in H. unfold strconv.ParseInt.
  set (s' := if Ascii.eqb c "+" || Ascii.eqb c "-" then r else String c r) in *.
  assert (Hs : isNumeral s' = false)
    by (subst s'; destruct (Ascii.eqb c "+" || Ascii.eqb c "-"); assumption).
  destruct (ParseUint_not_numeral s' Hs) as (v & k & Hv & Hr). rewrite Hv.
  destruct k; [eexists; eexists; reflexivity|].
  rewrite (Hr eq_refl).
  destruct (Ascii.eqb c "-"); simpl; eexists; eexists; reflexivity.
Qed.


(** ** The loops of [ParseGTID] and the text they read *)

Lemma at_index_0 : forall (A : Type) (x : A) l, at_index (x :: l) 0 = Val x.
Proof. reflexivity. Qed.

Lemma rangeBody_Some : forall item part t g d,
  rangeOf part = Some d -> rangeBody item part (t, g) = Val (d, push g d).
Proof.
  intros item part t g d H. unfold rangeOf in H. unfold rangeBody.
  destruct (strings.Split part "-") as [|a [|b [|c l]]]; try discriminate.
  - simpl. destruct (strconv.ParseInt a) as [n [e|]]; [discriminate|].
    injection H as <-. reflexivity.
  - simpl. destruct (strconv.ParseInt a) as [n [e|]]; [discriminate|].
    simpl. destruct (strconv.ParseInt b) as [m [e|]]; [discriminate|].
    injection H as <-. reflexivity.
Qed.

Lemma rangeBody_None : forall item part st,
  rangeOf part = None -> exists e, rangeBody item part st = Raise e.
Proof.
  intros item part [t g] H. unfold rangeOf in H. unfold rangeBody.
  pose proof (Split_not_nil part "-") as Hn.
  destruct (strings.Split part "-") as [|a [|b [|c l]]]; [congruence| | |].
  - simpl. destruct (strconv.ParseInt a) as [n [e|]]; [|discriminate].
    eexists; reflexivity.
  - simpl. destruct (strconv.ParseInt a) as [n [e|]]; [eexists; reflexivity|].
    simpl. destruct (strconv.ParseInt b) as [m [e|]]; [|discriminate].
    eexists; reflexivity.
  - simpl. eexists; reflexivity.
Qed.

Lemma rangeLoop_Some : forall item parts ds t g,
  traverse rangeOf parts = Some ds ->
  exists t', rangeLoop item parts (t, g) = Val (t', fold_left push ds g).
Proof.
  induction parts as [|p parts IH]; intros ds t g H; simpl in H.
  - injection H as <-. exists t. reflexivity.
  - destruct (rangeOf p) as [d|] eqn:Hp; [|discriminate].
    destruct (traverse rangeOf parts) as [ds'|] eqn:Hps; [|discriminate].
    injection H as <-. cbn [rangeLoop]. rewrite (rangeBody_Some _ _ _ _ _ Hp).
    cbn [andThen fold_left]. apply IH. reflexivity.
Qed.

Lemma rangeLoop_None : forall item parts st,
  traverse rangeOf parts = None -> exists e, rangeLoop item parts st = Raise e.
Proof.
  induction parts as [|p parts IH]; intros [t g] H; simpl in H; [discriminate|].
  cbn [rangeLoop]. destruct (rangeOf p) as [d|] eqn:Hp.
  - rewrite (rangeBody_Some _ _ _ _ _ Hp). cbn [andThen].
    destruct (traverse rangeOf parts); [discriminate|]. apply IH. reflexivity.
  - destruct (rangeBody_None item p (t, g) Hp) as [e ->]. eexists; reflexivity.
Qed.

Lemma fold_push : forall ds g,
  fold_left push ds g =
  {| ServerId := ServerId g; FirstTransaction := FirstTransaction g;
     LastTransaction := match ds with [] => LastTransaction g | _ => End (last ds (td 0 0)) end;
     Transactions := (Transactions g ++ ds)%list |}.
Proof.
  induction ds as [|d ds IH]; intros g; simpl fold_left.
  - rewrite app_nil_r. destruct g; reflexivity.
  - rewrite IH. unfold push at 1 2 3 4. simpl ServerId. simpl FirstTransaction.
    simpl Transactions. simpl LastTransaction. rewrite <- app_assoc. simpl app.
    destruct ds; reflexivity.
Qed.

Lemma itemBody_Some : forall item0 res g,
  setOf item0 = Some g -> itemBody item0 res = Val (res ++ [g])%list.
Proof.
  intros item0 res g H. unfold setOf in H. unfold itemBody.
  destruct (strings.Split (strings.TrimSpace item0) ":") as [|sid [|p ps]];
    try discriminate.
  destruct (traverse rangeOf (p :: ps)) as [ds|] eqn:Hds; [|discriminate].
  injection H as <-.
  change (List.length (sid :: p :: ps) <? 2)%nat with false. cbv iota.
  rewrite at_index_0. cbn [andThen]. simpl skipn.
  destruct (rangeLoop_Some (strings.TrimSpace item0) _ _
              {| Start := 0; End := 0 |}
              {| ServerId := sid; FirstTransaction := 0; LastTransaction := 0;
                 Transactions := [] |} Hds) as [t' ->].
  cbn [andThen]. simpl snd.
  rewrite fold_push. simpl Transactions. simpl ServerId. simpl LastTransaction.
  destruct ds as [|d ds].
  - simpl in Hds. destruct (rangeOf p); [|discriminate].
    destruct (traverse rangeOf ps); discriminate.
  - reflexivity.
Qed.

Lemma itemBody_None : forall item0 res,
  setOf item0 = None -> exists e, itemBody item0 res = Raise e.
Proof.
  intros item0 res H. unfold setOf in H. unfold itemBody.
  pose proof (Split_not_nil (strings.TrimSpace item0) ":") as Hn.
  destruct (strings.Split (strings.TrimSpace item0) ":") as [|sid [|p ps]];
    [congruence | eexists; reflexivity |].
  destruct (traverse rangeOf (p :: ps)) as [ds|] eqn:Hds; [discriminate|].
  change (List.length (sid :: p :: ps) <? 2)%nat with false. cbv iota.
  rewrite at_index_0. cbn [andThen]. simpl skipn.
  destruct (rangeLoop_None (strings.TrimSpace item0) (p :: ps)
              ({| Start := 0; End := 0 |},
               {| ServerId := sid; FirstTransaction := 0; LastTransaction := 0;
                  Transactions := [] |}) Hds) as [e ->].
  eexists; reflexivity.
Qed.

Lemma itemLoop_Some : forall items gs res,
  traverse setOf items = Some gs -> itemLoop items res = Val (res ++ gs)%list.
Proof.
  induction items as [|i items IH]; intros gs res H; simpl in H.
  - injection H as <-. rewrite app_nil_r. reflexivity.
  - destruct (setOf i) as [g|] eqn:Hi; [|discriminate].
    destruct (traverse setOf items) as [gs'|]; [|discriminate].
    injection H as <-. cbn [itemLoop]. rewrite (itemBody_Some _ _ _ Hi).
    cbn [andThen]. rewrite (IH gs' _ eq_refl), <- app_assoc. reflexivity.
Qed.

Lemma itemLoop_None : forall items res,
  traverse setOf items = None -> exists e, itemLoop items res = Raise e.
Proof.
  induction items as [|i items IH]; intros res H; simpl in H; [discriminate|].
  cbn [itemLoop]. destruct (setOf i) as [g|] eqn:Hi.
  - rewrite (itemBody_Some _ _ _ Hi). cbn [andThen].
    destruct (traverse setOf items); [discriminate|]. apply IH. reflexivity.
  - destruct (itemBody_None i res Hi) as [e ->]. eexists; reflexivity.
Qed.

(** [ParseGTID] returns the sets its items write, or an error and none. *)
Lemma ParseGTID_Some : forall s gs,
  traverse setOf (strings.Split s ",") = Some gs -> ParseGTID s = Return (gs, None).
Proof.
  intros s gs H. unfold ParseGTID. rewrite (itemLoop_Some _ _ _ H). reflexivity.
Qed.

Lemma ParseGTID_None : forall s,
  traverse setOf (strings.Split s ",") = None ->
  exists e, ParseGTID s = Return ([], Some e).
Proof.
  intros s H. unfold ParseGTID. destruct (itemLoop_None _ [] H) as [e ->].
  eexists; reflexivity.
Qed.

Lemma ParseGTID_cases : forall s,
  (exists gs, traverse setOf (strings.Split s ",") = Some gs /\
              ParseGTID s = Return (gs, None)) \/
  (traverse setOf (strings.Split s ",") = None /\
   exists e, ParseGTID s = Return ([], Some e)).
Proof.
  intros s. destruct (traverse setOf (strings.Split s ",")) as [gs|] eqn:H.
  - left. exists gs. split; [reflexivity | apply ParseGTID_Some; assumption].
  - right. split; [reflexivity | apply ParseGTID_None; assumption].
Qed.

Lemma traverse_Forall2 : forall (A B : Type) (f : A -> option B) l bs,
  traverse f l = Some bs -> Forall2 (fun a b => f a = Some b) l bs.
Proof.
  induction l as [|a l IH]; intros bs H; simpl in H.
  - injection H as <-. constructor.
  - destruct (f a) as [b|] eqn:Ha; [|discriminate].
    destruct (traverse f l) as [bs'|]; [|discriminate].
    injection H as <-. constructor; [assumption | apply IH; reflexivity].
Qed.

Lemma traverse_None : forall (A B : Type) (f : A -> option B) l,
  (exists a, In a l /\ f a = None) -> traverse f l = None.
Proof.
  induction l as [|a l IH]; intros (x & Hin & Hx); simpl in *; [contradiction|].
  destruct Hin as [->|Hin].
  - rewrite Hx. reflexivity.
  - destruct (f a); [|reflexivity]. rewrite IH; [reflexivity | eauto].
Qed.

(** ** The sets that [ParseGTID] returns *)

Lemma traverse_cons_nonempty : forall (A B : Type) (f : A -> option B) a l bs,
  traverse f (a :: l) = Some bs -> bs <> [].
Proof.
  intros A B f a l bs H. simpl in H. destruct (f a); [|discriminate].
  destruct (traverse f l); [|discriminate]. injection H as <-. discriminate.
Qed.

Lemma setOf_inv : forall item g,
  setOf item = Some g ->
  exists sid ds,
    strings.Split (strings.TrimSpace item) ":" = sid :: rangeParts (strings.TrimSpace item) /\
    traverse rangeOf (rangeParts (strings.TrimSpace item)) = Some ds /\
    ds <> [] /\
    g = {| ServerId := sid;
           FirstTransaction := Start (hd (td 0 0) ds);
           LastTransaction := End (last ds (td 0 0));
           Transactions := ds |}.
Proof.
  intros item g H. unfold setOf in H. unfold rangeParts.
  destruct (strings.Split (strings.TrimSpace item) ":") as [|sid [|p ps]];
    try discriminate.
  destruct (traverse rangeOf (p :: ps)) as [ds|] eqn:Hds; [|discriminate].
  injection H as <-. exists sid, ds. simpl skipn.
  repeat split; try assumption.
  eapply traverse_cons_nonempty; eassumption.
Qed.

Lemma ParseGTID_ok_inv : forall s res,
  ParseGTID s = Return (res, None) ->
  Forall2 (fun item g => setOf item = Some g) (strings.Split s ",") res.
Proof.
  intros s res H. destruct (ParseGTID_cases s) as [(gs & Ht & Hp)|(_ & e & Hp)].
  - rewrite Hp in H. injection H as <-. apply traverse_Forall2. assumption.
  - rewrite Hp in H. discriminate.
Qed.

Lemma ParseGTID_no_panic : forall s, ParseGTID s <> Panic.
Proof.
  intros s. destruct (ParseGTID_cases s) as [(gs & _ & ->)|(_ & e & ->)]; discriminate.
Qed.

(** C10.  Whenever [ParseGTID] succeeds, every set it returns holds at least
    one range, whose start is the set's [FirstTransaction]: the access
    [g.Transactions[0]] after the range loop is never out of range, and
    [ParseGTID] never panics. *)
Theorem ParseGTID_transactions_nonempty : forall s,
  ParseGTID s <> Panic /\
  forall res, ParseGTID s = Return (res, None) ->
    Forall (fun g => exists d ds, Transactions g = d :: ds /\
                                  FirstTransaction g = Start d) res.
Proof.
  intros s. split; [apply ParseGTID_no_panic|].
  intros res H. apply ParseGTID_ok_inv in H.
  induction H as [|item g items gs Hi _ IH]; constructor; [|assumption].
  apply setOf_inv in Hi. destruct Hi as (sid & ds & _ & _ & Hne & ->).
  destruct ds as [|d ds]; [congruence|]. exists d, ds. split; reflexivity.
Qed.

Lemma ParseGTID_transactions_nonempty_witness :
  Forall (fun g => exists d ds, Transactions g = d :: ds /\
                                FirstTransaction g = Start d)
    [ {| ServerId := "SID"; FirstTransaction := 1; LastTransaction := 261530;
         Transactions := [td 1 261530] |} ].
Proof.
  apply (proj2 (ParseGTID_transactions_nonempty "SID:1-261530")).
  reflexivity.
Defined.

(** ** Order of the bounds of a range *)

Lemma rangeOf_ordered : forall part d,
  rangeOf part = Some d -> (rangeAscends part = true <-> ordered d).
Proof.
  intros part d H. unfold rangeOf in H. unfold rangeAscends, ordered.
  destruct (strings.Split part "-") as [|a [|b [|c l]]]; try discriminate.
  - destruct (strconv.ParseInt a) as [n [e|]]; [discriminate|].
    injection H as <-. simpl. split; [lia | reflexivity].
  - destruct (strconv.ParseInt a) as [n [e|]]; [discriminate|].
    destruct (strconv.ParseInt b) as [m [e|]]; [discriminate|].
    injection H as <-. simpl. apply Z.leb_le.
Qed.

Lemma ranges_ordered : forall parts ds,
  Forall2 (fun p d => rangeOf p = Some d) parts ds ->
  (forallb rangeAscends parts = true <-> Forall ordered ds).
Proof.
  induction 1 as [|p d parts ds Hp _ IH]; simpl.
  - split; [constructor | reflexivity].
  - rewrite andb_true_iff, (rangeOf_ordered _ _ Hp), IH.
    split; [intros [? ?]; constructor; assumption | inversion 1; tauto].
Qed.

Lemma sets_ordered : forall items gs,
  Forall2 (fun item g => setOf item = Some g) items gs ->
  (forallb (fun token => forallb rangeAscends (rangeParts (strings.TrimSpace token))) items
     = true <->
   Forall (fun g => Forall ordered (Transactions g)) gs).
Proof.
  induction 1 as [|item g items gs Hi _ IH]; simpl.
  - split; [constructor | reflexivity].
  - apply setOf_inv in Hi. destruct Hi as (sid & ds & _ & Hds & _ & ->).
    apply traverse_Forall2 in Hds.
    rewrite andb_true_iff, (ranges_ordered _ _ Hds), IH. simpl Transactions.
    split; [intros [? ?]; constructor; assumption | inversion 1; tauto].
Qed.

(** C5, as the code has it.  [ParseGTID] compares no bounds: when it
    succeeds, every range it returns has [Start <= End] exactly when every
    range [N-M] of the text has [N <= M]. *)
Theorem ParseGTID_ordered_iff_ascending : forall s res,
  ParseGTID s = Return (res, None) ->
  (ascending s = true <-> Forall (fun g => Forall ordered (Transactions g)) res).
Proof.
  intros s res H. apply ParseGTID_ok_inv in H. apply sets_ordered. assumption.
Qed.

Lemma ParseGTID_ordered_iff_ascending_witness :
  ascending "SID:1-5:7, B:3" = true <->
  Forall (fun g => Forall ordered (Transactions g))
    [ {| ServerId := "SID"; FirstTransaction := 1; LastTransaction := 7;
         Transactions := [td 1 5; td 7 7] |};
      {| ServerId := "B"; FirstTransaction := 3; LastTransaction := 3;
         Transactions := [td 3 3] |} ].
Proof.
  apply (ParseGTID_ordered_iff_ascending "SID:1-5:7, B:3").
  reflexivity.
Defined.

(** C5, as the specification words it, fails on ["SID:5-1"]: the parse
    succeeds with the range [{5, 1}]. *)
Lemma ParseGTID_decreasing_range :
  ~ (forall res, ParseGTID "SID:5-1" = Return (res, None) ->
       Forall (fun g => Forall ordered (Transactions g)) res).
Proof.
  intros H.
  specialize (H [ {| ServerId := "SID"; FirstTransaction := 5; LastTransaction := 1;
                     Transactions := [td 5 1] |} ] eq_refl).
  inversion H as [|g l Hg _]; subst. inversion Hg as [|d l' Hd _]; subst.
  unfold ordered in Hd. simpl in Hd. lia.
Qed.

(** ** Malformed tokens *)

Lemma Split_snoc : forall s sep,
  strings.Split (s ++ String sep "") sep = (strings.Split s sep ++ [""])%list.
Proof.
  induction s as [|c r IH]; intros sep; simpl.
  - rewrite Ascii.eqb_refl. reflexivity.
  - rewrite IH. destruct (Ascii.eqb c sep); [reflexivity|].
    pose proof (Split_not_nil r sep).
    destruct (strings.Split r sep); [congruence | reflexivity].
Qed.

Lemma endsWith_snoc : forall c s,
  endsWith c s = true -> exists a, s = a ++ String c "".
Proof.
  induction s as [|d r IH]; intros H; simpl in H; [discriminate|].
  destruct r as [|e r'].
  - apply Ascii.eqb_eq in H. subst d. exists "". reflexivity.
  - destruct (IH H) as [a Ha]. exists (String d a). simpl. rewrite <- Ha. reflexivity.
Qed.

Lemma badRange_empty : badRange "" = true.
Proof. reflexivity. Qed.

Lemma rangeParts_snoc : forall a,
  In "" (rangeParts (a ++ String ":" "")).
Proof.
  intros a. unfold rangeParts. rewrite Split_snoc.
  pose proof (Split_not_nil a ":").
  destruct (strings.Split a ":") as [|h t]; [congruence|].
  simpl. apply in_or_app. right. left. reflexivity.
Qed.

Lemma badRange_rangeOf : forall part, badRange part = true -> rangeOf part = None.
Proof.
  intros part H. unfold badRange in H. unfold rangeOf.
  destruct (strings.Split part "-") as [|a [|b [|c l]]]; try reflexivity.
  - simpl in H. rewrite orb_false_r in H. apply negb_true_iff in H.
    destruct (ParseInt_not_numeral a H) as (v & e & ->). reflexivity.
  - simpl in H. rewrite orb_false_r in H. apply orb_true_iff in H.
    destruct H as [H|H]; apply negb_true_iff in H.
    + destruct (ParseInt_not_numeral a H) as (v & e & ->). reflexivity.
    + destruct (ParseInt_not_numeral b H) as (v & e & ->).
      destruct (strconv.ParseInt a) as [n [e'|]]; reflexivity.
Qed.

Lemma malformed_setOf : forall token, malformed token = true -> setOf token = None.
Proof.
  intros token H. unfold malformed in H. unfold setOf.
  set (item := strings.TrimSpace token) in *.
  assert (Hbad : occurs ":" item = false \/ existsb badRange (rangeParts item) = true).
  { apply orb_true_iff in H. destruct H as [H|H]; [|right; assumption].
    apply orb_true_iff in H. destruct H as [H|H].
    - left. apply negb_true_iff. assumption.
    - right. destruct (endsWith_snoc _ _ H) as [a ->].
      apply existsb_exists. exists "". split; [apply rangeParts_snoc | reflexivity]. }
  destruct Hbad as [Hno|Hbad].
  - rewrite (Split_absent _ _ Hno). reflexivity.
  - unfold rangeParts in Hbad.
    destruct (strings.Split item ":") as [|sid [|p ps]]; try reflexivity.
    simpl skipn in Hbad. apply existsb_exists in Hbad.
    destruct Hbad as (x & Hin & Hx).
    rewrite (traverse_None _ _ rangeOf (p :: ps)); [reflexivity|].
    exists x. split; [assumption | apply badRange_rangeOf; assumption].
Qed.

(** C2.  A malformed token anywhere in the text makes [ParseGTID] return an
    error together with no set at all, whatever the tokens before it; the
    malformed tokens are those with no colon, with nothing after the last
    colon, with a range of more than two parts between dashes, or with a part
    of a range that is no number (a run of decimal digits, which [ParseInt]
    also accepts behind a sign). *)
Theorem ParseGTID_malformed_fails :
  (forall s, existsb malformed (strings.Split s ",") = true ->
     exists e, ParseGTID s = Return ([], Some e)) /\
  (exists e, ParseGTID "SERVERID:1-5-6" = Return ([], Some e)) /\
  (exists e, ParseGTID "SERVERID:1-A" = Return ([], Some e)) /\
  (exists e, ParseGTID "SERVERID" = Return ([], Some e)) /\
  (exists e, ParseGTID "SERVERID:" = Return ([], Some e)).
Proof.
  assert (G : forall s, existsb malformed (strings.Split s ",") = true ->
                exists e, ParseGTID s = Return ([], Some e)).
  { intros s H. apply ParseGTID_None. apply traverse_None.
    apply existsb_exists in H. destruct H as (token & Hin & Hm).
    exists token. split; [assumption | apply malformed_setOf; assumption]. }
  split; [exact G|].
  repeat split; apply G; reflexivity.
Qed.

Lemma ParseGTID_malformed_fails_witness :
  exists e, ParseGTID "A:1-3, B:1-19, C:4-x, D:7" = Return ([], Some e).
Proof.
  apply (proj1 ParseGTID_malformed_fails "A:1-3, B:1-19, C:4-x, D:7").
  reflexivity.
Defined.



(** ** White space around a token *)

Ltac btrue :=
  repeat match goal with
  | H : _ && _ = true |- _ => apply andb_true_iff in H; destruct H
  | H : _ || _ = true |- _ => apply orb_true_iff in H; destruct H
  | H : negb _ = true |- _ => apply negb_true_iff in H
  | H : (_ =? _) = true |- _ => apply Z.eqb_eq in H
  | H : (_ <=? _) = true |- _ => apply Z.leb_le in H
  | H : (_ <? _) = true |- _ => apply Z.ltb_lt in H
  end.

Ltac bfalse := apply not_true_is_false; intro; btrue; lia.

Lemma space2_lead : forall c1 c2, strings.space2 c1 c2 = true ->
  strings.code c1 = 194 /\ (strings.code c2 = 133 \/ strings.code c2 = 160).
Proof. unfold strings.space2. intros. btrue; lia. Qed.

Lemma space3_lead : forall c1 c2 c3, strings.space3 c1 c2 c3 = true ->
  (strings.code c1 = 225 \/ strings.code c1 = 226 \/ strings.code c1 = 227) /\
  (strings.code c2 = 154 \/ strings.code c2 = 128 \/ strings.code c2 = 129) /\
  128 <= strings.code c3 <= 175.
Proof. unfold strings.space3. intros. btrue; lia. Qed.

Lemma asciiSpace_code : forall c, strings.asciiSpace c = true -> strings.code c <= 32.
Proof. unfold strings.asciiSpace. intros. btrue; lia. Qed.

Lemma not_asciiSpace : forall c, 32 < strings.code c -> strings.asciiSpace c = false.
Proof. intros c H. unfold strings.asciiSpace. bfalse. Qed.

Lemma not_space2_l : forall c1 c2, strings.code c1 <> 194 -> strings.space2 c1 c2 = false.
Proof. intros. unfold strings.space2. bfalse. Qed.

Lemma not_space2_r : forall c1 c2, strings.code c2 < 128 -> strings.space2 c1 c2 = false.
Proof. intros. unfold strings.space2. bfalse. Qed.

Lemma not_space3_l : forall c1 c2 c3, strings.code c1 < 225 -> strings.space3 c1 c2 c3 = false.
Proof. intros. unfold strings.space3. bfalse. Qed.

Lemma not_space3_m : forall c1 c2 c3, strings.code c2 < 128 -> strings.space3 c1 c2 c3 = false.
Proof. intros. unfold strings.space3. bfalse. Qed.

Lemma not_space3_r : forall c1 c2 c3, strings.code c3 < 128 -> strings.space3 c1 c2 c3 = false.
Proof. intros. unfold strings.space3. bfalse. Qed.

Lemma not_space3_m194 : forall c1 c2 c3, strings.code c2 = 194 -> strings.space3 c1 c2 c3 = false.
Proof. intros. unfold strings.space3. bfalse. Qed.

Lemma append_assoc : forall a b c : string, (a ++ b) ++ c = a ++ b ++ c.
Proof. induction a; intros; simpl; congruence. Qed.

(** A white-space rune in front is trimmed. *)
Lemma TrimLeftSpace_rune : forall w r,
  isSpaceRune w = true -> strings.TrimLeftSpace (w ++ r) = strings.TrimLeftSpace r.
Proof.
  intros w r H. destruct w as [|c1 [|c2 [|c3 [|c4 w]]]]; try discriminate; simpl in H.
  - simpl. rewrite H. reflexivity.
  - destruct (space2_lead _ _ H) as [H1 H2].
    simpl. rewrite (not_asciiSpace c1) by lia. rewrite H. reflexivity.
  - destruct (space3_lead _ _ _ H) as (H1 & H2 & H3).
    simpl. rewrite (not_asciiSpace c1) by lia.
    rewrite (not_space2_l c1 c2) by lia. rewrite H. reflexivity.
Qed.

Lemma TrimLeftSpace_glue : forall ws r,
  forallb isSpaceRune ws = true ->
  strings.TrimLeftSpace (glue ws ++ r) = strings.TrimLeftSpace r.
Proof.
  induction ws as [|w ws IH]; intros r H; simpl in *; [reflexivity|].
  apply andb_true_iff in H. destruct H as [Hw Hws].
  rewrite append_assoc, (TrimLeftSpace_rune _ _ Hw). apply IH. assumption.
Qed.

Lemma TrimLeftSpace_length : forall n s, (String.length s <= n)%nat ->
  (String.length (strings.TrimLeftSpace s) <= String.length s)%nat.
Proof.
  induction n as [|n IH]; intros s Hn.
  - destruct s; simpl in *; lia.
  - destruct s as [|c1 [|c2 [|c3 r3]]]; simpl in *.
    + lia.
    + destruct (strings.asciiSpace c1); simpl; lia.
    + destruct (strings.asciiSpace c1).
      * specialize (IH (String c2 "")). simpl in IH. lia.
      * destruct (strings.space2 c1 c2); simpl; lia.
    + destruct (strings.asciiSpace c1).
      * specialize (IH (String c2 (String c3 r3))). simpl String.length in IH. lia.
      * destruct (strings.space2 c1 c2).
        -- specialize (IH (String c3 r3)). simpl String.length in IH. lia.
        -- destruct (strings.space3 c1 c2 c3).
           ++ specialize (IH r3). lia.
           ++ simpl. lia.
Qed.

(** A server id that trimming leaves alone is left alone in front of a
    colon too. *)
Lemma TrimLeftSpace_server : forall sid r,
  strings.TrimLeftSpace sid = sid ->
  strings.TrimLeftSpace (sid ++ String ":" r) = sid ++ String ":" r.
Proof.
  intros sid r H.
  assert (L : forall s, (String.length (strings.TrimLeftSpace s) <= String.length s)%nat)
    by (intros s; apply (TrimLeftSpace_length (String.length s)); lia).
  assert (Hc : strings.code ":" = 58) by reflexivity.
  destruct sid as [|c1 [|c2 [|c3 r3]]]; cbn [append strings.TrimLeftSpace] in *.
  - rewrite (not_asciiSpace ":") by (rewrite Hc; lia).
    destruct r as [|d1 [|d2 r']]; reflexivity.
  - destruct (strings.asciiSpace c1) eqn:E1; [discriminate|].
    rewrite (not_space2_r c1 ":") by (rewrite Hc; lia).
    destruct r as [|d1 r']; [reflexivity|].
    rewrite (not_space3_m c1 ":" d1) by (rewrite Hc; lia). reflexivity.
  - destruct (strings.asciiSpace c1) eqn:E1.
    { pose proof (L (String c2 "")) as L'. cbn [strings.TrimLeftSpace] in L'.
      rewrite H in L'. simpl in L'. lia. }
    destruct (strings.space2 c1 c2) eqn:E2; [discriminate|].
    rewrite (not_space3_r c1 c2 ":") by (rewrite Hc; lia). reflexivity.
  - destruct (strings.asciiSpace c1) eqn:E1.
    { pose proof (L (String c2 (String c3 r3))) as L'.
      cbn [strings.TrimLeftSpace] in L'. rewrite H in L'. simpl in L'. lia. }
    destruct (strings.space2 c1 c2) eqn:E2.
    { pose proof (L (String c3 r3)) as L'. cbn [strings.TrimLeftSpace] in L'.
      rewrite H in L'. simpl in L'. lia. }
    destruct (strings.space3 c1 c2 c3) eqn:E3; [|reflexivity].
    pose proof (L r3) as L'. rewrite H in L'. simpl in L'. lia.
Qed.

(** Reversal. *)
Lemma rev_append_app : forall s acc, strings.rev_append s acc = strings.rev s ++ acc.
Proof.
  unfold strings.rev. induction s as [|c r IH]; intros acc; simpl; [reflexivity|].
  rewrite IH, (IH (String c "")), append_assoc. reflexivity.
Qed.

Lemma rev_cons : forall c s, strings.rev (String c s) = strings.rev s ++ String c "".
Proof. intros. unfold strings.rev at 1. simpl. apply rev_append_app. Qed.

Lemma append_nil_r : forall s : string, s ++ "" = s.
Proof. induction s; simpl; congruence. Qed.

Lemma rev_app : forall a b, strings.rev (a ++ b) = strings.rev b ++ strings.rev a.
Proof.
  induction a as [|c a IH]; intros b; simpl.
  - rewrite append_nil_r. reflexivity.
  - rewrite !rev_cons, IH, <- append_assoc. reflexivity.
Qed.

Lemma rev_rev : forall s, strings.rev (strings.rev s) = s.
Proof.
  induction s as [|c s IH]; [reflexivity|].
  rewrite rev_cons, rev_app, IH. reflexivity.
Qed.

Lemma trimRev_rune : forall w r,
  isSpaceRune w = true -> strings.trimRev (strings.rev w ++ r) = strings.trimRev r.
Proof.
  intros w r H. destruct w as [|c1 [|c2 [|c3 [|c4 w]]]]; try discriminate; simpl in H.
  - simpl. rewrite H. reflexivity.
  - destruct (space2_lead _ _ H) as [H1 H2].
    simpl. rewrite (not_asciiSpace c2) by lia. rewrite H. reflexivity.
  - destruct (space3_lead _ _ _ H) as (H1 & H2 & H3).
    simpl. rewrite (not_asciiSpace c3) by lia.
    rewrite (not_space2_l c2 c3) by lia. rewrite H. reflexivity.
Qed.

Lemma rev_glue : forall ws r,
  forallb isSpaceRune ws = true ->
  strings.trimRev (strings.rev (glue ws) ++ r) = strings.trimRev r.
Proof.
  induction ws as [|w ws IH]; intros r H; simpl in *; [reflexivity|].
  apply andb_true_iff in H. destruct H as [Hw Hws].
  rewrite rev_app, append_assoc, (IH _ Hws). apply trimRev_rune. assumption.
Qed.

(** Trimming stops at a decimal digit. *)
Lemma trimRev_digit : forall d r,
  strconv.isDigit d = true -> strings.trimRev (String d r) = String d r.
Proof.
  intros d r H. unfold strconv.isDigit in H. btrue.
  simpl. rewrite (not_asciiSpace d) by lia.
  destruct r as [|c2 [|c3 r']]; try reflexivity.
  - rewrite (not_space2_r c2 d) by lia. reflexivity.
  - rewrite (not_space2_r c2 d) by lia. rewrite (not_space3_r c3 c2 d) by lia.
    reflexivity.
Qed.

Lemma TrimRightSpace_glue : forall body d ws,
  strconv.isDigit d = true -> forallb isSpaceRune ws = true ->
  strings.TrimRightSpace ((body ++ String d "") ++ glue ws) = body ++ String d "".
Proof.
  intros body d ws Hd Hws. unfold strings.TrimRightSpace.
  rewrite rev_app, (rev_glue _ _ Hws), rev_app.
  change (strings.rev (String d "")) with (String d ""). cbn [append].
  rewrite (trimRev_digit _ _ Hd).
  change (String d (strings.rev body)) with (String d "" ++ strings.rev body).
  change (String d "") with (strings.rev (String d "")) at 1.
  rewrite <- (rev_app body (String d "")). apply rev_rev.
Qed.

(** ** Well-formed texts *)

Lemma digits_exclude : forall c s,
  strings.allBytes strconv.isDigit s = true -> strconv.isDigit c = false ->
  occurs c s = false.
Proof.
  induction s as [|d r IH]; intros Hs Hc; simpl in *; [reflexivity|].
  apply andb_true_iff in Hs. destruct Hs as [Hd Hr].
  rewrite (IH Hr Hc), orb_false_r. apply Ascii.eqb_neq. intros ->. congruence.
Qed.

Lemma isNumeral_exclude : forall c n,
  isNumeral n = true -> strconv.isDigit c = false -> occurs c n = false.
Proof.
  intros c n H Hc. unfold isNumeral in H. apply andb_true_iff in H.
  apply digits_exclude; tauto.
Qed.

Lemma endsInDigit_app : forall a b, endsInDigit b -> endsInDigit (a ++ b).
Proof.
  intros a b (x & d & -> & Hd). exists (a ++ x), d.
  split; [symmetry; apply append_assoc | assumption].
Qed.

Lemma endsInDigit_cons : forall c b, endsInDigit b -> endsInDigit (String c b).
Proof. intros c b H. apply (endsInDigit_app (String c "") b H). Qed.

Lemma isNumeral_endsInDigit : forall n, isNumeral n = true -> endsInDigit n.
Proof.
  intros n H. unfold isNumeral in H. apply andb_true_iff in H. destruct H as [Hne Hd].
  induction n as [|c r IH]; [discriminate|].
  simpl in Hd. apply andb_true_iff in Hd. destruct Hd as [Hc Hr].
  destruct r as [|c' r'].
  - exists "", c. split; [reflexivity | assumption].
  - apply endsInDigit_cons. apply IH; [reflexivity | assumption].
Qed.

Lemma writeRange_endsInDigit : forall r,
  grammarRange r = true -> endsInDigit (writeRange r).
Proof.
  intros [lo up] H. unfold grammarRange in H. simpl in H.
  apply andb_true_iff in H. destruct H as [Hlo Hup]. unfold writeRange. simpl.
  destruct up as [m|].
  - apply endsInDigit_app, endsInDigit_cons, isNumeral_endsInDigit. assumption.
  - apply isNumeral_endsInDigit. assumption.
Qed.

Lemma writeRanges_endsInDigit : forall rs,
  rs <> [] -> forallb grammarRange rs = true -> endsInDigit (writeRanges rs).
Proof.
  induction rs as [|r rs IH]; intros Hne H; [congruence|].
  simpl in H. apply andb_true_iff in H. destruct H as [Hr Hrs].
  simpl. apply endsInDigit_cons. destruct rs as [|r' rs'].
  - simpl. rewrite append_nil_r. apply writeRange_endsInDigit. assumption.
  - apply endsInDigit_app. apply IH; [discriminate | assumption].
Qed.

Lemma writeRange_exclude : forall c r,
  grammarRange r = true -> strconv.isDigit c = false -> Ascii.eqb "-" c = false ->
  occurs c (writeRange r) = false.
Proof.
  intros c [lo up] H Hc Hm. unfold grammarRange in H. simpl in H.
  apply andb_true_iff in H. destruct H as [Hlo Hup]. unfold writeRange. simpl.
  destruct up as [m|].
  - rewrite occurs_app. cbn [occurs]. rewrite Hm.
    rewrite (isNumeral_exclude _ _ Hlo Hc), (isNumeral_exclude _ _ Hup Hc). reflexivity.
  - apply isNumeral_exclude; assumption.
Qed.

Lemma writeRanges_no_comma : forall rs,
  forallb grammarRange rs = true -> occurs "," (writeRanges rs) = false.
Proof.
  induction rs as [|r rs IH]; intros H; simpl in *; [reflexivity|].
  apply andb_true_iff in H. destruct H as [Hr Hrs].
  rewrite occurs_app, (IH Hrs), (writeRange_exclude "," r Hr); reflexivity.
Qed.

Lemma spaceRune_exclude : forall c w,
  isSpaceRune w = true -> 32 < strings.code c < 128 -> occurs c w = false.
Proof.
  intros c w H Hc.
  assert (N : forall d, strings.code d <> strings.code c -> Ascii.eqb d c = false)
    by (intros d Hd; apply Ascii.eqb_neq; intros ->; congruence).
  destruct w as [|c1 [|c2 [|c3 [|c4 w]]]]; try discriminate; simpl in H; simpl.
  - pose proof (asciiSpace_code _ H). rewrite N by lia. reflexivity.
  - destruct (space2_lead _ _ H) as [H1 H2]. rewrite !N by lia. reflexivity.
  - destruct (space3_lead _ _ _ H) as (H1 & H2 & H3). rewrite !N by lia. reflexivity.
Qed.

Lemma glue_exclude : forall c ws,
  forallb isSpaceRune ws = true -> 32 < strings.code c < 128 ->
  occurs c (glue ws) = false.
Proof.
  induction ws as [|w ws IH]; intros H Hc; simpl in *; [reflexivity|].
  apply andb_true_iff in H. destruct H as [Hw Hws].
  rewrite occurs_app, (spaceRune_exclude c w Hw Hc), (IH Hws Hc). reflexivity.
Qed.

Lemma grammarSet_inv : forall t,
  grammarSet t = true ->
  forallb isSpaceRune (before t) = true /\ forallb isSpaceRune (after t) = true /\
  occurs "," (server t) = false /\ occurs ":" (server t) = false /\
  strings.TrimLeftSpace (server t) = server t /\
  rangeTexts t <> [] /\ forallb grammarRange (rangeTexts t) = true.
Proof.
  intros t H. unfold grammarSet, grammarServer in H. btrue.
  repeat split; try assumption.
  - apply String.eqb_eq. assumption.
  - intros E. rewrite E in *. discriminate.
Qed.

Lemma writeSet_no_comma : forall t,
  grammarSet t = true -> occurs "," (writeSet t) = false.
Proof.
  intros t H. destruct (grammarSet_inv t H) as (Hb & Ha & Hc & _ & _ & _ & Hr).
  unfold writeSet. rewrite !occurs_app.
  assert (Hk : 32 < strings.code "," < 128) by (split; reflexivity).
  rewrite (glue_exclude _ _ Hb Hk), (glue_exclude _ _ Ha Hk), Hc,
    (writeRanges_no_comma _ Hr). reflexivity.
Qed.

Lemma TrimSpace_writeSet : forall t,
  grammarSet t = true ->
  strings.TrimSpace (writeSet t) = server t ++ writeRanges (rangeTexts t).
Proof.
  intros t H. destruct (grammarSet_inv t H) as (Hb & Ha & _ & _ & Ht & Hne & Hr).
  unfold strings.TrimSpace, writeSet.
  rewrite (TrimLeftSpace_glue _ _ Hb).
  destruct (rangeTexts t) as [|r rs] eqn:Ers; [congruence|].
  assert (E : endsInDigit (server t ++ writeRanges (r :: rs)))
    by (apply endsInDigit_app, writeRanges_endsInDigit; [discriminate | assumption]).
  cbn [writeRanges] in *. rewrite !append_assoc. cbn [append].
  rewrite (TrimLeftSpace_server _ _ Ht).
  change (String ":" ((writeRange r ++ writeRanges rs) ++ glue (after t)))
    with (String ":" (writeRange r ++ writeRanges rs) ++ glue (after t)).
  rewrite <- append_assoc.
  destruct E as (x & d & -> & Hd). apply TrimRightSpace_glue; assumption.
Qed.

Lemma Split_writeRanges : forall rs a,
  occurs ":" a = false -> forallb grammarRange rs = true ->
  strings.Split (a ++ writeRanges rs) ":" = a :: map writeRange rs.
Proof.
  induction rs as [|r rs IH]; intros a Ha H; simpl in *.
  - rewrite append_nil_r. apply Split_absent. assumption.
  - apply andb_true_iff in H. destruct H as [Hr Hrs].
    rewrite (Split_app _ _ _ Ha). f_equal. apply IH; [|assumption].
    apply writeRange_exclude; [assumption | reflexivity | reflexivity].
Qed.

Lemma rangeOf_writeRange : forall r,
  grammarRange r = true -> fitsRange r = true ->
  rangeOf (writeRange r) = Some (rangeMeaning r).
Proof.
  intros [lo up] H F. unfold grammarRange in H. unfold fitsRange in F. simpl in *.
  apply andb_true_iff in H. destruct H as [Hlo Hup].
  apply andb_true_iff in F. destruct F as [Flo Fup]. apply Z.ltb_lt in Flo.
  assert (Dlo : occurs "-" lo = false) by (apply isNumeral_exclude; [assumption | reflexivity]).
  unfold rangeOf, writeRange, rangeMeaning. simpl.
  destruct up as [m|].
  - apply Z.ltb_lt in Fup.
    assert (Dm : occurs "-" m = false) by (apply isNumeral_exclude; [assumption | reflexivity]).
    rewrite (Split_app _ _ _ Dlo), (Split_absent _ _ Dm).
    rewrite (ParseInt_numeral _ Hlo Flo), (ParseInt_numeral _ Hup Fup). reflexivity.
  - rewrite (Split_absent _ _ Dlo), (ParseInt_numeral _ Hlo Flo). reflexivity.
Qed.

Lemma traverse_map : forall (A B C : Type) (f : B -> option C) (g : A -> B) (h : A -> C) l,
  (forall a, In a l -> f (g a) = Some (h a)) ->
  traverse f (map g l) = Some (map h l).
Proof.
  induction l as [|a l IH]; intros H; simpl; [reflexivity|].
  rewrite (H a (or_introl eq_refl)), IH; [reflexivity|].
  intros b Hb. apply H. right. assumption.
Qed.

Lemma setOf_writeSet : forall t,
  grammarSet t = true -> fitsSet t = true -> setOf (writeSet t) = Some (setMeaning t).
Proof.
  intros t H F. destruct (grammarSet_inv t H) as (_ & _ & _ & Hc & _ & Hne & Hr).
  unfold setOf. rewrite (TrimSpace_writeSet t H), (Split_writeRanges _ _ Hc Hr).
  unfold fitsSet in F. unfold setMeaning.
  destruct (rangeTexts t) as [|r rs]; [congruence|].
  cbn [map]. change (writeRange r :: map writeRange rs) with (map writeRange (r :: rs)).
  rewrite (traverse_map _ _ _ rangeOf writeRange rangeMeaning (r :: rs)); [reflexivity|].
  intros a Ha. rewrite forallb_forall in Hr, F. apply rangeOf_writeRange; auto.
Qed.

Lemma Split_writeSets : forall ts,
  ts <> [] -> forallb grammarSet ts = true ->
  strings.Split (writeSets ts) "," = map writeSet ts.
Proof.
  induction ts as [|t ts IH]; intros Hne H; [congruence|].
  simpl in H. apply andb_true_iff in H. destruct H as [Ht Hts].
  destruct ts as [|t' ts'].
  - simpl. apply Split_absent, writeSet_no_comma. assumption.
  - cbn [writeSets map]. rewrite (Split_app _ _ _ (writeSet_no_comma t Ht)).
    f_equal. apply IH; [discriminate | assumption].
Qed.

(** C1, as the code has it.  A well-formed transaction-set text whose
    numerals are all below [2^63] is parsed into one set per token, in the
    order of the text; the ranges of a set are those of its token in their
    order, a numeral [N] alone being the range [{N, N}]; [FirstTransaction] is
    the start of the first range and [LastTransaction] the end of the last.
    The two texts of the specification are instances. *)
Theorem ParseGTID_well_formed :
  (forall ts, ts <> [] -> forallb grammarSet ts = true -> forallb fitsSet ts = true ->
     ParseGTID (writeSets ts) = Return (map setMeaning ts, None)) /\
  ParseGTID "SERVERID:1-3:11:47-49"
    = Return ([ {| ServerId := "SERVERID"; FirstTransaction := 1; LastTransaction := 49;
                   Transactions := [td 1 3; td 11 11; td 47 49] |} ], None) /\
  ParseGTID "A:1-3, B:1-19"
    = Return ([ {| ServerId := "A"; FirstTransaction := 1; LastTransaction := 3;
                   Transactions := [td 1 3] |};
                {| ServerId := "B"; FirstTransaction := 1; LastTransaction := 19;
                   Transactions := [td 1 19] |} ], None).
Proof.
  split; [|split; reflexivity].
  intros ts Hne H F. apply ParseGTID_Some.
  rewrite (Split_writeSets ts Hne H). apply traverse_map.
  intros t Ht. rewrite forallb_forall in H, F. apply setOf_writeSet; auto.
Qed.

Lemma ParseGTID_well_formed_witness :
  ParseGTID "A:1-3, B:1-19" = Return (map setMeaning exampleSets, None).
Proof.
  apply (proj1 ParseGTID_well_formed exampleSets).
  - discriminate.
  - reflexivity.
  - reflexivity.
Defined.

(** C1, as the specification words it, fails on a numeral that does not
    fit [int64]: the text follows the grammar, and [ParseInt] reports a range
    error. *)
Lemma ParseGTID_numeral_too_large :
  forallb grammarSet largeSets = true /\
  writeSets largeSets = "SERVERID:9223372036854775808" /\
  ParseGTID (writeSets largeSets)
    = Return ([], Some (ErrParseInt64 "9223372036854775808"
                          (strconv.numError "ParseInt" "9223372036854775808"
                             strconv.ErrRange))).
Proof. repeat split. Qed.

(** ** The calendar of [time.Date] *)

Lemma daysSinceEpoch_year : forall Y, 0 <= Y <= 9999 ->
  time.daysSinceEpoch Y = daysBeforeYear Y + 146097 * 730692556.
Proof.
  intros Y HY. unfold time.daysSinceEpoch, daysBeforeYear, time.absoluteZeroYear.
  Z.div_mod_to_equations. lia.
Qed.

Lemma daysBefore_month : forall Y M, 1 <= M <= 12 ->
  nth (Z.to_nat (M - 1)) time.daysBefore 0 + (if leapYear Y && (3 <=? M) then 1 else 0)
  = daysBeforeMonth Y M.
Proof.
  intros Y M HM.
  assert (HMc : M = 1 \/ M = 2 \/ M = 3 \/ M = 4 \/ M = 5 \/ M = 6 \/ M = 7 \/ M = 8 \/
                M = 9 \/ M = 10 \/ M = 11 \/ M = 12) by lia.
  unfold daysBeforeMonth, monthLength.
  destruct (leapYear Y);
  repeat (destruct HMc as [->|HMc]); try subst M; reflexivity.
Qed.

Lemma unixDate_epochSeconds : forall Y M D h m s,
  validTimestamp Y M D h m s ->
  time.unixDate Y M D h m s = epochSeconds Y M D h m s.
Proof.
  intros Y M D h m s (HY & HM & HD & Hh & Hm & Hs).
  unfold time.unixDate, epochSeconds. rewrite (daysSinceEpoch_year Y HY).
  change time.isLeap with leapYear.
  pose proof (daysBefore_month Y M HM) as HB.
  assert (HL : 28 <= monthLength Y M <= 31).
  { unfold monthLength. destruct (M =? 2); [destruct (leapYear Y); lia|].
    destruct (_ || _); lia. }
  assert (HBM : 0 <= daysBeforeMonth Y M <= 335).
  { rewrite <- HB.
    assert (HMc : M = 1 \/ M = 2 \/ M = 3 \/ M = 4 \/ M = 5 \/ M = 6 \/ M = 7 \/ M = 8 \/
                M = 9 \/ M = 10 \/ M = 11 \/ M = 12) by lia.
    destruct (leapYear Y);
    repeat (destruct HMc as [->|HMc]); try subst M; simpl; lia. }
  set (dbm := daysBeforeMonth Y M) in *.
  assert (E : (let d := daysBeforeYear Y + 146097 * 730692556 in
               let d0 := d + nth (Z.to_nat (M - 1)) time.daysBefore 0 in
               let d1 := if leapYear Y && (3 <=? M) then d0 + 1 else d0 in
               d1 + (D - 1)) = daysBeforeYear Y + 146097 * 730692556 + dbm + (D - 1)).
  { cbv zeta. destruct (leapYear Y && (3 <=? M)); lia. }
  cbv zeta in E |- *. rewrite E. clear E HB.
  assert (HDY : -366 <= daysBeforeYear Y <= 3652059).
  { unfold daysBeforeYear. Z.div_mod_to_equations. lia. }
  replace (daysBeforeYear 1970) with 719162 by reflexivity.
  unfold time.int64, time.secondsPerDay, time.absoluteToInternal.
  replace time.unixToInternal with 62135596800 by reflexivity.
  replace (2 ^ 63) with 9223372036854775808 by reflexivity.
  replace (2 ^ 64) with 18446744073709551616 by reflexivity.
  set (dby := daysBeforeYear Y) in *.
  Z.div_mod_to_equations. lia.
Qed.

Lemma daysIn_monthLength : forall Y M, 1 <= M <= 12 ->
  time.daysIn M Y = monthLength Y M.
Proof.
  intros Y M HM.
  assert (HMc : M = 1 \/ M = 2 \/ M = 3 \/ M = 4 \/ M = 5 \/ M = 6 \/ M = 7 \/ M = 8 \/
                M = 9 \/ M = 10 \/ M = 11 \/ M = 12) by lia.
  unfold time.daysIn, monthLength. change time.isLeap with leapYear.
  destruct (leapYear Y);
  repeat (destruct HMc as [->|HMc]); try subst M; reflexivity.
Qed.

(** ** Reading a timestamp *)

Lemma digit_cases : forall k, 0 <= k <= 9 ->
  k = 0 \/ k = 1 \/ k = 2 \/ k = 3 \/ k = 4 \/ k = 5 \/ k = 6 \/ k = 7 \/ k = 8 \/ k = 9.
Proof. intros; lia. Qed.

Ltac each_digit k H :=
  let C := fresh "C" in
  pose proof (digit_cases k H) as C;
  repeat (destruct C as [C|C]); rewrite C in *.

Lemma digit_isDigit : forall k, 0 <= k <= 9 ->
  strconv.isDigit (digit k) = true /\ strconv.digitVal (digit k) = k.
Proof. intros k H. each_digit k H; split; reflexivity. Qed.

Lemma digit_plain : forall k, 0 <= k <= 9 ->
  strings.isASCII (digit k) = true /\ strings.lower (digit k) = digit k /\
  Ascii.eqb (digit k) " " = false.
Proof. intros k H. each_digit k H; repeat split; reflexivity. Qed.

Lemma getnum_pad2 : forall n rest fixed, 0 <= n <= 99 ->
  time.getnum (pad2 n rest) fixed = Some (n, rest).
Proof.
  intros n rest fixed H. unfold pad2, time.getnum.
  assert (H1 : 0 <= n / 10 <= 9) by (Z.div_mod_to_equations; lia).
  assert (H2 : 0 <= n mod 10 <= 9) by (Z.div_mod_to_equations; lia).
  destruct (digit_isDigit _ H1) as [D1 V1]. destruct (digit_isDigit _ H2) as [D2 V2].
  unfold time.isDigit, time.digitVal. rewrite D1, D2, V1, V2.
  f_equal. f_equal. Z.div_mod_to_equations; lia.
Qed.

Lemma longYear_pad4 : forall Y rest, 0 <= Y <= 9999 ->
  time.longYear (pad4 Y rest) = Some (Y, rest).
Proof.
  intros Y rest H. unfold pad4, pad2, time.longYear.
  assert (H1 : 0 <= Y / 1000 <= 9) by (Z.div_mod_to_equations; lia).
  assert (H2 : 0 <= Y / 100 mod 10 <= 9) by (Z.div_mod_to_equations; lia).
  assert (H3 : 0 <= Y mod 100 / 10 <= 9) by (Z.div_mod_to_equations; lia).
  assert (H4 : 0 <= Y mod 100 mod 10 <= 9) by (Z.div_mod_to_equations; lia).
  destruct (digit_isDigit _ H1) as [D1 V1]. destruct (digit_isDigit _ H2) as [D2 V2].
  destruct (digit_isDigit _ H3) as [D3 V3]. destruct (digit_isDigit _ H4) as [D4 V4].
  unfold time.isDigit, time.digitVal. rewrite D1, D2, D3, D4, V1, V2, V3, V4.
  simpl andb. cbv iota. f_equal. f_equal. Z.div_mod_to_equations; lia.
Qed.

Lemma cutspace_pad2 : forall n rest, 0 <= n <= 99 ->
  time.cutspace (pad2 n rest) = pad2 n rest.
Proof.
  intros n rest H. unfold pad2.
  assert (H1 : 0 <= n / 10 <= 9) by (Z.div_mod_to_equations; lia).
  destruct (digit_plain _ H1) as (_ & _ & E). cbn [time.cutspace]. rewrite E.
  reflexivity.
Qed.

(** [time.Parse] reads the text of a valid timestamp as its seconds since
    the epoch. *)
Lemma Parse_timestampText : forall Y M D h m s,
  validTimestamp Y M D h m s ->
  time.Parse_2006_01_02_15_04_05 (timestampText Y M D h m s)
  = Some (epochSeconds Y M D h m s).
Proof.
  intros Y M D h m s V. pose proof V as (HY & HM & HD & Hh & Hm & Hs).
  assert (HL : monthLength Y M <= 31).
  { unfold monthLength. destruct (M =? 2); [destruct (leapYear Y); lia|].
    destruct (_ || _); lia. }
  unfold time.Parse_2006_01_02_15_04_05, timestampText.
  rewrite (longYear_pad4 Y _ HY). cbn [time.skip Ascii.eqb Bool.eqb].
  rewrite getnum_pad2 by lia.
  replace ((0 <? M) && (M <=? 12)) with true
    by (symmetry; apply andb_true_iff; split; [apply Z.ltb_lt | apply Z.leb_le]; lia).
  cbn [time.guard time.skip Ascii.eqb Bool.eqb].
  rewrite getnum_pad2 by lia.
  cbn [time.skip Ascii.eqb Bool.eqb time.cutspace].
  rewrite cutspace_pad2 by lia. rewrite getnum_pad2 by lia.
  replace (h <? 24) with true by (symmetry; apply Z.ltb_lt; lia).
  cbn [time.guard time.skip Ascii.eqb Bool.eqb].
  rewrite getnum_pad2 by lia.
  replace (m <? 60) with true by (symmetry; apply Z.ltb_lt; lia).
  cbn [time.guard time.skip Ascii.eqb Bool.eqb].
  rewrite getnum_pad2 by lia.
  replace (s <? 60) with true by (symmetry; apply Z.ltb_lt; lia).
  cbn [time.guard time.fraction].
  rewrite (daysIn_monthLength Y M HM).
  replace ((1 <=? D) && (D <=? monthLength Y M)) with true
    by (symmetry; apply andb_true_iff; split; apply Z.leb_le; lia).
  cbn [time.guard]. rewrite (unixDate_epochSeconds _ _ _ _ _ _ V). reflexivity.
Qed.

(** ** The cascade of [parseStatus] *)

Lemma pad2_plain : forall n rest, 0 <= n <= 99 ->
  strings.allBytes strings.isASCII (pad2 n rest) = strings.allBytes strings.isASCII rest /\
  strings.mapBytes strings.lower (pad2 n rest) = pad2 n (strings.mapBytes strings.lower rest).
Proof.
  intros n rest H. unfold pad2.
  assert (H1 : 0 <= n / 10 <= 9) by (Z.div_mod_to_equations; lia).
  assert (H2 : 0 <= n mod 10 <= 9) by (Z.div_mod_to_equations; lia).
  destruct (digit_plain _ H1) as (A1 & L1 & _).
  destruct (digit_plain _ H2) as (A2 & L2 & _).
  cbn [strings.allBytes strings.mapBytes]. rewrite A1, A2, L1, L2. split; reflexivity.
Qed.

Lemma pad4_plain : forall n rest, 0 <= n <= 9999 ->
  strings.allBytes strings.isASCII (pad4 n rest) = strings.allBytes strings.isASCII rest /\
  strings.mapBytes strings.lower (pad4 n rest) = pad4 n (strings.mapBytes strings.lower rest).
Proof.
  intros n rest H. unfold pad4.
  assert (H1 : 0 <= n / 1000 <= 9) by (Z.div_mod_to_equations; lia).
  assert (H2 : 0 <= n / 100 mod 10 <= 9) by (Z.div_mod_to_equations; lia).
  assert (H3 : 0 <= n mod 100 <= 99) by (Z.div_mod_to_equations; lia).
  destruct (digit_plain _ H1) as (A1 & L1 & _).
  destruct (digit_plain _ H2) as (A2 & L2 & _).
  destruct (pad2_plain _ rest H3) as (A3 & L3).
  cbn [strings.allBytes strings.mapBytes]. rewrite A1, A2, L1, L2, A3, L3.
  split; reflexivity.
Qed.

Ltac plain_step :=
  match goal with
  | |- context [strings.allBytes strings.isASCII (pad2 ?n ?r)] =>
      rewrite (proj1 (pad2_plain n r ltac:(lia)))
  | |- context [strings.mapBytes strings.lower (pad2 ?n ?r)] =>
      rewrite (proj2 (pad2_plain n r ltac:(lia)))
  | |- context [strings.allBytes strings.isASCII (pad4 ?n ?r)] =>
      rewrite (proj1 (pad4_plain n r ltac:(lia)))
  | |- context [strings.mapBytes strings.lower (pad4 ?n ?r)] =>
      rewrite (proj2 (pad4_plain n r ltac:(lia)))
  | |- context [strings.allBytes strings.isASCII (String ?c ?r)] =>
      change (strings.allBytes strings.isASCII (String c r))
        with (strings.isASCII c && strings.allBytes strings.isASCII r)
  | |- context [strings.mapBytes strings.lower (String ?c ?r)] =>
      change (strings.mapBytes strings.lower (String c r))
        with (String (strings.lower c) (strings.mapBytes strings.lower r))
  end.

Lemma timestampText_plain : forall Y M D h m s,
  validTimestamp Y M D h m s ->
  strings.allBytes strings.isASCII (timestampText Y M D h m s) = true /\
  strings.mapBytes strings.lower (timestampText Y M D h m s) = timestampText Y M D h m s.
Proof.
  intros Y M D h m s (HY & HM & HD & Hh & Hm & Hs).
  assert (HL : monthLength Y M <= 31).
  { unfold monthLength. destruct (M =? 2); [destruct (leapYear Y); lia|].
    destruct (_ || _); lia. }
  unfold timestampText. split; repeat plain_step; reflexivity.
Qed.

Lemma timestampText_first : forall Y M D h m s,
  validTimestamp Y M D h m s ->
  exists k r, 0 <= k <= 9 /\ timestampText Y M D h m s = String (digit k) r.
Proof.
  intros Y M D h m s (HY & _). unfold timestampText, pad4.
  eexists; eexists. split; [|reflexivity]. Z.div_mod_to_equations; lia.
Qed.

Lemma digit_first : forall k r, 0 <= k <= 9 ->
  oneOf (String (digit k) r) ["yes"; "on"] = false /\
  oneOf (String (digit k) r) ["no"; "off"; "disabled"] = false /\
  oneOf (String (digit k) r) ["connecting"] = false /\
  oneOf (String (digit k) r) ["primary"] = false /\
  oneOf (String (digit k) r) ["non-primary"; "disconnected"] = false /\
  time.lookup time.shortMonthNames (String (digit k) r) 0 = None.
Proof. intros k r H. each_digit k H; repeat split; reflexivity. Qed.

Lemma lower_isASCII : forall c,
  strings.isASCII (strings.lower c) = true -> strings.isASCII c = true.
Proof.
  intros c H. unfold strings.lower in H.
  destruct ((65 <=? strings.code c) && (strings.code c <=? 90)) eqn:E; [|assumption].
  unfold strings.isASCII. btrue. apply Z.ltb_lt. lia.
Qed.

Lemma mapBytes_lower_isASCII : forall s,
  strings.allBytes strings.isASCII (strings.mapBytes strings.lower s) = true ->
  strings.allBytes strings.isASCII s = true.
Proof.
  induction s as [|c r IH]; intros H; simpl in *; [reflexivity|].
  apply andb_true_iff in H. destruct H as [Hc Hr].
  rewrite (lower_isASCII _ Hc), (IH Hr). reflexivity.
Qed.

Section Cascade.

Variable unicodeToLower : string -> string.
Variable afterMonth : nat -> string -> option Z.

Let status := parseStatus unicodeToLower afterMonth.

Lemma ToLower_foldsTo : forall data k,
  foldsTo data k -> strings.allBytes strings.isASCII k = true ->
  ToLower unicodeToLower data = k.
Proof.
  intros data k F A. unfold foldsTo in F. unfold ToLower.
  rewrite mapBytes_lower_isASCII by (rewrite F; assumption). assumption.
Qed.

Lemma parseStatus_one : forall data k,
  In k keywordsOne -> foldsTo data k -> status data = (float64.ofInt 1, true).
Proof.
  intros data k Hk F. unfold status, parseStatus.
  simpl in Hk. repeat (destruct Hk as [<-|Hk]); try contradiction;
    rewrite (ToLower_foldsTo _ _ F eq_refl); reflexivity.
Qed.

Lemma parseStatus_zero : forall data k,
  In k keywordsZero -> foldsTo data k -> status data = (float64.ofInt 0, true).
Proof.
  intros data k Hk F. unfold status, parseStatus.
  simpl in Hk. repeat (destruct Hk as [<-|Hk]); try contradiction;
    rewrite (ToLower_foldsTo _ _ F eq_refl); reflexivity.
Qed.

Lemma parseStatus_timestamp : forall Y M D h m s,
  validTimestamp Y M D h m s ->
  status (timestampText Y M D h m s) = (float64.ofInt (epochSeconds Y M D h m s), true).
Proof.
  intros Y M D h m s V. unfold status, parseStatus, ToLower.
  destruct (timestampText_plain _ _ _ _ _ _ V) as [A L]. rewrite A, L.
  destruct (timestampText_first _ _ _ _ _ _ V) as (k & r & Hk & E).
  destruct (digit_first k r Hk) as (K1 & K2 & K3 & K4 & K5 & K6).
  rewrite <- E in K1, K2, K3, K4, K5, K6.
  rewrite K1, K2, K3, K4, K5.
  unfold time.Parse_Jan_02_15_04_05_2006_MST. rewrite K6.
  rewrite (Parse_timestampText _ _ _ _ _ _ V). reflexivity.
Qed.

Lemma parseStatus_no_rule : forall data,
  oneOf (ToLower unicodeToLower data) (keywordsOne ++ keywordsZero) = false ->
  time.Parse_Jan_02_15_04_05_2006_MST afterMonth data = None ->
  time.Parse_2006_01_02_15_04_05 data = None ->
  regexp.Find logRE data = None ->
  snd (strconv.ParseFloat data) <> None ->
  snd (status data) = false.
Proof.
  intros data K P1 P2 R F. unfold status, parseStatus.
  unfold oneOf in *. simpl in K.
  repeat match type of K with
         | _ || _ = false => apply orb_false_iff in K; destruct K as [? K]
         end.
  simpl existsb.
  repeat match goal with
         | H : String.eqb _ _ = false |- _ => rewrite H; clear H
         end.
  clear K. simpl orb. cbv iota. rewrite P1, P2, R.
  destruct (strconv.ParseFloat data) as [v [e|]]; [reflexivity | simpl in F; congruence].
Qed.

(** C6.  [parseStatus] returns for every text; a text that is one of
    [yes], [on], [primary] up to case gives [(1, true)] and one that is
    [no], [off], [disabled], [connecting], [non-primary] or [disconnected]
    up to case gives [(0, true)], whatever the later rules would say; the
    text ["YYYY-MM-DD HH:MM:SS"] of a valid time gives its seconds since the
    Unix epoch; a text that no rule accepts gives [ok = false]. *)
Theorem parseStatus_cascade :
  (forall data, exists v ok, status data = (v, ok)) /\
  (forall data k, In k keywordsOne -> foldsTo data k ->
     status data = (float64.ofInt 1, true)) /\
  (forall data k, In k keywordsZero -> foldsTo data k ->
     status data = (float64.ofInt 0, true)) /\
  (forall Y M D h m s, validTimestamp Y M D h m s ->
     status (timestampText Y M D h m s)
     = (float64.ofInt (epochSeconds Y M D h m s), true)) /\
  (forall data,
     oneOf (ToLower unicodeToLower data) (keywordsOne ++ keywordsZero) = false ->
     time.Parse_Jan_02_15_04_05_2006_MST afterMonth data = None ->
     time.Parse_2006_01_02_15_04_05 data = None ->
     regexp.Find logRE data = None ->
     snd (strconv.ParseFloat data) <> None ->
     snd (status data) = false) /\
  status "Yes" = (float64.ofInt 1, true) /\
  status "OFF" = (float64.ofInt 0, true) /\
  status "Connecting" = (float64.ofInt 0, true) /\
  status "2023-01-02 03:04:05" = (float64.ofInt 1672628645, true) /\
  snd (status "garbage") = false.
Proof.
  split; [intros data; destruct (status data) as [v ok]; eauto|].
  split; [exact parseStatus_one|].
  split; [exact parseStatus_zero|].
  split; [exact parseStatus_timestamp|].
  split; [exact parseStatus_no_rule|].
  repeat split; reflexivity.
Qed.

End Cascade.

Lemma parseStatus_cascade_witness :
  parseStatus (fun s => s) (fun _ _ => None) "PRIMARY" = (float64.ofInt 1, true) /\
  parseStatus (fun s => s) (fun _ _ => None) "Non-Primary" = (float64.ofInt 0, true) /\
  parseStatus (fun s => s) (fun _ _ => None) "2024-02-29 23:59:59"
    = (float64.ofInt 1709251199, true) /\
  snd (parseStatus (fun s => s) (fun _ _ => None) "garbage") = false.
Proof.
  pose proof (parseStatus_cascade (fun s => s) (fun _ _ => None)) as
    (_ & One & Zero & Stamp & NoRule & _).
  split; [apply (One "PRIMARY" "primary"); [simpl; tauto | reflexivity]|].
  split; [apply (Zero "Non-Primary" "non-primary"); [simpl; tauto | reflexivity]|].
  split.
  - apply (Stamp 2024 2 29 23 59 59). unfold validTimestamp.
    change (monthLength 2024 2) with 29. lia.
  - apply (NoRule "garbage"); try reflexivity. discriminate.
Defined.

(** ** The dotted-suffix rule of [parseStatus] *)

Lemma Find_whole : forall items data,
  regexp.matchToEnd data items = true -> regexp.Find items data = Some data.
Proof.
  intros items data H. destruct data; cbn [regexp.Find]; rewrite H; reflexivity.
Qed.

(** C3 at its failing input.  [logRE.Find] returns the whole match, not the
    group [(\d+)]: on a text that [logRE] matches from its first byte,
    [parseStatus] hands the whole text to [ParseFloat].  For
    ["binlog.000006"] the result is [(0, false)], although the suffix alone
    reads as 6. *)
Theorem parseStatus_dotted_suffix :
  forall (unicodeToLower : string -> string) (afterMonth : nat -> string -> option Z),
  (forall data,
     regexp.matchToEnd data logRE = true ->
     oneOf (ToLower unicodeToLower data) (keywordsOne ++ keywordsZero) = false ->
     time.Parse_Jan_02_15_04_05_2006_MST afterMonth data = None ->
     time.Parse_2006_01_02_15_04_05 data = None ->
     parseStatus unicodeToLower afterMonth data
     = (fst (strconv.ParseFloat data), isNil (snd (strconv.ParseFloat data)))) /\
  regexp.matchToEnd "binlog.000006" logRE = true /\
  parseStatus unicodeToLower afterMonth "binlog.000006" = (float64.zero, false) /\
  strconv.ParseFloat "000006" = (float64.ofInt 6, None).
Proof.
  intros unicodeToLower afterMonth. split; [|repeat split; reflexivity].
  intros data R K P1 P2. unfold parseStatus.
  unfold oneOf in *. simpl in K.
  repeat match type of K with
         | _ || _ = false => apply orb_false_iff in K; destruct K as [? K]
         end.
  simpl existsb.
  repeat match goal with
         | H : String.eqb _ _ = false |- _ => rewrite H; clear H
         end.
  simpl orb. cbv iota. rewrite P1, P2, (Find_whole _ _ R).
  destruct (strconv.ParseFloat data) as [v e]. reflexivity.
Qed.

Lemma parseStatus_dotted_suffix_witness :
  parseStatus (fun s => s) (fun _ _ => None) "relay-bin.000042"
  = (fst (strconv.ParseFloat "relay-bin.000042"),
     isNil (snd (strconv.ParseFloat "relay-bin.000042"))).
Proof.
  apply (proj1 (parseStatus_dotted_suffix (fun s => s) (fun _ _ => None))
           "relay-bin.000042"); reflexivity.
Defined.

(** ** The query fallback of the slave-status scraper *)

(** C4 at its failing input.  On [retryingServer] the text
    ["SHOW ALL SLAVES STATUS"] succeeds when it is tried again with the empty
    suffix; the [break] leaves the suffix loop only, so [Scrape] goes on to
    execute ["SHOW SLAVE STATUS"] and scrapes the rows of that later
    execution. *)
Theorem ScrapeSlaveStatus_runs_past_success :
  forall (unicodeToLower : string -> string) (afterMonth : nat -> string -> option Z),
  ScrapeSlaveStatus unicodeToLower afterMonth retryingServer
  = {| executed := ["SHOW ALL SLAVES STATUS";
                    "SHOW ALL SLAVES STATUS NONBLOCKING";
                    "SHOW ALL SLAVES STATUS NOLOCK";
                    "SHOW ALL SLAVES STATUS";
                    "SHOW SLAVE STATUS"];
       sent := [genericSample "seconds_behind_master" (float64.ofInt 9) [""; ""; ""; ""]];
       returned := Done |} /\
  slaveRows unicodeToLower afterMonth
    ["Connection_name"; "Seconds_Behind_Master"] (Data allSlavesRows)
  = ([genericSample "seconds_behind_master" (float64.ofInt 7) [""; ""; ""; "east"]],
     Done).
Proof. intros. split; reflexivity. Qed.

Section AllFail.

Variable db : DB.
Hypothesis fails : forall done q, exists e, db done q = inl e.

Lemma QueryContext_lastFailed : forall q st,
  lastFailed db (QueryContext db q st) /\
  texts (QueryContext db q st) = (texts st ++ [q])%list.
Proof.
  intros q st. unfold QueryContext. destruct (fails (texts st) q) as [e E].
  rewrite E. split; [|reflexivity]. exists e, (texts st), q. repeat split. exact E.
Qed.

Lemma suffixLoop_lastFailed : forall query sufs st,
  lastFailed db st ->
  lastFailed db (suffixLoop db query sufs st) /\
  texts (suffixLoop db query sufs st) = (texts st ++ map (append query) sufs)%list.
Proof.
  intros query sufs. induction sufs as [|suf sufs IH]; intros st Hst; cbn [suffixLoop map].
  - rewrite app_nil_r. split; [exact Hst | reflexivity].
  - destruct (QueryContext_lastFailed (query ++ suf) st) as [L T].
    destruct L as (e & pre & q & He & Ht & Hd). rewrite He.
    destruct (IH (QueryContext db (query ++ suf) st)) as [L' T'].
    { exists e, pre, q. repeat split; assumption. }
    split; [exact L'|]. rewrite T', T, <- app_assoc. reflexivity.
Qed.

Lemma queryLoop_lastFailed : forall queries st,
  queries <> [] \/ lastFailed db st ->
  lastFailed db (queryLoop db queries st) /\
  texts (queryLoop db queries st)
  = (texts st ++ flat_map (fun q => q :: map (append q) slaveStatusQuerySuffixes) queries)%list.
Proof.
  induction queries as [|query queries IH]; intros st Hst; cbn [queryLoop flat_map].
  - destruct Hst as [Hst|Hst]; [congruence|]. rewrite app_nil_r.
    split; [exact Hst | reflexivity].
  - destruct (QueryContext_lastFailed query st) as [L T].
    pose proof L as (e & pre & q & He & Ht & Hd). rewrite He.
    destruct (suffixLoop_lastFailed query slaveStatusQuerySuffixes _ L) as [L1 T1].
    destruct (IH (suffixLoop db query slaveStatusQuerySuffixes (QueryContext db query st))
                 (or_intror L1)) as [L2 T2].
    split; [exact L2|]. rewrite T2, T1, T. rewrite <- !app_assoc. reflexivity.
Qed.

(** When every execution fails, [Scrape] has tried the two texts, each
    followed by its three suffixed variants, and returns the error of the
    last execution. *)
Lemma ScrapeSlaveStatus_all_fail :
  forall (unicodeToLower : string -> string) (afterMonth : nat -> string -> option Z),
  exists e,
    db (removelast allTexts) (last allTexts "") = inl e /\
    ScrapeSlaveStatus unicodeToLower afterMonth db
    = {| executed := allTexts; sent := []; returned := Failed e |}.
Proof.
  intros unicodeToLower afterMonth.
  destruct (queryLoop_lastFailed slaveStatusQueries queryStart) as [L T].
  { left. discriminate. }
  destruct L as (e & pre & q & He & Ht & Hd).
  exists e. unfold ScrapeSlaveStatus. fold queryStart. rewrite He, T.
  split; [|reflexivity].
  rewrite T in Ht. change (texts queryStart ++ _)%list with allTexts in Ht.
  rewrite Ht, removelast_last, last_last. exact Hd.
Qed.

End AllFail.

(** ** The master-status scraper, end to end *)

(** C8.  On an executor that answers ["SHOW MASTER STATUS"] with the one row
    [File = "binlog.000006"], [Position = 49066], two empty columns and
    [Executed_Gtid_Set = "SID:1-261530"], [Scrape] succeeds and sends four
    gauges and nothing else: the file number 6, the position 49066, and the
    start 1 and end 261530 of the transactions of the server [SID]. *)
Theorem ScrapeMasterStatus_example : forall (db : DB) (pos : Value),
  pos = VInt 49066 \/ pos = VBytes "49066" ->
  db [] "SHOW MASTER STATUS" = inr (masterExample pos) ->
  ScrapeMasterStatus db
  = {| executed := ["SHOW MASTER STATUS"]; sent := masterExampleSent;
       returned := Done |} /\
  map (fun m => (fqName (desc m), valueType m, variableLabels (desc m), labelValues m))
      masterExampleSent
  = [ ("mysql_master_status_binlog_file_num", GaugeValue, [], []);
      ("mysql_master_status_binlog_pos", GaugeValue, [], []);
      ("mysql_master_status_executed_gtid_start", GaugeValue,
       ["executed_server_id"; "partition"], ["SID"; ""]);
      ("mysql_master_status_executed_gtid_end", GaugeValue,
       ["executed_server_id"; "partition"], ["SID"; ""]) ].
Proof.
  intros db pos Hpos Hdb. split; [|reflexivity].
  unfold ScrapeMasterStatus. change masterStatusQueries with "SHOW MASTER STATUS".
  rewrite Hdb. destruct Hpos as [-> | ->]; reflexivity.
Qed.

Lemma ScrapeMasterStatus_example_witness :
  ScrapeMasterStatus (answers "SHOW MASTER STATUS" (masterExample (VInt 49066)))
  = {| executed := ["SHOW MASTER STATUS"]; sent := masterExampleSent;
       returned := Done |}.
Proof.
  apply (ScrapeMasterStatus_example
           (answers "SHOW MASTER STATUS" (masterExample (VInt 49066))) (VInt 49066)).
  - left. reflexivity.
  - reflexivity.
Defined.

(** ** The labels of the slave-status samples *)

Lemma columnIndexFrom_ge : forall cols name idx,
  0 <= idx -> columnIndexFrom cols name idx = -1 \/ idx <= columnIndexFrom cols name idx.
Proof.
  induction cols as [|c cols IH]; intros name idx H; simpl; [left; reflexivity|].
  destruct (String.eqb c name); [right; lia|].
  destruct (IH name (idx + 1) ltac:(lia)) as [E|E]; [left; assumption | right; lia].
Qed.

Lemma columnIndexFrom_absent : forall cols name idx,
  ~ In name cols -> columnIndexFrom cols name idx = -1.
Proof.
  induction cols as [|c cols IH]; intros name idx H; simpl; [reflexivity|].
  destruct (String.eqb_spec c name) as [->|N].
  - exfalso. apply H. left. reflexivity.
  - apply IH. intros I. apply H. right. assumption.
Qed.

Lemma columnValue_from : forall cols vals name pre,
  List.length cols = List.length vals ->
  (if columnIndexFrom cols name (Z.of_nat (List.length pre)) =? -1 then Val ""
   else at_index (pre ++ vals)
          (Z.to_nat (columnIndexFrom cols name (Z.of_nat (List.length pre)))))
  = Val (labelOf cols vals name).
Proof.
  induction cols as [|c cols IH]; intros vals name pre H; destruct vals as [|v vals];
    try discriminate; [reflexivity|].
  simpl in H. injection H as H. cbn [columnIndexFrom labelOf].
  destruct (String.eqb c name).
  - destruct (Z.of_nat (List.length pre) =? -1) eqn:E; [apply Z.eqb_eq in E; lia|].
    rewrite Nat2Z.id. unfold at_index. rewrite nth_error_app2 by lia.
    rewrite Nat.sub_diag. reflexivity.
  - specialize (IH vals name (pre ++ [v])%list H).
    rewrite length_app in IH. simpl List.length in IH.
    rewrite Nat2Z.inj_add in IH. simpl Z.of_nat in IH.
    rewrite <- app_assoc in IH. exact IH.
Qed.

Lemma columnValue_labelOf : forall cols vals name,
  List.length cols = List.length vals ->
  columnValue vals cols name = Val (labelOf cols vals name).
Proof.
  intros cols vals name H. unfold columnValue, columnIndex.
  exact (columnValue_from cols vals name [] H).
Qed.

Lemma labelOf_absent : forall cols vals name,
  ~ In name cols -> labelOf cols vals name = "".
Proof.
  induction cols as [|c cols IH]; intros vals name H; simpl; [reflexivity|].
  destruct vals as [|v vals]; [reflexivity|].
  destruct (String.eqb_spec c name) as [->|N].
  - exfalso. apply H. left. reflexivity.
  - apply IH. intros I. apply H. right. assumption.
Qed.

(** ** Building and sending a sample *)

Lemma MustNewConstMetric_cases : forall d vt v labels,
  MustNewConstMetric d vt v labels
  = if isNil (descErr d) && validateLabelValues labels (List.length (variableLabels d))
    then Return (constMetric d vt v labels) else Panic.
Proof.
  intros d vt v labels. unfold MustNewConstMetric, NewConstMetric.
  destruct (descErr d); cbn [isNil andb]; [reflexivity|].
  destruct (validateLabelValues _ _); reflexivity.
Qed.

Lemma send_In : forall d vt v labels m,
  In m (fst (send (MustNewConstMetric d vt v labels))) -> m = constMetric d vt v labels.
Proof.
  intros d vt v labels m H. rewrite MustNewConstMetric_cases in H.
  destruct (_ && _); cbn [send fst In] in H; [|contradiction].
  destruct H as [<-|[]]. reflexivity.
Qed.

Lemma andNext_In : forall a b m,
  In m (fst (andNext a b)) -> In m (fst a) \/ In m (fst b).
Proof.
  intros [ms st] [ms' st'] m H. destruct st; cbn [andNext fst] in *.
  - apply in_app_or in H. exact H.
  - left. exact H.
  - left. exact H.
Qed.

Lemma validateLabelValues_app : forall l extra n,
  validateLabelValues (rowLabelValues l ++ extra) n
  = validLabels l &&
    ((4 + List.length extra =? n)%nat && forallb utf8.ValidString extra).
Proof.
  intros l extra n. unfold validateLabelValues, validLabels.
  rewrite forallb_app, length_app.
  change (List.length (rowLabelValues l)) with 4%nat.
  destruct (4 + List.length extra =? n)%nat,
    (forallb utf8.ValidString (rowLabelValues l)),
    (forallb utf8.ValidString extra); reflexivity.
Qed.

Lemma send_any_label : forall d vt v l l' extra,
  validLabels l = validLabels l' ->
  map unlabelled (fst (send (MustNewConstMetric d vt v (rowLabelValues l ++ extra))))
  = map unlabelled (fst (send (MustNewConstMetric d vt v (rowLabelValues l' ++ extra)))) /\
  snd (send (MustNewConstMetric d vt v (rowLabelValues l ++ extra)))
  = snd (send (MustNewConstMetric d vt v (rowLabelValues l' ++ extra))).
Proof.
  intros d vt v l l' extra H. rewrite !MustNewConstMetric_cases.
  rewrite !validateLabelValues_app, H.
  destruct (isNil (descErr d) && _); split; reflexivity.
Qed.

Lemma validateLabelValues_row : forall l,
  validateLabelValues (rowLabelValues l) 4 = validLabels l.
Proof. intros l. reflexivity. Qed.

(** A sample that carries the four labels of a row, on a descriptor without
    error: it is sent when the label values are valid UTF-8, and building it
    panics otherwise. *)
Lemma send_row_sample : forall d vt v l,
  descErr d = None -> List.length (variableLabels d) = 4%nat ->
  send (MustNewConstMetric d vt v (rowLabelValues l))
  = if validLabels l then ([constMetric d vt v (rowLabelValues l)], Done)
    else ([], Panicked).
Proof.
  intros d vt v l Hd Hn. rewrite MustNewConstMetric_cases, Hd, Hn.
  rewrite validateLabelValues_row. cbn [isNil andb].
  destruct (validLabels l); reflexivity.
Qed.

Lemma andNext_alike : forall a a' b b',
  map unlabelled (fst a) = map unlabelled (fst a') /\ snd a = snd a' ->
  map unlabelled (fst b) = map unlabelled (fst b') /\ snd b = snd b' ->
  map unlabelled (fst (andNext a b)) = map unlabelled (fst (andNext a' b')) /\
  snd (andNext a b) = snd (andNext a' b').
Proof.
  intros [ms st] [ms2 st2] [ns nt] [ns2 nt2] [Hm Hs] [Hn Ht].
  cbn [fst snd] in *. subst st2 nt2.
  destruct st; cbn [andNext fst snd]; try (split; [exact Hm | reflexivity]).
  rewrite !map_app, Hm, Hn. split; reflexivity.
Qed.

Section SlaveLabels.

Variable unicodeToLower : string -> string.
Variable afterMonth : nat -> string -> option Z.

Let column := slaveColumn unicodeToLower afterMonth.
Let columns := columnLoop unicodeToLower afterMonth.

Lemma gtidLoop_labels : forall l col gs m,
  In m (fst (gtidLoop unicodeToLower l col gs)) ->
  firstn 4 (labelValues m) = rowLabelValues l.
Proof.
  intros l col gs m. induction gs as [|g gs IH]; intros H; [contradiction|].
  cbn [gtidLoop] in H. apply andNext_In in H. destruct H as [H|H]; [|exact (IH H)].
  unfold gtidMetrics in H. apply andNext_In in H.
  destruct H as [H|H]; apply send_In in H; subst m; reflexivity.
Qed.

Lemma slaveColumn_labels : forall l col raw m,
  In m (fst (column l col raw)) -> firstn 4 (labelValues m) = rowLabelValues l.
Proof.
  intros l col raw m H. unfold column, slaveColumn in H.
  destruct (String.eqb col "Executed_Gtid_Set").
  - destruct (ParseGTID raw) as [[gs [e|]]|]; try contradiction.
    exact (gtidLoop_labels _ _ _ _ H).
  - destruct (_ || _).
    + destruct (_ <? _)%nat; [contradiction|].
      destruct (nth_error _ 1); [|contradiction].
      destruct (strconv.ParseFloat s) as [v [e|]]; [contradiction|].
      apply send_In in H. subst m. reflexivity.
    + destruct (parseStatus _ _ raw) as [v [|]]; [|contradiction].
      apply send_In in H. subst m. reflexivity.
Qed.

Lemma gtidLoop_any_label : forall l l' col gs,
  validLabels l = validLabels l' ->
  map unlabelled (fst (gtidLoop unicodeToLower l col gs))
  = map unlabelled (fst (gtidLoop unicodeToLower l' col gs)) /\
  snd (gtidLoop unicodeToLower l col gs) = snd (gtidLoop unicodeToLower l' col gs).
Proof.
  intros l l' col gs V. induction gs as [|g gs IH]; [split; reflexivity|].
  cbn [gtidLoop]. apply andNext_alike; [|exact IH].
  unfold gtidMetrics. apply andNext_alike; apply send_any_label; exact V.
Qed.

Lemma slaveColumn_any_label : forall l l' col raw,
  validLabels l = validLabels l' ->
  map unlabelled (fst (column l col raw)) = map unlabelled (fst (column l' col raw)) /\
  snd (column l col raw) = snd (column l' col raw).
Proof.
  intros l l' col raw V. unfold column, slaveColumn.
  destruct (String.eqb col "Executed_Gtid_Set").
  - destruct (ParseGTID raw) as [[gs [e|]]|]; try (split; reflexivity).
    apply gtidLoop_any_label. exact V.
  - destruct (_ || _).
    + destruct (_ <? _)%nat; [split; reflexivity|].
      destruct (nth_error _ 1); [|split; reflexivity].
      destruct (strconv.ParseFloat s) as [v [e|]]; [split; reflexivity|].
      exact (send_any_label _ _ _ l l' [] V).
    + destruct (parseStatus _ _ raw) as [v [|]]; [|split; reflexivity].
      exact (send_any_label _ _ _ l l' [] V).
Qed.

Lemma columnLoop_labels : forall l args cols i m,
  In m (fst (columns l args i cols)) -> firstn 4 (labelValues m) = rowLabelValues l.
Proof.
  intros l args cols. induction cols as [|col cols IH]; intros i m H.
  - contradiction.
  - unfold columns in H. cbn [columnLoop] in H.
    destruct (nth_error args i) as [raw|]; [|contradiction].
    pose proof (slaveColumn_labels l col raw m) as Hc. unfold column in Hc.
    destruct (slaveColumn unicodeToLower afterMonth l col raw) as [ms st].
    destruct st.
    + specialize (IH (S i) m). unfold columns in IH.
      destruct (columnLoop unicodeToLower afterMonth l args (S i) cols) as [ms' st'].
      simpl in H. apply in_app_or in H. destruct H as [H|H]; [apply Hc | apply IH]; exact H.
    + apply Hc. exact H.
    + apply Hc. exact H.
Qed.

Lemma columnLoop_any_label : forall l l' args cols i,
  validLabels l = validLabels l' ->
  map unlabelled (fst (columns l args i cols))
  = map unlabelled (fst (columns l' args i cols)) /\
  snd (columns l args i cols) = snd (columns l' args i cols).
Proof.
  intros l l' args cols i V. revert i. induction cols as [|col cols IH]; intros i.
  - split; reflexivity.
  - unfold columns. cbn [columnLoop].
    destruct (nth_error args i) as [raw|]; [|split; reflexivity].
    destruct (slaveColumn_any_label l l' col raw V) as [Hm Hs]. unfold column in Hm, Hs.
    destruct (slaveColumn unicodeToLower afterMonth l col raw) as [ms st].
    destruct (slaveColumn unicodeToLower afterMonth l' col raw) as [ms2 st2].
    simpl in Hm, Hs. subst st2.
    destruct st; try (split; [exact Hm | reflexivity]).
    destruct (IH (S i)) as [IHm IHs]. unfold columns in IHm, IHs.
    destruct (columnLoop unicodeToLower afterMonth l args (S i) cols) as [ms' st'].
    destruct (columnLoop unicodeToLower afterMonth l' args (S i) cols) as [ms2' st2'].
    simpl in *. rewrite !map_app, Hm, IHm. split; [reflexivity | exact IHs].
Qed.

(** C9.  For a row that [Scan] accepts, the four label values are looked up
    once, by column name, before the columns are visited; every sample sent
    for the row begins with these four values; a column that the row does
    not have gives the empty string, which is valid UTF-8; and among label
    values that are valid UTF-8 (the client library panics on others when a
    sample is built) the labels change neither how the visit of the columns
    ends nor which samples it sends, so an absent label column skips nothing
    and raises nothing. *)
Theorem slaveRow_labels : forall slaveCols row,
  List.length slaveCols = List.length row ->
  let scanArgs := map scanRawBytes row in
  let l := {| masterHost := labelOf slaveCols scanArgs "Master_Host";
              masterUUID := labelOf slaveCols scanArgs "Master_UUID";
              channelName := labelOf slaveCols scanArgs "Channel_Name";
              connectionName := labelOf slaveCols scanArgs "Connection_name" |} in
  slaveRow unicodeToLower afterMonth slaveCols row = columns l scanArgs 0%nat slaveCols /\
  (forall m, In m (fst (slaveRow unicodeToLower afterMonth slaveCols row)) ->
     firstn 4 (labelValues m) = rowLabelValues l) /\
  (forall name, ~ In name slaveCols ->
     labelOf slaveCols scanArgs name = "" /\
     utf8.ValidString (labelOf slaveCols scanArgs name) = true) /\
  (forall l', validLabels l = validLabels l' ->
     map unlabelled (fst (columns l scanArgs 0%nat slaveCols))
     = map unlabelled (fst (columns l' scanArgs 0%nat slaveCols)) /\
     snd (columns l scanArgs 0%nat slaveCols) = snd (columns l' scanArgs 0%nat slaveCols)).
Proof.
  intros slaveCols row H scanArgs l.
  assert (E : slaveRow unicodeToLower afterMonth slaveCols row
              = columns l scanArgs 0%nat slaveCols).
  { unfold slaveRow. rewrite H, Nat.eqb_refl. cbn [negb].
    assert (H' : List.length slaveCols = List.length (map scanRawBytes row))
      by (rewrite length_map; exact H).
    rewrite !(columnValue_labelOf _ _ _ H'). reflexivity. }
  split; [exact E|]. split; [|split].
  - intros m Hm. rewrite E in Hm. exact (columnLoop_labels _ _ _ _ _ Hm).
  - intros name Hn. rewrite (labelOf_absent _ _ _ Hn). split; reflexivity.
  - intros l' V. apply columnLoop_any_label. exact V.
Qed.

End SlaveLabels.

(** ** The log-file columns *)

Lemma Split_two : forall a b sep,
  occurs sep a = false -> occurs sep b = false ->
  strings.Split (a ++ String sep b) sep = [a; b].
Proof.
  intros a b sep Ha Hb. rewrite (Split_app _ _ _ Ha), (Split_absent _ _ Hb). reflexivity.
Qed.

Lemma masterFile_two : forall v a b,
  filename v = a ++ String "." b -> occurs "." a = false -> occurs "." b = false ->
  masterFile v =
  match strconv.ParseFloat b with
  | (x, None) => (masterFileSamples x (position v), Done)
  | (_, Some e) => ([], Failed (ErrNum e))
  end.
Proof.
  intros v a b E Ha Hb. unfold masterFile. rewrite E, (Split_two _ _ _ Ha Hb).
  replace (isEmpty (a ++ String "." b)) with false by (destruct a; reflexivity).
  cbn [negb List.length Nat.ltb Nat.leb nth_error].
  destruct (strconv.ParseFloat b) as [x [e|]]; reflexivity.
Qed.

Lemma masterFile_no_dot : forall v,
  filename v <> "" -> occurs "." (filename v) = false ->
  masterFile v = ([], Failed (ErrSplitNotEnough (filename v))).
Proof.
  intros v Hne Hd. unfold masterFile. rewrite (Split_absent _ _ Hd).
  destruct (filename v); [congruence | reflexivity].
Qed.

Lemma masterFile_empty : forall v, filename v = "" -> masterFile v = ([], Done).
Proof. intros v E. unfold masterFile. rewrite E. reflexivity. Qed.

Lemma ScrapeMasterStatus_file_fails : forall (db : DB) rows cols v ms e,
  db [] "SHOW MASTER STATUS" = inr rows -> Columns rows = inr cols ->
  masterRows (List.length cols) (Data rows) noVars = Val v ->
  masterFile v = (ms, Failed e) ->
  ScrapeMasterStatus db
  = {| executed := ["SHOW MASTER STATUS"]; sent := ms; returned := Failed e |}.
Proof.
  intros db rows cols v ms e Hdb Hc Hr Hf. unfold ScrapeMasterStatus.
  change masterStatusQueries with "SHOW MASTER STATUS". rewrite Hdb, Hc.
  fold noVars. rewrite Hr, Hf. reflexivity.
Qed.

Section LogFile.

Variable unicodeToLower : string -> string.
Variable afterMonth : nat -> string -> option Z.

Let column := slaveColumn unicodeToLower afterMonth.
Let columns := columnLoop unicodeToLower afterMonth.
Let row := slaveRow unicodeToLower afterMonth.
Let rows := slaveRows unicodeToLower afterMonth.

Lemma slaveColumn_two : forall l col a b,
  In col logFileColumns -> occurs "." a = false -> occurs "." b = false ->
  column l col (a ++ String "." b) =
  match strconv.ParseFloat b with
  | (x, None) =>
      if validLabels l then ([logFileSample (rowLabelValues l) col x], Done)
      else ([], Panicked)
  | (_, Some e) => ([], Failed (ErrNum e))
  end.
Proof.
  intros l col a b Hc Ha Hb. unfold column, slaveColumn.
  rewrite (Split_two _ _ _ Ha Hb).
  simpl in Hc. destruct Hc as [<-|[<-|[]]];
    cbn [String.eqb Ascii.eqb Bool.eqb andb orb List.length Nat.ltb Nat.leb nth_error];
    destruct (strconv.ParseFloat b) as [x [e|]]; try reflexivity;
    rewrite send_row_sample by reflexivity; reflexivity.
Qed.

Lemma slaveColumn_no_dot : forall l col raw,
  In col logFileColumns -> occurs "." raw = false ->
  column l col raw = ([], Failed (ErrSplitNotEnough raw)).
Proof.
  intros l col raw Hc Hd. unfold column, slaveColumn. rewrite (Split_absent _ _ Hd).
  simpl in Hc. destruct Hc as [<-|[<-|[]]]; reflexivity.
Qed.

Lemma columnLoop_fails : forall l args pre col post i ms raw ms' e,
  columns l args i pre = (ms, Done) ->
  nth_error args (i + List.length pre) = Some raw ->
  column l col raw = (ms', Failed e) ->
  columns l args i (pre ++ col :: post) = ((ms ++ ms')%list, Failed e).
Proof.
  intros l args pre col post. unfold columns, column.
  induction pre as [|c pre IH]; intros i ms raw ms' e Hpre Hraw Hcol.
  - simpl in Hpre. injection Hpre as <-. rewrite Nat.add_0_r in Hraw.
    cbn [app columnLoop]. rewrite Hraw, Hcol. reflexivity.
  - cbn [app columnLoop] in *.
    destruct (nth_error args i) as [r|]; [|discriminate].
    destruct (slaveColumn unicodeToLower afterMonth l c r) as [m1 s1].
    destruct s1; try discriminate.
    destruct (columnLoop unicodeToLower afterMonth l args (S i) pre) as [m2 s2] eqn:E2.
    injection Hpre as <- ->.
    rewrite (IH (S i) m2 raw ms' e E2);
      [|simpl in Hraw; rewrite <- Hraw; f_equal; lia | exact Hcol].
    rewrite app_assoc. reflexivity.
Qed.

Lemma slaveRows_fails : forall cols pre r post ms ms' e,
  rows cols pre = (ms, Done) -> row cols r = (ms', Failed e) ->
  rows cols (pre ++ r :: post) = ((ms ++ ms')%list, Failed e).
Proof.
  intros cols pre r post. unfold rows, row.
  induction pre as [|p pre IH]; intros ms ms' e Hpre Hr.
  - simpl in Hpre. injection Hpre as <-. cbn [app slaveRows]. rewrite Hr. reflexivity.
  - cbn [app slaveRows] in *.
    destruct (slaveRow unicodeToLower afterMonth cols p) as [m1 s1].
    destruct s1; try discriminate.
    destruct (slaveRows unicodeToLower afterMonth cols pre) as [m2 s2] eqn:E2.
    injection Hpre as <- ->. rewrite (IH m2 ms' e eq_refl Hr), app_assoc. reflexivity.
Qed.

Lemma ScrapeSlaveStatus_rows : forall (db : DB) rs cols,
  err (queryLoop db slaveStatusQueries queryStart) = None ->
  slaveStatusRows (queryLoop db slaveStatusQueries queryStart) = Some rs ->
  Columns rs = inr cols ->
  sent (ScrapeSlaveStatus unicodeToLower afterMonth db) = fst (rows cols (Data rs)) /\
  returned (ScrapeSlaveStatus unicodeToLower afterMonth db) = snd (rows cols (Data rs)).
Proof.
  intros db rs cols He Hr Hc. unfold ScrapeSlaveStatus. fold queryStart.
  rewrite He, Hr, Hc. unfold rows.
  destruct (slaveRows unicodeToLower afterMonth cols (Data rs)). split; reflexivity.
Qed.

(** C7, as the code has it.  In the slave-status scraper a log-file column
    whose text has two segments around one dot sends one sample, whose value
    is the last segment as [ParseFloat] reads it, or fails with the error of
    [ParseFloat]; the sample is sent when the four label values of the row
    are valid UTF-8, and building it panics when they are not.  A text
    without a dot fails; a column that fails ends the
    visit of its row and of the rows, and [Scrape] returns that error with
    the samples sent before it.  The master-status scraper does the same
    with a non-empty file name, failing before it has sent anything; an empty
    file name sends no file sample and is no error. *)
Theorem logFile_columns :
  (forall l col a b,
     In col logFileColumns -> occurs "." a = false -> occurs "." b = false ->
     column l col (a ++ String "." b) =
     match strconv.ParseFloat b with
     | (x, None) =>
         if validLabels l then ([logFileSample (rowLabelValues l) col x], Done)
         else ([], Panicked)
     | (_, Some e) => ([], Failed (ErrNum e))
     end) /\
  (forall l col raw,
     In col logFileColumns -> occurs "." raw = false ->
     column l col raw = ([], Failed (ErrSplitNotEnough raw))) /\
  (forall l args pre col post i ms raw ms' e,
     columns l args i pre = (ms, Done) ->
     nth_error args (i + List.length pre) = Some raw ->
     column l col raw = (ms', Failed e) ->
     columns l args i (pre ++ col :: post) = ((ms ++ ms')%list, Failed e)) /\
  (forall cols pre r post ms ms' e,
     rows cols pre = (ms, Done) -> row cols r = (ms', Failed e) ->
     rows cols (pre ++ r :: post) = ((ms ++ ms')%list, Failed e)) /\
  (forall (db : DB) rs cols,
     err (queryLoop db slaveStatusQueries queryStart) = None ->
     slaveStatusRows (queryLoop db slaveStatusQueries queryStart) = Some rs ->
     Columns rs = inr cols ->
     sent (ScrapeSlaveStatus unicodeToLower afterMonth db) = fst (rows cols (Data rs)) /\
     returned (ScrapeSlaveStatus unicodeToLower afterMonth db) = snd (rows cols (Data rs))) /\
  (forall v a b,
     filename v = a ++ String "." b -> occurs "." a = false -> occurs "." b = false ->
     masterFile v =
     match strconv.ParseFloat b with
     | (x, None) => (masterFileSamples x (position v), Done)
     | (_, Some e) => ([], Failed (ErrNum e))
     end) /\
  (forall v,
     filename v <> "" -> occurs "." (filename v) = false ->
     masterFile v = ([], Failed (ErrSplitNotEnough (filename v)))) /\
  (forall v, filename v = "" -> masterFile v = ([], Done)) /\
  (forall (db : DB) rs cols v ms e,
     db [] "SHOW MASTER STATUS" = inr rs -> Columns rs = inr cols ->
     masterRows (List.length cols) (Data rs) noVars = Val v ->
     masterFile v = (ms, Failed e) ->
     ScrapeMasterStatus db
     = {| executed := ["SHOW MASTER STATUS"]; sent := ms; returned := Failed e |}).
Proof.
  split; [exact slaveColumn_two|].
  split; [exact slaveColumn_no_dot|].
  split; [exact columnLoop_fails|].
  split; [exact slaveRows_fails|].
  split; [exact ScrapeSlaveStatus_rows|].
  split; [exact masterFile_two|].
  split; [exact masterFile_no_dot|].
  split; [exact masterFile_empty|].
  exact ScrapeMasterStatus_file_fails.
Qed.

End LogFile.

Lemma logFile_columns_witness :
  slaveColumn (fun s => s) (fun _ _ => None)
    {| masterHost := "db1"; masterUUID := ""; channelName := ""; connectionName := "" |}
    "Master_Log_File" ("mysql-bin" ++ String "." "000042")
  = ([logFileSample ["db1"; ""; ""; ""] "Master_Log_File" (float64.ofInt 42)], Done) /\
  ScrapeMasterStatus (answers "SHOW MASTER STATUS" noDotMaster)
  = {| executed := ["SHOW MASTER STATUS"]; sent := [];
       returned := Failed (ErrSplitNotEnough "binlog") |}.
Proof.
  pose proof (logFile_columns (fun s => s) (fun _ _ => None)) as
    (Two & _ & _ & _ & _ & _ & _ & _ & Fails).
  split.
  - apply (Two {| masterHost := "db1"; masterUUID := ""; channelName := "";
                  connectionName := "" |} "Master_Log_File" "mysql-bin" "000042");
      [left; reflexivity | reflexivity | reflexivity].
  - apply (Fails (answers "SHOW MASTER STATUS" noDotMaster) noDotMaster masterColumns
             {| filename := "binlog"; position := 4; binlogDoDb := "";
                binlogIgnoreDb := ""; executedGTidSet := "SID:1-5" |});
      reflexivity.
Defined.

(** C7, as the specification words it, fails twice.  The master-status scraper
    takes an empty file name, which has fewer than two segments, without an
    error.  And both scrapers read the second segment, not the last: for
    ["bin.5.old"] the sample has the value 5, although the last segment is no
    number. *)
Lemma logFile_not_last_segment :
  ScrapeMasterStatus (answers "SHOW MASTER STATUS" emptyFileMaster)
  = {| executed := ["SHOW MASTER STATUS"]; sent := []; returned := Done |} /\
  strings.Split "" "." = [""] /\
  ScrapeSlaveStatus (fun s => s) (fun _ _ => None)
    (answers "SHOW ALL SLAVES STATUS" threeSegments)
  = {| executed := ["SHOW ALL SLAVES STATUS"];
       sent := [logFileSample [""; ""; ""; ""] "Master_Log_File" (float64.ofInt 5)];
       returned := Done |} /\
  strings.Split "bin.5.old" "." = ["bin"; "5"; "old"] /\
  snd (strconv.ParseFloat "old")
  = Some (strconv.numError "ParseFloat" "old" strconv.ErrSyntax).
Proof. repeat split. Qed.

Lemma slaveRow_labels_witness :
  slaveRow (fun s => s) (fun _ _ => None)
    ["Master_Host"; "Seconds_Behind_Master"] [VBytes "db1"; VBytes "7"]
  = ([genericSample "seconds_behind_master" (float64.ofInt 7) ["db1"; ""; ""; ""]], Done).
Proof.
  rewrite (proj1 (slaveRow_labels (fun s => s) (fun _ _ => None)
                    ["Master_Host"; "Seconds_Behind_Master"]
                    [VBytes "db1"; VBytes "7"] eq_refl)).
  reflexivity.
Defined.

(** * Further properties of the code *)

(** ** [columnIndex] *)

Lemma columnIndexFrom_first : forall cols name idx,
  In name cols ->
  exists i,
    columnIndexFrom cols name idx = idx + Z.of_nat i /\
    nth_error cols i = Some name /\
    forall j, (j < i)%nat -> nth_error cols j <> Some name.
Proof.
  induction cols as [|c cols IH]; intros name idx H; [contradiction|].
  cbn [columnIndexFrom]. destruct (String.eqb_spec c name) as [->|N].
  - exists 0%nat. split; [lia|]. split; [reflexivity|]. intros j Hj. lia.
  - destruct H as [H|H]; [congruence|].
    destruct (IH name (idx + 1) H) as (i & Hi & Hn & Hl).
    exists (S i). split; [lia|]. split; [exact Hn|].
    intros [|j] Hj; simpl; [congruence | apply Hl; lia].
Qed.

(** X1.  [columnIndex] returns [-1] exactly when no column has the name;
    otherwise it returns the least index at which the name stands, which is
    within the columns. *)
Theorem columnIndex_first : forall cols name,
  (columnIndex cols name = -1 <-> ~ In name cols) /\
  (In name cols ->
   exists i,
     columnIndex cols name = Z.of_nat i /\
     (i < List.length cols)%nat /\
     nth_error cols i = Some name /\
     forall j, (j < i)%nat -> nth_error cols j <> Some name).
Proof.
  intros cols name. unfold columnIndex.
  assert (F : In name cols ->
              exists i, columnIndexFrom cols name 0 = Z.of_nat i /\
                (i < List.length cols)%nat /\ nth_error cols i = Some name /\
                forall j, (j < i)%nat -> nth_error cols j <> Some name).
  { intros H. destruct (columnIndexFrom_first cols name 0 H) as (i & Hi & Hn & Hl).
    exists i. repeat split; try assumption.
    apply nth_error_Some. congruence. }
  split; [|exact F]. split.
  - intros E I. destruct (F I) as (i & Hi & _). lia.
  - apply columnIndexFrom_absent.
Qed.

Lemma columnIndex_first_witness :
  exists i,
    columnIndex ["Master_Host"; "Channel_Name"; "Master_Host"] "Channel_Name" = Z.of_nat i /\
    (i < 3)%nat /\
    nth_error ["Master_Host"; "Channel_Name"; "Master_Host"] i = Some "Channel_Name" /\
    forall j, (j < i)%nat ->
      nth_error ["Master_Host"; "Channel_Name"; "Master_Host"] j <> Some "Channel_Name".
Proof.
  apply (proj2 (columnIndex_first ["Master_Host"; "Channel_Name"; "Master_Host"]
                  "Channel_Name")).
  simpl. tauto.
Defined.

(** ** [ParseGTID]: texts joined by a comma *)

Lemma Split_append : forall a b sep,
  strings.Split (a ++ String sep b) sep
  = (strings.Split a sep ++ strings.Split b sep)%list.
Proof.
  induction a as [|c r IH]; intros b sep; simpl.
  - rewrite Ascii.eqb_refl. reflexivity.
  - rewrite IH. destruct (Ascii.eqb c sep); [reflexivity|].
    pose proof (Split_not_nil r sep).
    destruct (strings.Split r sep); [congruence | reflexivity].
Qed.

Lemma itemBody_from_nil : forall item res,
  itemBody item res =
  match itemBody item [] with
  | Val gs => Val (res ++ gs)%list
  | Raise e => Raise e
  | Crash => Crash
  end.
Proof.
  intros item res. unfold itemBody.
  destruct (List.length (strings.Split (strings.TrimSpace item) ":") <? 2)%nat;
    [reflexivity|].
  destruct (at_index (strings.Split (strings.TrimSpace item) ":") 0) as [sid| |];
    cbn [andThen]; try reflexivity.
  destruct (rangeLoop _ _ _) as [[t g]| |]; cbn [andThen]; try reflexivity.
  destruct (at_index (Transactions (snd (t, g))) 0); reflexivity.
Qed.

Lemma itemLoop_from_nil : forall items res,
  itemLoop items res =
  match itemLoop items [] with
  | Val gs => Val (res ++ gs)%list
  | Raise e => Raise e
  | Crash => Crash
  end.
Proof.
  induction items as [|item items IH]; intros res; cbn [itemLoop].
  - rewrite app_nil_r. reflexivity.
  - rewrite (itemBody_from_nil item res).
    destruct (itemBody item []) as [g1| |]; cbn [andThen]; try reflexivity.
    rewrite (IH (res ++ g1)%list), (IH g1).
    destruct (itemLoop items []); try reflexivity. rewrite app_assoc. reflexivity.
Qed.

Lemma itemLoop_app : forall l1 l2 res,
  itemLoop (l1 ++ l2) res = andThen (itemLoop l1 res) (itemLoop l2).
Proof.
  induction l1 as [|item l1 IH]; intros l2 res; cbn [app itemLoop andThen].
  - reflexivity.
  - destruct (itemBody item res); cbn [andThen]; [apply IH | reflexivity | reflexivity].
Qed.

(** X2.  Parsing two texts joined by a comma: when both parse, the result is
    the sets of the first followed by those of the second; when the first
    fails, its error is returned, whatever the second; when only the second
    fails, its error is returned and no set of the first. *)
Theorem ParseGTID_comma : forall a b,
  ParseGTID (a ++ String "," b) =
  match ParseGTID a, ParseGTID b with
  | Return (ra, None), Return (rb, None) => Return ((ra ++ rb)%list, None)
  | Return (_, Some e), _ => Return ([], Some e)
  | Return (_, None), Return (_, Some e) => Return ([], Some e)
  | _, _ => Panic
  end.
Proof.
  intros a b. unfold ParseGTID. rewrite Split_append, itemLoop_app.
  destruct (itemLoop (strings.Split a ",") []) as [ra|e|]; cbn [andThen];
    try reflexivity.
  rewrite itemLoop_from_nil.
  destruct (itemLoop (strings.Split b ",") []) as [rb|e|]; reflexivity.
Qed.

(** ** [ParseGTID]: the shape of what it returns *)

Lemma occurs_rev_append : forall c s acc,
  occurs c (strings.rev_append s acc) = occurs c s || occurs c acc.
Proof.
  induction s as [|d r IH]; intros acc; simpl; [reflexivity|].
  rewrite IH. simpl. destruct (Ascii.eqb d c), (occurs c r), (occurs c acc); reflexivity.
Qed.

Lemma occurs_rev : forall c s, occurs c (strings.rev s) = occurs c s.
Proof. intros. unfold strings.rev. rewrite occurs_rev_append. simpl. apply orb_false_r. Qed.

Lemma occurs_tail : forall c d r, occurs c r = true -> occurs c (String d r) = true.
Proof. intros c d r H. cbn [occurs]. rewrite H. apply orb_true_r. Qed.

Lemma occurs_TrimLeftSpace : forall c n s, (String.length s <= n)%nat ->
  occurs c (strings.TrimLeftSpace s) = true -> occurs c s = true.
Proof.
  induction n as [|n IH]; intros s Hn H.
  - destruct s; simpl in *; [discriminate | lia].
  - destruct s as [|c1 [|c2 [|c3 r3]]];
      cbn [strings.TrimLeftSpace strings.trimRev] in H; cbn [String.length] in Hn.
    + discriminate.
    + destruct (strings.asciiSpace c1); [discriminate | exact H].
    + destruct (strings.asciiSpace c1).
      * apply occurs_tail, IH; [simpl; lia | exact H].
      * destruct (strings.space2 c1 c2); [discriminate | exact H].
    + destruct (strings.asciiSpace c1).
      * apply occurs_tail, IH; [simpl; lia | exact H].
      * destruct (strings.space2 c1 c2).
        -- apply occurs_tail, occurs_tail, IH; [simpl; lia | exact H].
        -- destruct (strings.space3 c1 c2 c3); [|exact H].
           apply occurs_tail, occurs_tail, occurs_tail, IH; [lia | exact H].
Qed.

Lemma occurs_trimRev : forall c n s, (String.length s <= n)%nat ->
  occurs c (strings.trimRev s) = true -> occurs c s = true.
Proof.
  induction n as [|n IH]; intros s Hn H.
  - destruct s; simpl in *; [discriminate | lia].
  - destruct s as [|c1 [|c2 [|c3 r3]]];
      cbn [strings.TrimLeftSpace strings.trimRev] in H; cbn [String.length] in Hn.
    + discriminate.
    + destruct (strings.asciiSpace c1); [discriminate | exact H].
    + destruct (strings.asciiSpace c1).
      * apply occurs_tail, IH; [simpl; lia | exact H].
      * destruct (strings.space2 c2 c1); [discriminate | exact H].
    + destruct (strings.asciiSpace c1).
      * apply occurs_tail, IH; [simpl; lia | exact H].
      * destruct (strings.space2 c2 c1).
        -- apply occurs_tail, occurs_tail, IH; [simpl; lia | exact H].
        -- destruct (strings.space3 c3 c2 c1); [|exact H].
           apply occurs_tail, occurs_tail, occurs_tail, IH; [lia | exact H].
Qed.

(** Trimming adds no byte. *)
Lemma occurs_TrimSpace : forall c s,
  occurs c s = false -> occurs c (strings.TrimSpace s) = false.
Proof.
  intros c s H. apply not_true_is_false. intros T.
  unfold strings.TrimSpace, strings.TrimRightSpace in T. rewrite occurs_rev in T.
  apply (occurs_trimRev c _ _ (Nat.le_refl _)) in T. rewrite occurs_rev in T.
  apply (occurs_TrimLeftSpace c _ _ (Nat.le_refl _)) in T. congruence.
Qed.

(** A piece of a split holds no byte that the text does not hold. *)
Lemma Split_pieces_within : forall c s sep p,
  In p (strings.Split s sep) -> occurs c s = false -> occurs c p = false.
Proof.
  induction s as [|d r IH]; intros sep p H Hc; simpl in H.
  - destruct H as [<-|[]]. reflexivity.
  - simpl in Hc. apply orb_false_iff in Hc. destruct Hc as [Hd Hr].
    destruct (Ascii.eqb d sep).
    + destruct H as [<-|H]; [reflexivity | eauto].
    + pose proof (IH sep) as IH'.
      destruct (strings.Split r sep) as [|h t].
      * destruct H as [<-|[]]. simpl. rewrite Hd. reflexivity.
      * destruct H as [<-|H].
        -- simpl. rewrite Hd. apply IH'; [left; reflexivity | exact Hr].
        -- apply IH'; [right; exact H | exact Hr].
Qed.

Lemma parseUintLoop_nonneg : forall s acc n,
  strconv.parseUintLoop s acc = inr n -> 0 <= acc -> 0 <= n.
Proof.
  induction s as [|c r IH]; intros acc n H Ha; simpl in H.
  - injection H as <-. exact Ha.
  - destruct (strconv.isDigit c); [|discriminate].
    destruct (_ <=? acc); [discriminate|].
    destruct (_ || _); [discriminate|].
    apply (IH _ _ H). apply Z.mod_pos_bound. reflexivity.
Qed.

Lemma ParseUint_result : forall s un k,
  strconv.ParseUint s = (un, k) ->
  match k with
  | Some strconv.ErrRange => un = strconv.maxUint64
  | Some strconv.ErrSyntax => True
  | None => 0 <= un
  end.
Proof.
  intros s un k H. unfold strconv.ParseUint in H. destruct s as [|c r].
  - injection H as <- <-. exact I.
  - destruct (strconv.parseUintLoop (String c r) 0) as [e|n] eqn:E.
    + destruct e; injection H as <- <-; [exact I | reflexivity].
    + injection H as <- <-. apply (parseUintLoop_nonneg _ _ _ E). lia.
Qed.

(** [ParseInt] on a text without a dash: a success is a number that is not
    negative and fits [int64]. *)
Lemma ParseInt_no_dash : forall s n,
  strconv.ParseInt s = (n, None) -> occurs "-" s = false -> 0 <= n < 2 ^ 63.
Proof.
  intros s n H Hd. destruct s as [|c r]; [discriminate|].
  simpl in Hd. apply orb_false_iff in Hd. destruct Hd as [Hc _].
  unfold strconv.ParseInt in H. rewrite Hc in H. rewrite orb_false_r in H.
  set (s' := if Ascii.eqb c "+" then r else String c r) in H.
  destruct (strconv.ParseUint s') as [un k] eqn:E.
  pose proof (ParseUint_result _ _ _ E) as R.
  cbn [negb andb] in H.
  destruct k as [[|]|].
  - discriminate.
  - rewrite R in H. discriminate.
  - destruct (2 ^ 63 <=? un) eqn:L; [discriminate|].
    injection H as <-. apply Z.leb_gt in L. lia.
Qed.

Lemma rangeOf_bounds : forall part d,
  rangeOf part = Some d -> 0 <= Start d < 2 ^ 63 /\ 0 <= End d < 2 ^ 63.
Proof.
  intros part d H. unfold rangeOf in H.
  pose proof (Split_pieces part "-") as P.
  destruct (strings.Split part "-") as [|a [|b [|c l]]]; try discriminate.
  - destruct (strconv.ParseInt a) as [n [e|]] eqn:Ea; [discriminate|].
    injection H as <-. simpl.
    pose proof (ParseInt_no_dash a n Ea (P a (or_introl eq_refl))). tauto.
  - destruct (strconv.ParseInt a) as [n [e|]] eqn:Ea; [discriminate|].
    destruct (strconv.ParseInt b) as [m [e|]] eqn:Eb; [discriminate|].
    injection H as <-. simpl. split.
    + apply (ParseInt_no_dash a n Ea). apply P. left. reflexivity.
    + apply (ParseInt_no_dash b m Eb). apply P. right. left. reflexivity.
Qed.

(** X3.  When [ParseGTID] succeeds it returns one set per item of the text,
    in order, and for each item: the server id holds neither a comma nor a
    colon; there is one range per part after the server id; the set's
    [LastTransaction] is the end of its last range; and every bound of every
    range is at least 0 and below [2^63]. *)
Theorem ParseGTID_shape : forall s res,
  ParseGTID s = Return (res, None) ->
  Forall2
    (fun item g =>
       occurs "," (ServerId g) = false /\ occurs ":" (ServerId g) = false /\
       List.length (Transactions g) = List.length (rangeParts (strings.TrimSpace item)) /\
       LastTransaction g = End (last (Transactions g) (td 0 0)) /\
       Forall (fun d => 0 <= Start d < 2 ^ 63 /\ 0 <= End d < 2 ^ 63) (Transactions g))
    (strings.Split s ",") res.
Proof.
  intros s res H. apply ParseGTID_ok_inv in H.
  assert (C : forall item, In item (strings.Split s ",") -> occurs "," item = false)
    by (intros item Hi; apply (Split_pieces s "," item Hi)).
  induction H as [|item g items gs Hi _ IH]; constructor.
  - apply setOf_inv in Hi. destruct Hi as (sid & ds & Hs & Hds & _ & ->).
    cbn [ServerId Transactions LastTransaction].
    assert (Hin : In sid (strings.Split (strings.TrimSpace item) ":"))
      by (rewrite Hs; left; reflexivity).
    split.
    { apply (Split_pieces_within "," _ ":" sid Hin).
      apply occurs_TrimSpace. apply C. left. reflexivity. }
    split; [apply (Split_pieces _ ":" sid Hin)|].
    apply traverse_Forall2 in Hds.
    split; [symmetry; apply (Forall2_length Hds)|].
    split; [reflexivity|].
    clear -Hds. induction Hds as [|p d ps ds' Hp _ IHd]; constructor; [|exact IHd].
    apply (rangeOf_bounds p d Hp).
  - apply IH. intros it Hit. apply C. right. exact Hit.
Qed.

Lemma ParseGTID_shape_witness :
  Forall2
    (fun item g =>
       occurs "," (ServerId g) = false /\ occurs ":" (ServerId g) = false /\
       List.length (Transactions g) = List.length (rangeParts (strings.TrimSpace item)) /\
       LastTransaction g = End (last (Transactions g) (td 0 0)) /\
       Forall (fun d => 0 <= Start d < 2 ^ 63 /\ 0 <= End d < 2 ^ 63) (Transactions g))
    (strings.Split "A:1-3:7, B:+4" ",")
    [ {| ServerId := "A"; FirstTransaction := 1; LastTransaction := 7;
         Transactions := [td 1 3; td 7 7] |};
      {| ServerId := "B"; FirstTransaction := 4; LastTransaction := 4;
         Transactions := [td 4 4] |} ].
Proof.
  apply (ParseGTID_shape "A:1-3:7, B:+4"). reflexivity.
Defined.

(** ** [ParseGTID]: an item without a colon *)

(** X4.  When the first item of the text, once trimmed, holds no colon,
    [ParseGTID] returns no set and the error that names this item; the empty
    text is such a text. *)
Theorem ParseGTID_first_item_without_colon : forall s,
  occurs ":" (strings.TrimSpace (hd "" (strings.Split s ","))) = false ->
  ParseGTID s
  = Return ([], Some (ErrGtidTooLittle (strings.TrimSpace (hd "" (strings.Split s ","))))).
Proof.
  intros s H. unfold ParseGTID.
  pose proof (Split_not_nil s ",") as N.
  destruct (strings.Split s ",") as [|item items]; [congruence|].
  cbn [hd] in *. cbn [itemLoop]. unfold itemBody.
  rewrite (Split_absent _ _ H). reflexivity.
Qed.

Lemma ParseGTID_first_item_without_colon_witness :
  ParseGTID "" = Return ([], Some (ErrGtidTooLittle "")) /\
  ParseGTID "  uuid-only , B:1-5"
  = Return ([], Some (ErrGtidTooLittle "uuid-only")).
Proof.
  split.
  - apply (ParseGTID_first_item_without_colon ""). reflexivity.
  - apply (ParseGTID_first_item_without_colon "  uuid-only , B:1-5"). reflexivity.
Defined.

(** ** The query loops of the slave-status scraper *)

Lemma QueryContext_lastRun : forall db q st,
  lastRun db (QueryContext db q st) /\
  texts (QueryContext db q st) = (texts st ++ [q])%list.
Proof.
  intros db q st. unfold QueryContext, lastRun.
  destruct (db (texts st) q) as [e|rows] eqn:E; (split; [|reflexivity]);
    exists (texts st), q; cbn [texts err slaveStatusRows]; rewrite E; repeat split.
Qed.

Lemma suffixLoop_lastRun : forall db query sufs st,
  lastRun db st ->
  lastRun db (suffixLoop db query sufs st) /\
  exists k, (k <= List.length sufs)%nat /\
    texts (suffixLoop db query sufs st)
    = (texts st ++ map (append query) (firstn k sufs))%list.
Proof.
  intros db query sufs. induction sufs as [|suf sufs IH]; intros st Hst; cbn [suffixLoop].
  - split; [exact Hst|]. exists 0%nat. split; [lia|]. simpl. rewrite app_nil_r. reflexivity.
  - destruct (QueryContext_lastRun db (query ++ suf) st) as [L T].
    destruct (err (QueryContext db (query ++ suf) st)) eqn:E.
    + destruct (IH _ L) as [L' (k & Hk & T')]. split; [exact L'|].
      exists (S k). split; [simpl; lia|]. rewrite T', T, <- app_assoc. reflexivity.
    + split; [exact L|]. exists 1%nat. split; [simpl; lia|]. rewrite T. reflexivity.
Qed.

Lemma queryLoop_lastRun : forall db queries st,
  queries <> [] \/ lastRun db st ->
  lastRun db (queryLoop db queries st) /\
  exists done,
    texts (queryLoop db queries st) = (texts st ++ done)%list /\
    (List.length done <= 4 * List.length queries)%nat /\
    (queries <> [] -> hd "" done = hd "" queries) /\
    forall q, In q done ->
      In q (flat_map (fun q => q :: map (append q) slaveStatusQuerySuffixes) queries).
Proof.
  intros db queries. induction queries as [|query queries IH]; intros st Hst;
    cbn [queryLoop].
  - destruct Hst as [Hst|Hst]; [congruence|]. split; [exact Hst|].
    exists []. rewrite app_nil_r. repeat split; try (simpl; lia); try contradiction.
  - destruct (QueryContext_lastRun db query st) as [L T].
    destruct (err (QueryContext db query st)) eqn:E.
    + destruct (suffixLoop_lastRun db query slaveStatusQuerySuffixes _ L)
        as [L1 (k & Hk & T1)].
      destruct (IH _ (or_intror L1)) as [L2 (done & T2 & Hl & _ & Hin)].
      split; [exact L2|].
      exists (query :: map (append query) (firstn k slaveStatusQuerySuffixes) ++ done)%list.
      split; [rewrite T2, T1, T, <- !app_assoc; reflexivity|].
      split.
      { cbn [List.length]. rewrite length_app, length_map, length_firstn.
        simpl List.length in Hk |- *. lia. }
      split; [reflexivity|].
      intros q Hq. cbn [flat_map]. destruct Hq as [<-|Hq]; [left; reflexivity|].
      apply in_app_or in Hq. right. apply in_or_app. destruct Hq as [Hq|Hq].
      * left. apply in_map_iff in Hq. destruct Hq as (x & <- & Hx).
        apply in_map. rewrite <- (firstn_skipn k slaveStatusQuerySuffixes).
        apply in_or_app. left. exact Hx.
      * right. apply Hin. exact Hq.
    + split; [exact L|]. exists [query].
      split; [exact T|]. split; [simpl; lia|]. split; [reflexivity|].
      intros q [<-|[]]. left. reflexivity.
Qed.

(** X5.  Whatever the executor answers, [Scrape] executes at least one and
    at most eight texts, the first being ["SHOW ALL SLAVES STATUS"] and all of
    them among the two queries and their suffixed variants; what it does next
    is decided by the last execution alone: it returns the error of that
    execution, or it scrapes the rows of that execution. *)
Theorem ScrapeSlaveStatus_last_execution :
  forall (unicodeToLower : string -> string) (afterMonth : nat -> string -> option Z)
         (db : DB),
  exists pre q,
    executed (ScrapeSlaveStatus unicodeToLower afterMonth db) = (pre ++ [q])%list /\
    boundedTexts (pre ++ [q]) /\
    ScrapeSlaveStatus unicodeToLower afterMonth db =
    match db pre q with
    | inl e => {| executed := (pre ++ [q])%list; sent := []; returned := Failed e |}
    | inr rows => scrapeRows unicodeToLower afterMonth (pre ++ [q])%list rows
    end.
Proof.
  intros unicodeToLower afterMonth db.
  destruct (queryLoop_lastRun db slaveStatusQueries queryStart) as [L B].
  { left. discriminate. }
  destruct B as (done & T & Hl & Hh & Hin). destruct L as (pre & q & Hpq & R).
  cbn [texts queryStart app] in T.
  assert (Ex : forall r, executed
            match err (queryLoop db slaveStatusQueries queryStart) with
            | Some e => {| executed := texts (queryLoop db slaveStatusQueries queryStart);
                           sent := []; returned := Failed e |}
            | None => r
            end = texts (queryLoop db slaveStatusQueries queryStart) \/
            err (queryLoop db slaveStatusQueries queryStart) = None).
  { intros r. destruct (err _); [left; reflexivity | right; reflexivity]. }
  exists pre, q. rewrite <- Hpq.
  assert (Hb : boundedTexts (texts (queryLoop db slaveStatusQueries queryStart))).
  { rewrite T. split; [apply Hh; discriminate|]. split; [simpl in Hl; lia|].
    exact Hin. }
  assert (Hs : ScrapeSlaveStatus unicodeToLower afterMonth db =
               match db pre q with
               | inl e => {| executed := texts (queryLoop db slaveStatusQueries queryStart);
                             sent := []; returned := Failed e |}
               | inr rows =>
                   scrapeRows unicodeToLower afterMonth
                     (texts (queryLoop db slaveStatusQueries queryStart)) rows
               end).
  { unfold ScrapeSlaveStatus. fold queryStart.
    destruct (db pre q) as [e|rows]; destruct R as [Re Rr]; rewrite Re; [reflexivity|].
    rewrite Rr. unfold scrapeRows. destruct (Columns rows); [reflexivity|].
    destruct (slaveRows _ _ _ _). reflexivity. }
  split; [|split; [exact Hb | exact Hs]].
  rewrite Hs. destruct (db pre q); [reflexivity|].
  unfold scrapeRows. destruct (Columns r); reflexivity.
Qed.

Lemma QueryContext_inl : forall (db : DB) q st e,
  db (texts st) q = inl e ->
  QueryContext db q st
  = {| texts := (texts st ++ [q])%list; slaveStatusRows := None; err := Some e |}.
Proof. intros db q st e H. unfold QueryContext. rewrite H. reflexivity. Qed.

Lemma QueryContext_inr : forall (db : DB) q st rows,
  db (texts st) q = inr rows ->
  QueryContext db q st
  = {| texts := (texts st ++ [q])%list; slaveStatusRows := Some rows; err := None |}.
Proof. intros db q st rows H. unfold QueryContext. rewrite H. reflexivity. Qed.

Ltac run_query E :=
  match goal with
  | |- context [QueryContext ?db ?q ?st] =>
      first [ rewrite (QueryContext_inl db q st _ E)
            | rewrite (QueryContext_inr db q st _ E) ];
      unfold slaveStatusQuerySuffixes;
      cbn [err texts slaveStatusRows app suffixLoop queryLoop append]
  end.

Lemma scrape_of_state : forall unicodeToLower afterMonth (db : DB) done rows,
  queryLoop db slaveStatusQueries queryStart
  = {| texts := done; slaveStatusRows := Some rows; err := None |} ->
  ScrapeSlaveStatus unicodeToLower afterMonth db
  = scrapeRows unicodeToLower afterMonth done rows.
Proof.
  intros unicodeToLower afterMonth db done rows H.
  unfold ScrapeSlaveStatus, scrapeRows. fold queryStart. rewrite H.
  cbn [err slaveStatusRows texts].
  destruct (Columns rows); [reflexivity|]. destruct (slaveRows _ _ _ _). reflexivity.
Qed.

(** X6.  The two servers the loops are written for.  When the first
    execution succeeds (MariaDB), nothing else is executed and its rows are
    scraped.  When ["SHOW ALL SLAVES STATUS"] fails with every suffix and
    ["SHOW SLAVE STATUS"] then succeeds (MySQL, Percona), five texts are
    executed and the rows of the last one are scraped. *)
Theorem ScrapeSlaveStatus_dialects :
  forall (unicodeToLower : string -> string) (afterMonth : nat -> string -> option Z)
         (db : DB) (rows : Rows),
  (db [] "SHOW ALL SLAVES STATUS" = inr rows ->
   ScrapeSlaveStatus unicodeToLower afterMonth db
   = scrapeRows unicodeToLower afterMonth ["SHOW ALL SLAVES STATUS"] rows) /\
  ((forall done suffix, exists e, db done ("SHOW ALL SLAVES STATUS" ++ suffix) = inl e) ->
   db ["SHOW ALL SLAVES STATUS"; "SHOW ALL SLAVES STATUS NONBLOCKING";
       "SHOW ALL SLAVES STATUS NOLOCK"; "SHOW ALL SLAVES STATUS"]
      "SHOW SLAVE STATUS" = inr rows ->
   ScrapeSlaveStatus unicodeToLower afterMonth db
   = scrapeRows unicodeToLower afterMonth
       ["SHOW ALL SLAVES STATUS"; "SHOW ALL SLAVES STATUS NONBLOCKING";
        "SHOW ALL SLAVES STATUS NOLOCK"; "SHOW ALL SLAVES STATUS";
        "SHOW SLAVE STATUS"] rows).
Proof.
  intros unicodeToLower afterMonth db rows. split.
  - intros H. apply scrape_of_state.
    unfold slaveStatusQueries, queryStart. cbn [queryLoop]. run_query H. reflexivity.
  - intros F H. apply scrape_of_state.
    destruct (F [] "") as [e1 E1].
    destruct (F ["SHOW ALL SLAVES STATUS"] " NONBLOCKING") as [e2 E2].
    destruct (F ["SHOW ALL SLAVES STATUS"; "SHOW ALL SLAVES STATUS NONBLOCKING"] " NOLOCK")
      as [e3 E3].
    destruct (F ["SHOW ALL SLAVES STATUS"; "SHOW ALL SLAVES STATUS NONBLOCKING";
                 "SHOW ALL SLAVES STATUS NOLOCK"] "") as [e4 E4].
    cbn [append] in E1, E2, E3, E4.
    unfold slaveStatusQueries, slaveStatusQuerySuffixes, queryStart. cbn [queryLoop].
    run_query E1. run_query E2. run_query E3. run_query E4. run_query H. reflexivity.
Qed.

Lemma ScrapeSlaveStatus_dialects_witness :
  ScrapeSlaveStatus (fun s => s) (fun _ _ => None)
    (answers "SHOW ALL SLAVES STATUS" allSlavesRows)
  = scrapeRows (fun s => s) (fun _ _ => None) ["SHOW ALL SLAVES STATUS"] allSlavesRows /\
  ScrapeSlaveStatus (fun s => s) (fun _ _ => None) (mysqlServer slaveRowsOnly)
  = scrapeRows (fun s => s) (fun _ _ => None)
      ["SHOW ALL SLAVES STATUS"; "SHOW ALL SLAVES STATUS NONBLOCKING";
       "SHOW ALL SLAVES STATUS NOLOCK"; "SHOW ALL SLAVES STATUS";
       "SHOW SLAVE STATUS"] slaveRowsOnly.
Proof.
  split.
  - apply (proj1 (ScrapeSlaveStatus_dialects (fun s => s) (fun _ _ => None)
                    (answers "SHOW ALL SLAVES STATUS" allSlavesRows) allSlavesRows)).
    reflexivity.
  - apply (proj2 (ScrapeSlaveStatus_dialects (fun s => s) (fun _ _ => None)
                    (mysqlServer slaveRowsOnly) slaveRowsOnly)).
    + intros done suffix. exists (ErrSql "syntax error").
      unfold mysqlServer, answers.
      destruct suffix; reflexivity.
    + reflexivity.
Defined.

(** ** Columns that the slave-status scraper does not know *)

Section GenericColumns.

Variable unicodeToLower : string -> string.
Variable afterMonth : nat -> string -> option Z.

Lemma slaveColumn_generic : forall l col raw,
  isSpecial col = false ->
  slaveColumn unicodeToLower afterMonth l col raw =
  match parseStatus unicodeToLower afterMonth raw with
  | (v, true) =>
      if validColumn unicodeToLower col && validLabels l
      then ([genericSample (ToLower unicodeToLower col) v (rowLabelValues l)], Done)
      else ([], Panicked)
  | (_, false) => ([], Done)
  end.
Proof.
  intros l col raw H. unfold isSpecial in H.
  apply orb_false_iff in H. destruct H as [H H3].
  apply orb_false_iff in H. destruct H as [H1 H2].
  unfold slaveColumn. rewrite H1, H2, H3. cbn [orb].
  destruct (parseStatus unicodeToLower afterMonth raw) as [v [|]]; [|reflexivity].
  rewrite MustNewConstMetric_cases. unfold validColumn, genericSample.
  change (List.length (variableLabels (NewDesc _ _ rowLabelNames))) with 4%nat.
  rewrite validateLabelValues_row. unfold NewDesc at 1. cbn [descErr].
  destruct (model.IsValidMetricName _); cbn [negb isNil andb]; [|reflexivity].
  change (forallb checkLabelName rowLabelNames) with true.
  change (distinct rowLabelNames) with true. cbn [negb isNil andb].
  destruct (validLabels l); reflexivity.
Qed.

Lemma columnLoop_generic : forall l args cols i,
  forallb (fun c => negb (isSpecial c)) cols = true ->
  forallb (validColumn unicodeToLower) cols = true ->
  validLabels l = true ->
  (i + List.length cols <= List.length args)%nat ->
  snd (columnLoop unicodeToLower afterMonth l args i cols) = Done /\
  (List.length (fst (columnLoop unicodeToLower afterMonth l args i cols))
   <= List.length cols)%nat /\
  Forall (fun m => valueType m = UntypedValue /\ labelValues m = rowLabelValues l)
         (fst (columnLoop unicodeToLower afterMonth l args i cols)).
Proof.
  intros l args cols. induction cols as [|col cols IH]; intros i G N V Hl.
  - cbn [columnLoop fst snd List.length]. repeat split; [lia | constructor].
  - cbn [forallb] in G, N. apply andb_true_iff in G. destruct G as [Gc Gs].
    apply andb_true_iff in N. destruct N as [Nc Ns].
    apply negb_true_iff in Gc. cbn [List.length] in Hl. cbn [columnLoop].
    destruct (nth_error args i) as [raw|] eqn:En;
      [|apply nth_error_None in En; lia].
    rewrite (slaveColumn_generic l col raw Gc), Nc, V. cbn [andb].
    destruct (IH (S i) Gs Ns V ltac:(lia)) as (Is & Il & If).
    destruct (columnLoop unicodeToLower afterMonth l args (S i) cols) as [ms' st'].
    cbn [fst snd] in *.
    destruct (parseStatus unicodeToLower afterMonth raw) as [v [|]];
      cbn [fst snd app List.length]; repeat split; try assumption; try lia.
    constructor; [split; reflexivity | assumption].
Qed.

Lemma slaveRow_visit : forall slaveCols row,
  List.length slaveCols = List.length row ->
  slaveRow unicodeToLower afterMonth slaveCols row
  = columnLoop unicodeToLower afterMonth (labelsOfRow slaveCols row)
      (map scanRawBytes row) 0 slaveCols.
Proof.
  intros slaveCols row H. unfold slaveRow. rewrite H, Nat.eqb_refl. cbn [negb].
  assert (H' : List.length slaveCols = List.length (map scanRawBytes row))
    by (rewrite length_map; exact H).
  rewrite !(columnValue_labelOf _ _ _ H'). reflexivity.
Qed.

(** X7.  Rows without any of the three special columns.  When every
    column gives a sample name that is a metric name and the four label
    values of every row are valid UTF-8 (the client library panics
    otherwise, when a sample is built), then whatever the texts of the row,
    every row that [Scan] accepts is visited to its end without an error,
    each column gives at most one sample, untyped and carrying the labels of
    its row, and a text that [parseStatus] rejects is passed over in
    silence. *)
Theorem slaveRows_generic : forall slaveCols rows,
  forallb (fun c => negb (isSpecial c)) slaveCols = true ->
  forallb (validColumn unicodeToLower) slaveCols = true ->
  Forall (fun row => List.length row = List.length slaveCols /\
                     validLabels (labelsOfRow slaveCols row) = true) rows ->
  snd (slaveRows unicodeToLower afterMonth slaveCols rows) = Done /\
  (List.length (fst (slaveRows unicodeToLower afterMonth slaveCols rows))
   <= List.length slaveCols * List.length rows)%nat /\
  Forall (fun m => valueType m = UntypedValue /\ List.length (labelValues m) = 4%nat)
         (fst (slaveRows unicodeToLower afterMonth slaveCols rows)).
Proof.
  intros slaveCols rows G N H. induction H as [|row rows [Hr Hv] _ IH].
  - cbn [slaveRows fst snd List.length]. repeat split; [lia | constructor].
  - cbn [slaveRows].
    rewrite (slaveRow_visit slaveCols row (eq_sym Hr)).
    destruct (columnLoop_generic (labelsOfRow slaveCols row) (map scanRawBytes row)
                slaveCols 0 G N Hv) as (Cs & Cl & Cf);
      [rewrite length_map; cbn [Nat.add]; lia|].
    destruct (columnLoop unicodeToLower afterMonth (labelsOfRow slaveCols row)
                (map scanRawBytes row) 0 slaveCols) as [ms st].
    cbn [fst snd] in Cs, Cl, Cf. subst st.
    destruct IH as (Is & Il & If).
    destruct (slaveRows unicodeToLower afterMonth slaveCols rows) as [ms' st'].
    cbn [fst snd List.length] in *. split; [exact Is|]. split.
    + rewrite length_app. nia.
    + apply Forall_app. split; [|exact If].
      eapply Forall_impl; [|exact Cf]. intros m [Hv' Hlab].
      split; [exact Hv' | rewrite Hlab; reflexivity].
Qed.

End GenericColumns.

Lemma slaveRows_generic_witness :
  snd (slaveRows (fun s => s) (fun _ _ => None)
         ["Master_Host"; "Slave_IO_State"; "Seconds_Behind_Master"]
         [[VBytes "db1"; VBytes "Waiting for master to send event"; VBytes "7"];
          [VNull; VNull; VBytes "x"]])
  = Done.
Proof.
  apply (slaveRows_generic (fun s => s) (fun _ _ => None)
           ["Master_Host"; "Slave_IO_State"; "Seconds_Behind_Master"]
           [[VBytes "db1"; VBytes "Waiting for master to send event"; VBytes "7"];
            [VNull; VNull; VBytes "x"]]).
  - reflexivity.
  - reflexivity.
  - repeat constructor.
Defined.

(** ** The transaction-set column *)

Section GtidColumn.

Variable unicodeToLower : string -> string.
Variable afterMonth : nat -> string -> option Z.

Lemma slaveColumn_gtid_fails : forall l raw gs e,
  ParseGTID raw = Return (gs, Some e) ->
  slaveColumn unicodeToLower afterMonth l "Executed_Gtid_Set" raw = ([], Failed e).
Proof.
  intros l raw gs e H. unfold slaveColumn. cbn [String.eqb Ascii.eqb Bool.eqb andb].
  rewrite H. reflexivity.
Qed.

(** X8.  In the slave-status scraper a text of [Executed_Gtid_Set] that
    [ParseGTID] rejects ends the visit of the row with the error of
    [ParseGTID], the column and those after it sending nothing.  The empty
    text is rejected, so a row whose [Executed_Gtid_Set] is empty fails;
    the master-status scraper passes over an empty set without an error. *)
Theorem gtid_column_rejected :
  (forall l args pre post i ms raw gs e,
     columnLoop unicodeToLower afterMonth l args i pre = (ms, Done) ->
     nth_error args (i + List.length pre) = Some raw ->
     ParseGTID raw = Return (gs, Some e) ->
     columnLoop unicodeToLower afterMonth l args i (pre ++ "Executed_Gtid_Set" :: post)
     = (ms, Failed e)) /\
  (forall l args pre post i ms,
     columnLoop unicodeToLower afterMonth l args i pre = (ms, Done) ->
     nth_error args (i + List.length pre) = Some "" ->
     columnLoop unicodeToLower afterMonth l args i (pre ++ "Executed_Gtid_Set" :: post)
     = (ms, Failed (ErrGtidTooLittle ""))) /\
  (forall v, executedGTidSet v = "" -> masterGtid v = ([], Done)).
Proof.
  assert (G : forall l args pre post i ms raw gs e,
     columnLoop unicodeToLower afterMonth l args i pre = (ms, Done) ->
     nth_error args (i + List.length pre) = Some raw ->
     ParseGTID raw = Return (gs, Some e) ->
     columnLoop unicodeToLower afterMonth l args i (pre ++ "Executed_Gtid_Set" :: post)
     = (ms, Failed e)).
  { intros l args pre post i ms raw gs e Hpre Hraw Hp.
    rewrite (columnLoop_fails unicodeToLower afterMonth l args pre "Executed_Gtid_Set"
               post i ms raw [] e Hpre Hraw (slaveColumn_gtid_fails l raw gs e Hp)).
    rewrite app_nil_r. reflexivity. }
  split; [exact G|]. split.
  - intros l args pre post i ms Hpre Hraw.
    apply (G l args pre post i ms "" [] (ErrGtidTooLittle "") Hpre Hraw). reflexivity.
  - intros v E. unfold masterGtid. rewrite E. reflexivity.
Qed.

End GtidColumn.

Lemma gtid_column_rejected_witness :
  columnLoop (fun s => s) (fun _ _ => None)
    {| masterHost := ""; masterUUID := ""; channelName := ""; connectionName := "" |}
    ["7"; ""; "9"] 0 (["Seconds_Behind_Master"] ++ "Executed_Gtid_Set" :: ["Connect_Retry"])
  = ([genericSample "seconds_behind_master" (float64.ofInt 7) [""; ""; ""; ""]],
     Failed (ErrGtidTooLittle "")).
Proof.
  apply (proj1 (proj2 (gtid_column_rejected (fun s => s) (fun _ _ => None)))
           {| masterHost := ""; masterUUID := ""; channelName := ""; connectionName := "" |}
           ["7"; ""; "9"] ["Seconds_Behind_Master"] ["Connect_Retry"] 0%nat);
    reflexivity.
Defined.

(** ** The rows of the master-status scraper *)

Lemma masterScan_gtid_kept : forall row v v',
  masterScan 4 row v = Val v' -> executedGTidSet v' = executedGTidSet v.
Proof.
  intros row v v' H. unfold masterScan in H.
  destruct (negb (List.length row =? 4)%nat) eqn:L; [discriminate|].
  destruct row as [|a [|b [|c [|d rest]]]]; try discriminate.
  destruct (scanString 0 a); try discriminate. cbn [andThen] in H.
  destruct (scanInt64 1 b); try discriminate. cbn [andThen] in H.
  destruct (scanString 2 c); try discriminate. cbn [andThen] in H.
  destruct (scanString 3 d); try discriminate. cbn [andThen] in H.
  destruct rest; [|simpl in L; discriminate]. injection H as <-. reflexivity.
Qed.

Lemma masterScan_any_vars : forall n row v w,
  executedGTidSet v = executedGTidSet w \/ n = 5%nat ->
  masterScan n row v = masterScan n row w.
Proof.
  intros n row v w H. unfold masterScan.
  destruct (negb (List.length row =? n)%nat) eqn:L; [reflexivity|].
  destruct row as [|a [|b [|c [|d rest]]]]; try reflexivity.
  destruct (scanString 0 a); try reflexivity. cbn [andThen].
  destruct (scanInt64 1 b); try reflexivity. cbn [andThen].
  destruct (scanString 2 c); try reflexivity. cbn [andThen].
  destruct (scanString 3 d); try reflexivity. cbn [andThen].
  destruct rest; [|reflexivity].
  destruct H as [H|H]; [rewrite H; reflexivity|].
  subst n. simpl in L. discriminate.
Qed.

Lemma masterRows_gtid_kept : forall rows v v',
  masterRows 4 rows v = Val v' -> executedGTidSet v' = executedGTidSet v.
Proof.
  induction rows as [|row rows IH]; intros v v' H; cbn [masterRows] in H.
  - injection H as <-. reflexivity.
  - cbn [Nat.eqb] in H. destruct (masterScan 4 row v) as [v1| |] eqn:E; try discriminate.
    cbn [andThen] in H. rewrite (IH _ _ H). apply (masterScan_gtid_kept _ _ _ E).
Qed.

Lemma masterRows_app : forall n rows r v,
  masterRows n (rows ++ [r]) v = andThen (masterRows n rows v) (masterRows n [r]).
Proof.
  intros n rows r. induction rows as [|row rows IH]; intros v; cbn [app masterRows].
  - cbn [andThen]. reflexivity.
  - destruct (if (n =? 4)%nat then _ else _); cbn [andThen]; [apply IH | reflexivity | reflexivity].
Qed.

(** X9.  The master-status scraper keeps the values of the last row only:
    with four or five columns, when the rows before the last are accepted by
    [Scan], reading all the rows leaves the variables as reading the last row
    alone does. *)
Theorem masterRows_last_row : forall n rows r v',
  n = 4%nat \/ n = 5%nat ->
  masterRows n rows noVars = Val v' ->
  masterRows n (rows ++ [r]) noVars = masterRows n [r] noVars.
Proof.
  intros n rows r v' Hn H. rewrite masterRows_app, H. cbn [andThen masterRows].
  destruct Hn as [-> | ->]; cbn [Nat.eqb].
  - rewrite (masterScan_any_vars 4 r v' noVars); [reflexivity|].
    left. apply (masterRows_gtid_kept _ _ _ H).
  - rewrite (masterScan_any_vars 5 r v' noVars); [reflexivity | right; reflexivity].
Qed.

Lemma masterRows_last_row_witness :
  masterRows 5
    ([[VBytes "binlog.000001"; VInt 4; VBytes ""; VBytes ""; VBytes "A:1-2"]]
     ++ [[VBytes "binlog.000006"; VInt 49066; VBytes ""; VBytes ""; VBytes ""]]) noVars
  = masterRows 5 [[VBytes "binlog.000006"; VInt 49066; VBytes ""; VBytes ""; VBytes ""]]
      noVars.
Proof.
  apply (masterRows_last_row 5
           [[VBytes "binlog.000001"; VInt 4; VBytes ""; VBytes ""; VBytes "A:1-2"]]
           [VBytes "binlog.000006"; VInt 49066; VBytes ""; VBytes ""; VBytes ""]
           {| filename := "binlog.000001"; position := 4; binlogDoDb := "";
              binlogIgnoreDb := ""; executedGTidSet := "A:1-2" |}).
  - right. reflexivity.
  - reflexivity.
Defined.

(** X10.  The master-status scraper with no row, or with a wrong number of
    columns: a result without rows sends nothing and is no error, whatever
    its columns; a result with a row and a number of columns other than 4 and
    5 fails with that number and sends nothing. *)
Theorem ScrapeMasterStatus_rows_edge : forall (db : DB) rs cols,
  db [] "SHOW MASTER STATUS" = inr rs -> Columns rs = inr cols ->
  (Data rs = [] ->
   ScrapeMasterStatus db
   = {| executed := ["SHOW MASTER STATUS"]; sent := []; returned := Done |}) /\
  (Data rs <> [] -> List.length cols <> 4%nat -> List.length cols <> 5%nat ->
   ScrapeMasterStatus db
   = {| executed := ["SHOW MASTER STATUS"]; sent := [];
        returned := Failed (ErrInvalidColumns (List.length cols)) |}).
Proof.
  intros db rs cols Hdb Hc. unfold ScrapeMasterStatus.
  change masterStatusQueries with "SHOW MASTER STATUS". rewrite Hdb, Hc. split.
  - intros E. rewrite E. reflexivity.
  - intros E N4 N5. destruct (Data rs) as [|r rows]; [congruence|].
    cbn [masterRows].
    apply Nat.eqb_neq in N4. apply Nat.eqb_neq in N5. rewrite N4, N5. reflexivity.
Qed.

Lemma ScrapeMasterStatus_rows_edge_witness :
  ScrapeMasterStatus (answers "SHOW MASTER STATUS" (rowsOf ["File"; "Position"] []))
  = {| executed := ["SHOW MASTER STATUS"]; sent := []; returned := Done |} /\
  ScrapeMasterStatus
    (answers "SHOW MASTER STATUS" (rowsOf ["File"; "Position"] [[VBytes "b.1"; VInt 4]]))
  = {| executed := ["SHOW MASTER STATUS"]; sent := [];
       returned := Failed (ErrInvalidColumns 2) |}.
Proof.
  split.
  - apply (proj1 (ScrapeMasterStatus_rows_edge
                    (answers "SHOW MASTER STATUS" (rowsOf ["File"; "Position"] []))
                    (rowsOf ["File"; "Position"] []) ["File"; "Position"]
                    eq_refl eq_refl)).
    reflexivity.
  - apply (proj2 (ScrapeMasterStatus_rows_edge
                    (answers "SHOW MASTER STATUS"
                       (rowsOf ["File"; "Position"] [[VBytes "b.1"; VInt 4]]))
                    (rowsOf ["File"; "Position"] [[VBytes "b.1"; VInt 4]])
                    ["File"; "Position"] eq_refl eq_refl));
      discriminate.
Defined.

Lemma masterGtidLoop_valid : forall gs,
  forallb (fun g => utf8.ValidString (ServerId g)) gs = true ->
  masterGtidLoop gs = (flat_map masterGtidSamples gs, Done).
Proof.
  induction gs as [|g gs IH]; intros H; [reflexivity|].
  cbn [forallb] in H. apply andb_true_iff in H. destruct H as [Hg Hs].
  assert (S : forall d vt v,
            descErr d = None -> List.length (variableLabels d) = 2%nat ->
            send (MustNewConstMetric d vt v [ServerId g; ""])
            = ([constMetric d vt v [ServerId g; ""]], Done)).
  { intros d vt v Hd Hn. rewrite MustNewConstMetric_cases, Hd, Hn.
    unfold validateLabelValues. cbn [List.length Nat.eqb forallb]. rewrite Hg.
    reflexivity. }
  cbn [masterGtidLoop flat_map]. unfold masterGtidMetrics.
  rewrite !S by reflexivity. rewrite (IH Hs). reflexivity.
Qed.

(** X11.  In the master-status scraper the two file samples are sent before
    the transaction set is parsed and are not taken back: for a file name of
    two segments whose second is a number, a set that [ParseGTID] rejects
    makes [Scrape] fail after exactly these two samples, and a set that it
    accepts, with server ids that are valid UTF-8 (the client library panics
    on others when it builds their samples), adds two samples for each of
    its items. *)
Theorem ScrapeMasterStatus_file_then_gtid :
  forall (db : DB) rs cols v a b x gs oe,
  db [] "SHOW MASTER STATUS" = inr rs -> Columns rs = inr cols ->
  masterRows (List.length cols) (Data rs) noVars = Val v ->
  filename v = a ++ String "." b -> occurs "." a = false -> occurs "." b = false ->
  strconv.ParseFloat b = (x, None) ->
  executedGTidSet v <> "" ->
  ParseGTID (executedGTidSet v) = Return (gs, oe) ->
  (oe = None -> forallb (fun g => utf8.ValidString (ServerId g)) gs = true) ->
  ScrapeMasterStatus db =
  match oe with
  | Some e => {| executed := ["SHOW MASTER STATUS"];
                 sent := masterFileSamples x (position v); returned := Failed e |}
  | None => {| executed := ["SHOW MASTER STATUS"];
               sent := (masterFileSamples x (position v)
                        ++ flat_map masterGtidSamples gs)%list;
               returned := Done |}
  end /\
  (oe = None ->
   List.length (flat_map masterGtidSamples gs)
   = (2 * List.length (strings.Split (executedGTidSet v) ","))%nat).
Proof.
  intros db rs cols v a b x gs oe Hdb Hc Hr Hf Ha Hb Hx Hne Hp Hv. split.
  - unfold ScrapeMasterStatus. change masterStatusQueries with "SHOW MASTER STATUS".
    rewrite Hdb, Hc. fold noVars. rewrite Hr, (masterFile_two v a b Hf Ha Hb), Hx.
    unfold masterGtid. destruct (executedGTidSet v) eqn:E; [congruence|].
    cbn [isEmpty negb]. rewrite Hp. destruct oe; [reflexivity|].
    rewrite (masterGtidLoop_valid gs (Hv eq_refl)). reflexivity.
  - intros ->. apply ParseGTID_ok_inv in Hp. apply Forall2_length in Hp.
    rewrite Hp. clear. induction gs as [|g gs IH]; [reflexivity|].
    cbn [flat_map List.length app masterGtidSamples]. rewrite IH. lia.
Qed.

Lemma ScrapeMasterStatus_file_then_gtid_witness :
  ScrapeMasterStatus
    (answers "SHOW MASTER STATUS"
       (rowsOf masterColumns
          [[VBytes "binlog.000006"; VInt 4; VBytes ""; VBytes ""; VBytes "SID:1-5-6"]]))
  = {| executed := ["SHOW MASTER STATUS"];
       sent := masterFileSamples (float64.ofInt 6) 4;
       returned := Failed (ErrGtidCutByDash "SID:1-5-6") |} /\
  ScrapeMasterStatus
    (answers "SHOW MASTER STATUS"
       (rowsOf masterColumns
          [[VBytes "binlog.000006"; VInt 4; VBytes ""; VBytes ""; VBytes "A:1-5,B:7"]]))
  = {| executed := ["SHOW MASTER STATUS"];
       sent := (masterFileSamples (float64.ofInt 6) 4
                ++ flat_map masterGtidSamples
                     [ {| ServerId := "A"; FirstTransaction := 1; LastTransaction := 5;
                          Transactions := [ {| Start := 1; End := 5 |} ] |};
                       {| ServerId := "B"; FirstTransaction := 7; LastTransaction := 7;
                          Transactions := [ {| Start := 7; End := 7 |} ] |} ])%list;
       returned := Done |}.
Proof.
  split.
  - apply (proj1 (ScrapeMasterStatus_file_then_gtid
             (answers "SHOW MASTER STATUS"
                (rowsOf masterColumns
                   [[VBytes "binlog.000006"; VInt 4; VBytes ""; VBytes "";
                     VBytes "SID:1-5-6"]]))
             (rowsOf masterColumns
                [[VBytes "binlog.000006"; VInt 4; VBytes ""; VBytes "";
                  VBytes "SID:1-5-6"]])
             masterColumns
             {| filename := "binlog.000006"; position := 4; binlogDoDb := "";
                binlogIgnoreDb := ""; executedGTidSet := "SID:1-5-6" |}
             "binlog" "000006" (float64.ofInt 6) []
             (Some (ErrGtidCutByDash "SID:1-5-6"))
             eq_refl eq_refl eq_refl eq_refl eq_refl eq_refl eq_refl
             ltac:(discriminate) eq_refl ltac:(discriminate))).
  - apply (proj1 (ScrapeMasterStatus_file_then_gtid
             (answers "SHOW MASTER STATUS"
                (rowsOf masterColumns
                   [[VBytes "binlog.000006"; VInt 4; VBytes ""; VBytes "";
                     VBytes "A:1-5,B:7"]]))
             (rowsOf masterColumns
                [[VBytes "binlog.000006"; VInt 4; VBytes ""; VBytes "";
                  VBytes "A:1-5,B:7"]])
             masterColumns
             {| filename := "binlog.000006"; position := 4; binlogDoDb := "";
                binlogIgnoreDb := ""; executedGTidSet := "A:1-5,B:7" |}
             "binlog" "000006" (float64.ofInt 6)
             [ {| ServerId := "A"; FirstTransaction := 1; LastTransaction := 5;
                  Transactions := [ {| Start := 1; End := 5 |} ] |};
               {| ServerId := "B"; FirstTransaction := 7; LastTransaction := 7;
                  Transactions := [ {| Start := 7; End := 7 |} ] |} ]
             None
             eq_refl eq_refl eq_refl eq_refl eq_refl eq_refl eq_refl
             ltac:(discriminate) eq_refl (fun _ => eq_refl))).
Defined.

(** ** Numerals as status values *)

Lemma isDigit_byte : forall c, strconv.isDigit c = true ->
  strings.isASCII c = true /\ strings.lower c = c /\
  strconv.lowerBit c = strings.code c /\ 48 <= strings.code c <= 57.
Proof.
  intros c H.
  destruct c as [b0 b1 b2 b3 b4 b5 b6 b7];
    destruct b0, b1, b2, b3, b4, b5, b6, b7; try discriminate H;
    repeat split; try reflexivity; vm_compute; discriminate.
Qed.

Lemma isDigit_differs : forall c d,
  strconv.isDigit c = true -> strconv.isDigit d = false -> Ascii.eqb c d = false.
Proof.
  intros c d Hc Hd. apply Ascii.eqb_neq. intros ->. congruence.
Qed.

Lemma matchByte_digit : forall c d,
  strconv.isDigit c = true -> strconv.isDigit d = false -> time.matchByte c d = false.
Proof.
  intros c d Hc Hd. unfold time.matchByte. rewrite (isDigit_differs c d Hc Hd).
  destruct (isDigit_byte c Hc) as (_ & _ & L & R). unfold strconv.lowerBit in L.
  rewrite L. cbn [orb].
  assert (F : (97 <=? strings.code c) = false) by (apply Z.leb_gt; lia).
  rewrite F, andb_false_r. reflexivity.
Qed.

Lemma numeral_lower : forall s,
  strings.allBytes strconv.isDigit s = true ->
  strings.allBytes strings.isASCII s = true /\ strings.mapBytes strings.lower s = s.
Proof.
  induction s as [|c r IH]; intros H; [split; reflexivity|].
  cbn [strings.allBytes strings.mapBytes] in *. apply andb_true_iff in H.
  destruct H as [Hc Hr]. destruct (isDigit_byte c Hc) as (A & L & _).
  destruct (IH Hr) as [A' L']. rewrite A, A', L, L'. split; reflexivity.
Qed.

Lemma matchToEnd_numeral : forall s,
  strings.allBytes strconv.isDigit s = true ->
  regexp.matchToEnd s [regexp.One (regexp.Byte "."); regexp.Plus regexp.Digit] = false /\
  regexp.matchToEnd s logRE = false.
Proof.
  induction s as [|c r IH]; intros H; [split; reflexivity|].
  cbn [strings.allBytes] in H. apply andb_true_iff in H. destruct H as [Hc Hr].
  destruct (IH Hr) as [I1 I2]. unfold logRE in *.
  cbn [regexp.matchToEnd regexp.inClass]. rewrite I1, I2.
  rewrite (isDigit_differs c "." Hc eq_refl). cbn [andb orb].
  rewrite andb_false_r. split; reflexivity.
Qed.

Lemma Find_numeral : forall s,
  strings.allBytes strconv.isDigit s = true -> regexp.Find logRE s = None.
Proof.
  induction s as [|c r IH]; intros H; [reflexivity|].
  cbn [regexp.Find]. rewrite (proj2 (matchToEnd_numeral _ H)).
  cbn [strings.allBytes] in H. apply andb_true_iff in H. apply IH, H.
Qed.

Lemma digitLoop_numeral : forall s sd us d f,
  strings.allBytes strconv.isDigit s = true ->
  strconv.digitLoop false s
    {| strconv.sawdot := false; strconv.sawdigits := sd; strconv.underscores := us;
       strconv.digits := d; strconv.frac := f |}
  = ({| strconv.sawdot := false; strconv.sawdigits := sd || negb (isEmpty s);
        strconv.underscores := us; strconv.digits := numeralFrom s d;
        strconv.frac := f |}, EmptyString).
Proof.
  induction s as [|c r IH]; intros sd us d f H.
  - cbn [strconv.digitLoop isEmpty negb numeralFrom]. rewrite orb_false_r. reflexivity.
  - cbn [strings.allBytes] in H. apply andb_true_iff in H. destruct H as [Hc Hr].
    cbn [strconv.digitLoop].
    rewrite (isDigit_differs c "_" Hc eq_refl), (isDigit_differs c "." Hc eq_refl), Hc.
    unfold strconv.addDigit.
    cbn [strconv.sawdot strconv.sawdigits strconv.underscores strconv.digits strconv.frac].
    rewrite (IH true us _ f Hr). cbn [isEmpty negb numeralFrom orb].
    rewrite orb_true_r. reflexivity.
Qed.

Lemma ParseFloat_numeral : forall s, isNumeral s = true ->
  strconv.ParseFloat s =
  (float64.ofScaled false (numeral s) 10 0,
   if float64.isInf (float64.ofScaled false (numeral s) 10 0)
   then Some (strconv.numError "ParseFloat" s strconv.ErrRange) else None).
Proof.
  intros s H. unfold isNumeral in H. apply andb_true_iff in H. destruct H as [Hn Hd].
  destruct s as [|c r]; [discriminate|]. clear Hn.
  pose proof Hd as Hd0. cbn [strings.allBytes] in Hd. apply andb_true_iff in Hd.
  destruct Hd as [Hc Hr].
  assert (S : strconv.special (String c r) = None).
  { unfold strconv.special.
    rewrite (isDigit_differs c "+" Hc eq_refl), (isDigit_differs c "-" Hc eq_refl),
      (isDigit_differs c "i" Hc eq_refl), (isDigit_differs c "I" Hc eq_refl),
      (isDigit_differs c "n" Hc eq_refl), (isDigit_differs c "N" Hc eq_refl).
    reflexivity. }
  assert (R : strconv.readFloat (String c r)
              = Some (false, false, numeral (String c r), 0)).
  { unfold strconv.readFloat.
    rewrite (isDigit_differs c "+" Hc eq_refl), (isDigit_differs c "-" Hc eq_refl).
    cbn [orb].
    assert (X : match String c r with
                | String c1 (String c2 (String c3 r3)) =>
                    if Ascii.eqb c1 "0" && (strconv.lowerBit c2 =? 120)
                    then (true, String c3 r3) else (false, String c r)
                | _ => (false, String c r)
                end = (false, String c r)).
    { destruct r as [|c2 [|c3 r3]]; try reflexivity.
      cbn [strings.allBytes] in Hr. apply andb_true_iff in Hr. destruct Hr as [Hc2 _].
      destruct (isDigit_byte c2 Hc2) as (_ & _ & L & B). rewrite L.
      assert (F : (strings.code c2 =? 120) = false) by (apply Z.eqb_neq; lia).
      rewrite F, andb_false_r. reflexivity. }
    rewrite X. rewrite (digitLoop_numeral (String c r) false false 0 0 Hd0).
    cbn [strconv.sawdigits isEmpty negb orb strconv.exponent strconv.underscores andb
         strconv.digits strconv.frac].
    reflexivity. }
  unfold strconv.ParseFloat. rewrite S, R. reflexivity.
Qed.

Lemma Parse_2006_numeral : forall s,
  strings.allBytes strconv.isDigit s = true ->
  time.Parse_2006_01_02_15_04_05 s = None.
Proof.
  intros s H. unfold time.Parse_2006_01_02_15_04_05.
  destruct s as [|c1 [|c2 [|c3 [|c4 r]]]]; try reflexivity.
  cbn [strings.allBytes] in H.
  repeat match goal with
         | H : _ && _ = true |- _ => apply andb_true_iff in H; destruct H
         end.
  unfold time.longYear, time.isDigit.
  repeat match goal with
         | H : strconv.isDigit _ = true |- _ => rewrite H; clear H
         end.
  cbn [andb]. destruct r as [|c5 r]; [reflexivity|].
  cbn [strings.allBytes] in *.
  match goal with
  | H : _ && _ = true |- _ => apply andb_true_iff in H; destruct H as [H5 _]
  end.
  unfold time.skip. cbn [Ascii.eqb Bool.eqb andb].
  rewrite (isDigit_differs c5 "-" H5 eq_refl). reflexivity.
Qed.

Section Numerals.

Variable unicodeToLower : string -> string.
Variable afterMonth : nat -> string -> option Z.

(** X12.  [parseStatus] reads a text made of decimal digits as the number
    it writes, rounded to the nearest [float64]: no keyword, time layout or
    file-name rule applies to it, and the result is accepted unless the
    number is too large for a [float64], when the value is an infinity and
    [ok] is false. *)
Theorem parseStatus_numeral : forall data, isNumeral data = true ->
  parseStatus unicodeToLower afterMonth data
  = (float64.ofScaled false (numeral data) 10 0,
     negb (float64.isInf (float64.ofScaled false (numeral data) 10 0))).
Proof.
  intros data H. pose proof H as H0.
  unfold isNumeral in H. apply andb_true_iff in H. destruct H as [Hn Hd].
  destruct (numeral_lower data Hd) as [A L].
  assert (K : forall k,
            In k ["yes"; "on"; "no"; "off"; "disabled"; "connecting"; "primary";
                  "non-primary"; "disconnected"] ->
            String.eqb data k = false).
  { intros k Hk. apply String.eqb_neq. intros ->.
    cbn [In] in Hk.
    repeat (destruct Hk as [<-|Hk]; [discriminate H0|]). destruct Hk. }
  unfold parseStatus, ToLower, oneOf. rewrite A, L. cbn [existsb].
  rewrite !K by (cbn [In]; tauto). cbn [orb].
  assert (M : time.Parse_Jan_02_15_04_05_2006_MST afterMonth data = None).
  { unfold time.Parse_Jan_02_15_04_05_2006_MST, time.shortMonthNames.
    destruct data as [|c r]; [discriminate|].
    cbn [strings.allBytes] in Hd. apply andb_true_iff in Hd. destruct Hd as [Hc _].
    cbn [time.lookup time.matchPrefix].
    rewrite !(matchByte_digit c) by (assumption || reflexivity). reflexivity. }
  rewrite M, (Parse_2006_numeral data Hd), (Find_numeral data Hd),
    (ParseFloat_numeral data H0).
  destruct (float64.isInf _); reflexivity.
Qed.

End Numerals.

Lemma parseStatus_numeral_witness :
  parseStatus (fun s => s) (fun _ _ => None) "49066" = (float64.ofInt 49066, true).
Proof.
  apply (parseStatus_numeral (fun s => s) (fun _ _ => None) "49066"). reflexivity.
Defined.

(** ** [ParseGTID]: white space after a comma *)

Lemma asciiSpace_not_comma : forall c,
  strings.asciiSpace c = true -> Ascii.eqb c "," = false.
Proof.
  intros c H. apply Ascii.eqb_neq. intros ->. discriminate H.
Qed.

Lemma TrimSpace_leading : forall c s,
  strings.asciiSpace c = true ->
  strings.TrimSpace (String c s) = strings.TrimSpace s.
Proof.
  intros c s H. unfold strings.TrimSpace. cbn [strings.TrimLeftSpace].
  rewrite H. reflexivity.
Qed.

Lemma itemLoop_leading_space : forall c s res,
  strings.asciiSpace c = true ->
  itemLoop (strings.Split (String c s) ",") res = itemLoop (strings.Split s ",") res.
Proof.
  intros c s res H. cbn [strings.Split]. rewrite (asciiSpace_not_comma c H).
  pose proof (Split_not_nil s ",") as N.
  destruct (strings.Split s ",") as [|h t]; [congruence|].
  cbn [itemLoop]. unfold itemBody. rewrite (TrimSpace_leading c h H). reflexivity.
Qed.

(** X13.  White space before an item of a transaction-set text does not
    count: a tab, a newline, a vertical tab, a form feed, a carriage return
    or a space at the start of the text, or after a comma (as in the
    [",\n"] that joins the items in the server's output), leaves both
    results of [ParseGTID] as they are without it, the error and its text
    included. *)
Theorem ParseGTID_space_before_item : forall c,
  strings.asciiSpace c = true ->
  (forall s, ParseGTID (String c s) = ParseGTID s) /\
  (forall a b, ParseGTID (a ++ String "," (String c b)) = ParseGTID (a ++ String "," b)).
Proof.
  intros c H. split.
  - intros s. unfold ParseGTID. rewrite (itemLoop_leading_space c s [] H). reflexivity.
  - intros a b. unfold ParseGTID. rewrite !Split_append, !itemLoop_app.
    destruct (itemLoop (strings.Split a ",") []) as [ra| |]; cbn [andThen];
      try reflexivity.
    rewrite (itemLoop_leading_space c b ra H). reflexivity.
Qed.

Lemma ParseGTID_space_before_item_witness :
  ParseGTID ("A:1-3," ++ String (ascii_of_nat 10) "B:1-19") = ParseGTID "A:1-3,B:1-19" /\
  ParseGTID (String (ascii_of_nat 10) "B") = ParseGTID "B".
Proof.
  destruct (ParseGTID_space_before_item (ascii_of_nat 10) eq_refl) as [L R].
  split; [apply (R "A:1-3" "B:1-19") | apply (L "B")].
Defined.

(** ** [parsePrivilege] *)

Section Privilege.

Variable unicodeToLower : string -> string.
Variable afterMonth : nat -> string -> option Z.

(** X14.  [parsePrivilege] accepts the two texts [Y] and [N] and no other,
    not even in lower case: [Y] gives [(1, true)], [N] gives [(0, true)],
    any other text [(-1, false)]; and what it accepts, [parseStatus]
    rejects. *)
Theorem parsePrivilege_accepts : forall data,
  (data = "Y" -> parsePrivilege data = (float64.ofInt 1, true)) /\
  (data = "N" -> parsePrivilege data = (float64.ofInt 0, true)) /\
  (data <> "Y" -> data <> "N" -> parsePrivilege data = (float64.ofInt (-1), false)) /\
  (snd (parsePrivilege data) = true <-> data = "Y" \/ data = "N") /\
  (snd (parsePrivilege data) = true ->
   snd (parseStatus unicodeToLower afterMonth data) = false).
Proof.
  intros data.
  assert (O : data <> "Y" -> data <> "N" ->
              parsePrivilege data = (float64.ofInt (-1), false)).
  { intros HY HN. unfold parsePrivilege.
    apply String.eqb_neq in HY. apply String.eqb_neq in HN. rewrite HY, HN.
    reflexivity. }
  assert (A : snd (parsePrivilege data) = true -> data = "Y" \/ data = "N").
  { intros H. destruct (String.eqb data "Y") eqn:EY;
      [left; apply String.eqb_eq, EY|].
    destruct (String.eqb data "N") eqn:EN; [right; apply String.eqb_eq, EN|].
    apply String.eqb_neq in EY. apply String.eqb_neq in EN.
    rewrite (O EY EN) in H. discriminate H. }
  split; [intros ->; reflexivity|]. split; [intros ->; reflexivity|].
  split; [exact O|]. split.
  - split; [exact A | intros [-> | ->]; reflexivity].
  - intros H. destruct (A H) as [-> | ->]; reflexivity.
Qed.

End Privilege.

Lemma parsePrivilege_accepts_witness :
  parsePrivilege "y" = (float64.ofInt (-1), false) /\
  snd (parseStatus (fun s => s) (fun _ _ => None) "Y") = false.
Proof.
  split.
  - apply (proj1 (proj2 (proj2 (parsePrivilege_accepts (fun s => s) (fun _ _ => None) "y"))));
      discriminate.
  - apply (proj2 (proj2 (proj2 (proj2
             (parsePrivilege_accepts (fun s => s) (fun _ _ => None) "Y"))))).
    reflexivity.
Defined.

(** ** The rows of the slave-status scraper, one after the other *)

Section RowsInOrder.

Variable unicodeToLower : string -> string.
Variable afterMonth : nat -> string -> option Z.

(** X15.  The slave-status scraper visits the rows in order and stops at
    the first that fails: the samples of the rows before it stay sent, it
    sends what it sent before failing, and the rows after it are not
    visited; when no row fails, the samples of all the rows are sent, in the
    order of the rows. *)
Theorem slaveRows_in_order : forall slaveCols rows1 rows2,
  slaveRows unicodeToLower afterMonth slaveCols (rows1 ++ rows2)
  = match slaveRows unicodeToLower afterMonth slaveCols rows1 with
    | (ms1, Done) =>
        (ms1 ++ fst (slaveRows unicodeToLower afterMonth slaveCols rows2),
         snd (slaveRows unicodeToLower afterMonth slaveCols rows2))%list
    | (ms1, st) => (ms1, st)
    end.
Proof.
  intros slaveCols rows1 rows2. induction rows1 as [|row rows1 IH].
  - cbn [app slaveRows].
    destruct (slaveRows unicodeToLower afterMonth slaveCols rows2); reflexivity.
  - cbn [app slaveRows].
    destruct (slaveRow unicodeToLower afterMonth slaveCols row) as [ms [|e|]];
      try reflexivity.
    rewrite IH.
    destruct (slaveRows unicodeToLower afterMonth slaveCols rows1) as [ms1 [|e|]];
      try reflexivity.
    cbn [fst snd]. rewrite app_assoc. reflexivity.
Qed.

End RowsInOrder.
